(** * Treasury Document Extractor: section division, pattern search,
      layout detection and the pattern-learning loop

    This development embeds the extraction core of the repository
    ([utils/layoutDetection.ts], [utils/extractors.ts] and
    [services/TrainingService.ts]) and proves the properties its
    specification states about it.

    Conventions of the embedding.
    - A JavaScript string is the list of its UTF-16 code units ([jsstring]);
      [js "..."] writes an ASCII literal.
    - A regular expression is its syntax tree ([regex]) together with the
      [i] flag; [str_match] is [String.prototype.match] for a regular
      expression without the [g] flag (a backtracking matcher that follows
      the ECMAScript matching rules: leftmost start, greedy quantifiers,
      alternatives in order, captures reset at each iteration).
    - JavaScript numbers are IEEE doubles.  Confidences, priorities, counts
      and array indexes are integers far below 2^53 and are kept in [Z] or
      [nat].  The scores of the layout detection and the line indexes of
      the section divider are computed in doubles ([float], the binary64
      numbers of the kernel, specified by [SpecFloat]), as the code
      computes them: there the rounding decides which template wins and
      where a section ends.  Percentages, the positions the extractors
      report and success rates are kept as exact rationals ([Q]), which
      the doubles of the code equal up to their last bit, and exactly for
      the default count of ten sections.
    - Methods of the training service are state-passing functions over the
      record [TrainingService]; the IndexedDB tables are lists of keyed rows
      in primary-key order. *)

From stdpp Require Import base option list gmap.
From Stdlib Require Import ZArith QArith Qminmax Qabs Qround String Ascii List Bool Lia Lqa.
From Stdlib Require Import Floats.
From Stdlib Require Import Sorting.Sorted Sorting.Permutation.
Import ListNotations.

Local Open Scope Z_scope.

(** ** JavaScript strings *)

Module JS.

Definition jschar := N.
Definition jsstring := list N.

(** An ASCII literal as a JavaScript string. *)
Definition js (s : string) : jsstring :=
  map N_of_ascii (list_ascii_of_string s).

Definition jseqb (a b : jsstring) : bool := bool_decide (a = b).

(** [WhiteSpace] and [LineTerminator] code units: what [\s] and [trim] see. *)
Definition isWhiteSpace (c : N) : bool :=
  ((9 <=? c) && (c <=? 13) || (c =? 32) || (c =? 160) || (c =? 0x1680)
   || (0x2000 <=? c) && (c <=? 0x200A) || (c =? 0x2028) || (c =? 0x2029)
   || (c =? 0x202F) || (c =? 0x205F) || (c =? 0x3000) || (c =? 0xFEFF))%N.

Definition isLineTerminator (c : N) : bool :=
  ((c =? 10) || (c =? 13) || (c =? 0x2028) || (c =? 0x2029))%N.

Definition isDigit (c : N) : bool := ((48 <=? c) && (c <=? 57))%N.
Definition isUpper (c : N) : bool := ((65 <=? c) && (c <=? 90))%N.
Definition isLower (c : N) : bool := ((97 <=? c) && (c <=? 122))%N.

(** [\w]: the basic word characters. *)
Definition isWordChar (c : N) : bool :=
  isUpper c || isLower c || isDigit c || (c =? 95)%N.

(** [String.prototype.toLowerCase], one code unit at a time: Basic Latin and
    Latin-1 letters are mapped, every other code unit is left as it is
    (Arabic, the second script of the forms, has no case). *)
Definition lowerChar (c : N) : N :=
  if isUpper c then (c + 32)%N
  else if ((192 <=? c) && (c <=? 222) && negb (c =? 215))%N then (c + 32)%N
  else c.

Definition toLowerCase (s : jsstring) : jsstring := map lowerChar s.

Fixpoint trimStart (s : jsstring) : jsstring :=
  match s with
  | c :: r => if isWhiteSpace c then trimStart r else s
  | [] => []
  end.

(** [String.prototype.trim]. *)
Definition trim (s : jsstring) : jsstring :=
  rev (trimStart (rev (trimStart s))).

Fixpoint startsWith (p s : jsstring) : bool :=
  match p, s with
  | [], _ => true
  | a :: p', b :: s' => (a =? b)%N && startsWith p' s'
  | _ :: _, [] => false
  end.

Fixpoint indexOfFrom (needle s : jsstring) (i : nat) : option nat :=
  if startsWith needle s then Some i
  else match s with
       | [] => None
       | _ :: r => indexOfFrom needle r (S i)
       end.

(** [s.indexOf(needle)]; [None] stands for -1. *)
Definition indexOf (s needle : jsstring) : option nat := indexOfFrom needle s 0.

(** [s.includes(needle)]. *)
Definition includes (s needle : jsstring) : bool :=
  match indexOf s needle with Some _ => true | None => false end.

(** [s.substring(0, i)] where [i] is the result of [indexOf]: a negative
    end is clamped to 0. *)
Definition substringTo (s : jsstring) (i : option nat) : jsstring :=
  match i with Some n => firstn n s | None => [] end.

(** [text.split('\n')]: never empty. *)
Fixpoint splitLines (s : jsstring) : list jsstring :=
  match s with
  | [] => [[]]
  | c :: r =>
      if (c =? 10)%N then [] :: splitLines r
      else match splitLines r with
           | l :: ls => (c :: l) :: ls
           | [] => [[c]]
           end
  end.

(** [lines.join('\n')]. *)
Fixpoint joinLines (ls : list jsstring) : jsstring :=
  match ls with
  | [] => []
  | [l] => l
  | l :: rest => l ++ 10%N :: joinLines rest
  end.

(** [arr.slice(a, b)] for [0 <= a]. *)
Definition slice {A} (l : list A) (a b : nat) : list A :=
  firstn (b - a) (skipn a l).

(** JavaScript truthiness of a string that may be [undefined] or [null]. *)
Definition truthy (o : option jsstring) : option jsstring :=
  match o with
  | Some (c :: r) => Some (c :: r)
  | _ => None
  end.

(** *** Regular expressions *)

Inductive ClassItem :=
| CChar (c : N)            (* a single character *)
| CRange (lo hi : N)       (* lo-hi *)
| CSpace | CNotSpace       (* \s \S *)
| CDigit | CNotDigit       (* \d \D *)
| CWord | CNotWord.        (* \w \W *)

Inductive regex :=
| REmpty
| RChar (c : N)
| RAny                                         (* . *)
| RClass (neg : bool) (items : list ClassItem) (* [...] and [^...] *)
| RSeq (a b : regex)
| RAlt (a b : regex)
| RRepeat (lo : nat) (hi : option nat) (a : regex) (* greedy a{lo,hi} *)
| RGroup (n : nat) (a : regex)                 (* the n-th capturing group *)
| RBol | REol                                  (* ^ $ *)
| RWordB.                                      (* \b *)

(** A [RegExp] object: pattern and the [i] flag (no other flag is used). *)
Record RegExp := mkRegExp { re_pattern : regex; re_ignoreCase : bool }.

Definition itemMatches (it : ClassItem) (c : N) : bool :=
  match it with
  | CChar a => (a =? c)%N
  | CRange lo hi => ((lo <=? c) && (c <=? hi))%N
  | CSpace => isWhiteSpace c
  | CNotSpace => negb (isWhiteSpace c)
  | CDigit => isDigit c
  | CNotDigit => negb (isDigit c)
  | CWord => isWordChar c
  | CNotWord => negb (isWordChar c)
  end.

(** The other-case form of a Basic Latin letter.  [Canonicalize] never maps
    a code unit above 127 to one below, so under [i] a character of a
    pattern written in Basic Latin matches exactly itself and its other
    case.  The patterns of the program are written in Basic Latin; a cased
    letter from outside it, which only a stored pattern can hold, matches
    just itself here. *)
Definition toggleCase (c : N) : N :=
  if isUpper c then (c + 32)%N else if isLower c then (c - 32)%N else c.

Definition inClass (ic : bool) (items : list ClassItem) (c : N) : bool :=
  existsb (fun it => itemMatches it c || (ic && itemMatches it (toggleCase c))) items.

Definition charEq (ic : bool) (a c : N) : bool :=
  (a =? c)%N || (ic && (a =? toggleCase c)%N).

(** Numbers of the capturing groups inside a term. *)
Fixpoint groupsOf (r : regex) : list nat :=
  match r with
  | RSeq a b | RAlt a b => groupsOf a ++ groupsOf b
  | RRepeat _ _ a => groupsOf a
  | RGroup n a => n :: groupsOf a
  | _ => []
  end.

(** The matcher state: position, the character before it, the rest of the
    input and the captures made so far. *)
Record MState := mkMState {
  ms_pos : nat;
  ms_prev : option N;
  ms_rest : jsstring;
  ms_caps : list (nat * jsstring)
}.

Definition advance (s : MState) : MState :=
  match ms_rest s with
  | c :: r => mkMState (S (ms_pos s)) (Some c) r (ms_caps s)
  | [] => s
  end.

Definition setCap (n : nat) (v : jsstring) (s : MState) : MState :=
  mkMState (ms_pos s) (ms_prev s) (ms_rest s)
           ((n, v) :: List.filter (fun p => negb (Nat.eqb (fst p) n)) (ms_caps s)).

Definition clearCaps (ns : list nat) (s : MState) : MState :=
  mkMState (ms_pos s) (ms_prev s) (ms_rest s)
           (List.filter (fun p => negb (existsb (Nat.eqb (fst p)) ns)) (ms_caps s)).

Definition getCap (n : nat) (caps : list (nat * jsstring)) : option jsstring :=
  match List.find (fun p => Nat.eqb (fst p) n) caps with
  | Some p => Some (snd p)
  | None => None
  end.

Definition isWordOpt (o : option N) : bool :=
  match o with Some c => isWordChar c | None => false end.

Definition predOpt (o : option nat) : option nat :=
  match o with Some n => Some (Nat.pred n) | None => None end.

(** The backtracking matcher, in continuation-passing style.  The loop of a
    quantifier runs on a budget of [lo] mandatory rounds plus one round per
    remaining character: once the mandatory rounds are done a round that
    consumes nothing is rejected, so the budget is never exhausted. *)
Fixpoint matchRe (ic : bool) (r : regex) (s : MState)
         (k : MState -> option MState) {struct r} : option MState :=
  match r with
  | REmpty => k s
  | RChar a =>
      match ms_rest s with
      | c :: _ => if charEq ic a c then k (advance s) else None
      | [] => None
      end
  | RAny =>
      match ms_rest s with
      | c :: _ => if isLineTerminator c then None else k (advance s)
      | [] => None
      end
  | RClass neg items =>
      match ms_rest s with
      | c :: _ => if xorb neg (inClass ic items c) then k (advance s) else None
      | [] => None
      end
  | RSeq a b => matchRe ic a s (fun s' => matchRe ic b s' k)
  | RAlt a b =>
      match matchRe ic a s k with
      | Some res => Some res
      | None => matchRe ic b s k
      end
  | RGroup n a =>
      matchRe ic a s
        (fun s' => k (setCap n (firstn (ms_pos s' - ms_pos s) (ms_rest s)) s'))
  | RBol => if Nat.eqb (ms_pos s) 0 then k s else None
  | REol => match ms_rest s with [] => k s | _ :: _ => None end
  | RWordB =>
      if xorb (isWordOpt (ms_prev s)) (isWordOpt (head (ms_rest s)))
      then k s else None
  | RRepeat lo hi a =>
      (fix loop (fuel lo : nat) (hi : option nat) (s : MState) {struct fuel}
         : option MState :=
         match fuel with
         | O => None
         | S fuel' =>
             match hi with
             | Some O => k s
             | _ =>
                 let d := fun s' =>
                   if Nat.eqb lo 0 && Nat.eqb (ms_pos s') (ms_pos s) then None
                   else loop fuel' (Nat.pred lo) (predOpt hi) s' in
                 let s0 := clearCaps (groupsOf a) s in
                 if Nat.eqb lo 0 then
                   match matchRe ic a s0 d with
                   | Some res => Some res
                   | None => k s
                   end
                 else matchRe ic a s0 d
             end
         end) (lo + length (ms_rest s) + 1)%nat lo hi s
  end.

(** The array returned by a successful match: element 0 is the matched
    text, element [n] the text of group [n] ([None] for [undefined]). *)
Record MatchArray := mkMatch {
  m_index : nat;
  m_whole : jsstring;
  m_caps : list (nat * jsstring)
}.

Definition group (n : nat) (m : MatchArray) : option jsstring :=
  match n with
  | O => Some (m_whole m)
  | _ => getCap n (m_caps m)
  end.

Fixpoint matchFrom (ic : bool) (r : regex) (pos : nat) (prev : option N)
         (rest : jsstring) {struct rest} : option MatchArray :=
  match matchRe ic r (mkMState pos prev rest []) Some with
  | Some s' => Some (mkMatch pos (firstn (ms_pos s' - pos) rest) (ms_caps s'))
  | None =>
      match rest with
      | [] => None
      | c :: rest' => matchFrom ic r (S pos) (Some c) rest'
      end
  end.

(** [str.match(re)] for a regular expression without the [g] flag. *)
Definition str_match (str : jsstring) (re : RegExp) : option MatchArray :=
  matchFrom (re_ignoreCase re) (re_pattern re) 0 None str.

(** [re.test(str)]. *)
Definition test (re : RegExp) (str : jsstring) : bool :=
  match str_match str re with Some _ => true | None => false end.

(** [m && m[n]]: the text of group [n] when the match succeeded and the
    group is a non-empty string. *)
Definition capture (n : nat) (m : option MatchArray) : option jsstring :=
  match m with
  | Some a => truthy (group n a)
  | None => None
  end.

(** *** Writing patterns *)

(** Concatenation, kept flat: a sequence is nested to the right and holds
    no empty term. *)
Fixpoint rcat (a b : regex) : regex :=
  match a with
  | REmpty => b
  | RSeq x y => RSeq x (rcat y b)
  | _ => match b with REmpty => a | _ => RSeq a b end
  end.

Definition rseq (rs : list regex) : regex := fold_right rcat REmpty rs.

Fixpoint ralt (rs : list regex) : regex :=
  match rs with
  | [] => REmpty
  | [r] => r
  | r :: rest => RAlt r (ralt rest)
  end.

(** A run of literal characters. *)
Definition chars (s : jsstring) : regex := rseq (map RChar s).
Definition lit (s : string) : regex := chars (js s).

Definition star (r : regex) : regex := RRepeat 0 None r.
Definition plus (r : regex) : regex := RRepeat 1 None r.
Definition opt (r : regex) : regex := RRepeat 0 (Some 1%nat) r.
Definition rep (lo hi : nat) (r : regex) : regex := RRepeat lo (Some hi) r.
Definition atLeast (lo : nat) (r : regex) : regex := RRepeat lo None r.

Definition ws : regex := RClass false [CSpace].     (* \s *)
Definition digit : regex := RClass false [CDigit].  (* \d *)
Definition anyChar : regex := RClass false [CSpace; CNotSpace]. (* [\s\S] *)
Definition cch (s : string) : ClassItem :=
  match js s with c :: _ => CChar c | [] => CChar 0%N end.
Definition rng (a b : string) : ClassItem :=
  match js a, js b with
  | x :: _, y :: _ => CRange x y
  | _, _ => CChar 0%N
  end.

Definition re_i (r : regex) : RegExp := mkRegExp r true.   (* /r/i *)
Definition re_ (r : regex) : RegExp := mkRegExp r false.   (* /r/ *)

(** *** Reading patterns

    [new RegExp(source)] for the part of the pattern language the patterns
    of this program are written in: characters, [.], classes with ranges,
    the escapes [\s \S \d \D \w \W \b \t \n \r \v \f \uXXXX] and
    escaped punctuation, groups [(...)] and [(?:...)], [|], [^], [$] and
    the greedy quantifiers.  [None] is a [SyntaxError]; it is also the
    answer for a construct outside this part (look-around, lazy
    quantifiers, back-references, named groups). *)

Definition hexValue (c : N) : option N :=
  if isDigit c then Some (c - 48)%N
  else if ((97 <=? c) && (c <=? 102))%N then Some (c - 87)%N
  else if ((65 <=? c) && (c <=? 70))%N then Some (c - 55)%N
  else None.

(** The four hexadecimal digits of [\uXXXX]. *)
Definition readHex4 (s : jsstring) : option (N * jsstring) :=
  match s with
  | a :: b :: c :: d :: rest =>
      match hexValue a, hexValue b, hexValue c, hexValue d with
      | Some x, Some y, Some z, Some w =>
          Some ((((x * 16 + y) * 16 + z) * 16 + w)%N, rest)
      | _, _, _, _ => None
      end
  | _ => None
  end.

Fixpoint readDigits (s : jsstring) (acc : nat) (seen : bool)
  : option (nat * jsstring) :=
  match s with
  | c :: rest =>
      if isDigit c then readDigits rest (acc * 10 + N.to_nat (c - 48))%nat true
      else if seen then Some (acc, s) else None
  | [] => if seen then Some (acc, s) else None
  end.

(** A character escape after the backslash, shared by terms and classes. *)
Definition readCharEscape (s : jsstring) : option (N * jsstring) :=
  match s with
  | [] => None
  | c :: rest =>
      if (c =? 116)%N then Some (9%N, rest)          (* \t *)
      else if (c =? 110)%N then Some (10%N, rest)    (* \n *)
      else if (c =? 118)%N then Some (11%N, rest)    (* \v *)
      else if (c =? 102)%N then Some (12%N, rest)    (* \f *)
      else if (c =? 114)%N then Some (13%N, rest)    (* \r *)
      else if (c =? 117)%N then readHex4 rest        (* \uXXXX *)
      else if isWordChar c then None
      else Some (c, rest)
  end.

(** [\s \S \d \D \w \W] *)
Definition readClassEscape (c : N) : option ClassItem :=
  if (c =? 115)%N then Some CSpace
  else if (c =? 83)%N then Some CNotSpace
  else if (c =? 100)%N then Some CDigit
  else if (c =? 68)%N then Some CNotDigit
  else if (c =? 119)%N then Some CWord
  else if (c =? 87)%N then Some CNotWord
  else None.

(** One atom of a class: a set escape or a character. *)
Definition readClassAtom (s : jsstring) : option (ClassItem * jsstring) :=
  match s with
  | [] => None
  | c :: rest =>
      if (c =? 92)%N then
        match rest with
        | [] => None
        | e :: rest' =>
            match readClassEscape e with
            | Some it => Some (it, rest')
            | None =>
                if (e =? 98)%N then Some (CChar 8%N, rest')   (* \b in a class *)
                else if (e =? 45)%N then Some (CChar 45%N, rest')
                else match readCharEscape rest with
                     | Some (ch, rest'') => Some (CChar ch, rest'')
                     | None => None
                     end
            end
        end
      else Some (CChar c, rest)
  end.

(** The items of a class up to the closing bracket. *)
Fixpoint readClassItems (fuel : nat) (s : jsstring)
  : option (list ClassItem * jsstring) :=
  match fuel with
  | O => None
  | S fuel' =>
      match s with
      | [] => None
      | c :: rest =>
          if (c =? 93)%N then Some ([], rest)
          else
            match readClassAtom s with
            | None => None
            | Some (a, rest1) =>
                match a, rest1 with
                | CChar lo, d :: rest2 =>
                    if (d =? 45)%N && negb (startsWith [93%N] rest2) then
                      match readClassAtom rest2 with
                      | Some (CChar hi, rest3) =>
                          if (lo <=? hi)%N then
                            match readClassItems fuel' rest3 with
                            | Some (its, out) => Some (CRange lo hi :: its, out)
                            | None => None
                            end
                          else None
                      | Some (b, rest3) =>
                          match readClassItems fuel' rest3 with
                          | Some (its, out) => Some (a :: CChar 45%N :: b :: its, out)
                          | None => None
                          end
                      | None => None
                      end
                    else
                      match readClassItems fuel' rest1 with
                      | Some (its, out) => Some (a :: its, out)
                      | None => None
                      end
                | _, _ =>
                    match readClassItems fuel' rest1 with
                    | Some (its, out) => Some (a :: its, out)
                    | None => None
                    end
                end
            end
      end
  end.

Definition readClass (s : jsstring) : option (regex * jsstring) :=
  let '(neg, body) :=
    match s with
    | c :: rest => if (c =? 94)%N then (true, rest) else (false, s)
    | [] => (false, s)
    end in
  match readClassItems (S (length body)) body with
  | Some (its, out) => Some (RClass neg its, out)
  | None => None
  end.

(** The bounds [{n}], [{n,}] and [{n,m}] after the opening brace. *)
Definition readBounds (s : jsstring) : option (nat * option nat * jsstring) :=
  match readDigits s 0 false with
  | Some (lo, c :: rest) =>
      if (c =? 125)%N then Some (lo, Some lo, rest)
      else if (c =? 44)%N then
        match rest with
        | d :: rest' =>
            if (d =? 125)%N then Some (lo, None, rest')
            else match readDigits rest 0 false with
                 | Some (hi, e :: rest'') =>
                     if (e =? 125)%N then Some (lo, Some hi, rest'') else None
                 | _ => None
                 end
        | [] => None
        end
      else None
  | _ => None
  end.

(** The quantifier that may follow an atom. *)
Definition readQuantifier (a : regex) (s : jsstring) : option (regex * jsstring) :=
  let lazy (r : option (regex * jsstring)) :=
    match r with
    | Some (_, c :: _) => if (c =? 63)%N then None else r
    | _ => r
    end in
  match s with
  | c :: rest =>
      if (c =? 42)%N then lazy (Some (RRepeat 0 None a, rest))
      else if (c =? 43)%N then lazy (Some (RRepeat 1 None a, rest))
      else if (c =? 63)%N then lazy (Some (RRepeat 0 (Some 1%nat) a, rest))
      else if (c =? 123)%N then
        match readBounds rest with
        | Some (lo, Some hi, rest') =>
            if (lo <=? hi)%nat then lazy (Some (RRepeat lo (Some hi) a, rest'))
            else None
        | Some (lo, None, rest') => lazy (Some (RRepeat lo None a, rest'))
        | None => Some (a, s)
        end
      else Some (a, s)
  | [] => Some (a, s)
  end.

Definition expectClose (r : option (regex * jsstring * nat))
  : option (regex * jsstring * nat) :=
  match r with
  | Some (a, c :: rest, g) => if (c =? 41)%N then Some (a, rest, g) else None
  | _ => None
  end.

Definition quantified (r : option (regex * jsstring)) (g : nat)
  : option (regex * jsstring * nat) :=
  match r with
  | Some (a, rest) =>
      match readQuantifier a rest with
      | Some (q, rest') => Some (q, rest', g)
      | None => None
      end
  | None => None
  end.

(** Disjunction, alternative and term; [g] is the number of the next
    capturing group. *)
Fixpoint readDisjunction (fuel : nat) (s : jsstring) (g : nat)
  : option (regex * jsstring * nat) :=
  match fuel with
  | O => None
  | S fuel' =>
      match readAlternative fuel' s g with
      | Some (a, c :: rest, g') =>
          if (c =? 124)%N then
            match readDisjunction fuel' rest g' with
            | Some (b, rest', g'') => Some (RAlt a b, rest', g'')
            | None => None
            end
          else Some (a, c :: rest, g')
      | other => other
      end
  end
with readAlternative (fuel : nat) (s : jsstring) (g : nat)
  : option (regex * jsstring * nat) :=
  match fuel with
  | O => None
  | S fuel' =>
      match s with
      | [] => Some (REmpty, s, g)
      | c :: _ =>
          if (c =? 124)%N || (c =? 41)%N then Some (REmpty, s, g)
          else
            match readTerm fuel' s g with
            | Some (t, rest, g') =>
                match readAlternative fuel' rest g' with
                | Some (u, rest', g'') => Some (rcat t u, rest', g'')
                | None => None
                end
            | None => None
            end
      end
  end
with readTerm (fuel : nat) (s : jsstring) (g : nat)
  : option (regex * jsstring * nat) :=
  match fuel with
  | O => None
  | S fuel' =>
      match s with
      | [] => None
      | c :: rest =>
          if (c =? 94)%N then Some (RBol, rest, g)
          else if (c =? 36)%N then Some (REol, rest, g)
          else if (c =? 46)%N then quantified (Some (RAny, rest)) g
          else if (c =? 91)%N then quantified (readClass rest) g
          else if (c =? 42)%N || (c =? 43)%N || (c =? 63)%N then None
          else if (c =? 40)%N then
            match rest with
            | q :: rest' =>
                if (q =? 63)%N then
                  if startsWith [58%N] rest' then
                    match expectClose (readDisjunction fuel' (tl rest') g) with
                    | Some (a, out, g') => quantified (Some (a, out)) g'
                    | None => None
                    end
                  else None
                else
                  match expectClose (readDisjunction fuel' rest (S g)) with
                  | Some (a, out, g') => quantified (Some (RGroup g a, out)) g'
                  | None => None
                  end
            | [] => None
            end
          else if (c =? 92)%N then
            match rest with
            | [] => None
            | e :: rest' =>
                if (e =? 98)%N then Some (RWordB, rest', g)
                else
                  match readClassEscape e with
                  | Some it => quantified (Some (RClass false [it], rest')) g
                  | None =>
                      match readCharEscape rest with
                      | Some (ch, out) => quantified (Some (RChar ch, out)) g
                      | None => None
                      end
                  end
            end
          else quantified (Some (RChar c, rest)) g
      end
  end.

(** The pattern a source text denotes. *)
Definition readPattern (source : jsstring) : option regex :=
  match readDisjunction (4 * length source + 4) source 1 with
  | Some (r, [], _) => Some r
  | _ => None
  end.

(** [new RegExp(source, 'i')]. *)
Definition compileIgnoreCase (source : jsstring) : option RegExp :=
  match readPattern source with
  | Some r => Some (re_i r)
  | None => None
  end.

End JS.

(** ** JavaScript numbers *)

(** A JavaScript number is an IEEE 754 double: a primitive [float], whose
    sum, difference, product and quotient round to the nearest double,
    ties to even, as the operators of JavaScript do. *)
Module Number.

(** [Math.abs(x)]. *)
Definition Math_abs (x : float) : float := PrimFloat.abs x.

(** [Math.max(a, b)]: [NaN] when an argument is [NaN], the larger
    argument otherwise, [+0] counting as larger than [-0]. *)
Definition Math_max (a b : float) : float :=
  if is_nan a || is_nan b then nan
  else if PrimFloat.ltb a b then b
  else if PrimFloat.ltb b a then a
  else if PrimFloat.Leibniz.eqb a neg_zero then b
  else a.

(** The number an integer stands for: the nearest double, the integer
    itself up to 2^53. *)
Definition ofZ (z : Z) : float := SF2Prim (binary_normalize prec emax z 0 false).

(** [Math.floor(x)] as an integer; nothing for [NaN] and the
    infinities. *)
Definition Math_floor (x : float) : option Z :=
  match Prim2SF x with
  | S754_zero _ => Some 0%Z
  | S754_finite s m e => Some (Z.shiftl (cond_Zopp s (Zpos m)) e)
  | S754_infinity _ | S754_nan => None
  end.

End Number.

(** ** utils/layoutDetection.ts *)

Module Layout.
Import JS Number.

Local Open Scope Q_scope.

Record DocumentSection := mkSection {
  startPercentage : Q;
  endPercentage : Q;
  content : jsstring;
  isCustomerInfoSection : bool;   (* optional in the source: absent is falsy *)
  isSignatureSection : bool
}.

Record FieldPlace := mkPlace { expectedLocation : float; tolerance : float }.

Record FormLayout := mkLayout {
  name : jsstring;
  description : jsstring;
  nameSection : FieldPlace;
  amountSection : FieldPlace;
  ibanSection : FieldPlace;
  serviceNumberSection : FieldPlace
}.

Definition standardLayout : FormLayout :=
  mkLayout (js "Standard Layout")
    (js "Standard form with name at top, IBAN in middle, amount in upper-middle")
    (mkPlace 15 15) (mkPlace 35 15) (mkPlace 50 20) (mkPlace 75 20).

Definition compactLayout : FormLayout :=
  mkLayout (js "Compact Layout")
    (js "Compact form with all fields close together in upper portion")
    (mkPlace 15 10) (mkPlace 25 10) (mkPlace 35 10) (mkPlace 45 10).

Definition extendedLayout : FormLayout :=
  mkLayout (js "Extended Layout")
    (js "Extended form with fields spread throughout document")
    (mkPlace 10 10) (mkPlace 40 20) (mkPlace 70 20) (mkPlace 85 15).

Definition reverseLayout : FormLayout :=
  mkLayout (js "Reverse Layout")
    (js "Fields in reverse order with amount at bottom")
    (mkPlace 15 15) (mkPlace 85 15) (mkPlace 65 15) (mkPlace 40 15).

Definition treasuryForm : FormLayout :=
  mkLayout (js "Treasury Form")
    (js "Standard Treasury form with customer info at top and signatures at bottom")
    (mkPlace 20 10) (mkPlace 40 15) (mkPlace 60 20) (mkPlace 25 10).

Definition scttrForm : FormLayout :=
  mkLayout (js "SCTTR Form")
    (js "Service Cancellation/Termination/Refund form with customer info at top section")
    (mkPlace 18 8) (mkPlace 35 12) (mkPlace 65 15) (mkPlace 18 8).

Definition tabularLayout : FormLayout :=
  mkLayout (js "Tabular Layout")
    (js "Form with fields arranged in a table-like structure")
    (mkPlace 22 12) (mkPlace 50 18) (mkPlace 70 20) (mkPlace 22 12).

Definition customLayout : FormLayout :=
  mkLayout (js "Custom Layout")
    (js "Custom layout detected from document patterns")
    (mkPlace 20 30) (mkPlace 40 30) (mkPlace 60 30) (mkPlace 80 30).

(** The predefined catalog, in source order. *)
Definition formLayouts : list FormLayout :=
  [standardLayout; compactLayout; extendedLayout; reverseLayout;
   treasuryForm; scttrForm; tabularLayout; customLayout].

(** What a call can do besides returning: writing a property of
    [undefined] raises a [TypeError]. *)
Inductive outcome (A : Type) :=
| Returns (a : A)
| ThrowsTypeError.
Arguments Returns {A} a.
Arguments ThrowsTypeError {A}.

Definition Qltb (a b : Q) : bool := negb (Qle_bool b a).

(** [(i / sectionCount) * 100]. *)
Definition percentageOf (i sectionCount : Z) : Q :=
  (inject_Z i / inject_Z sectionCount) * 100.

(** [Math.floor((i / sectionCount) * totalLines)], computed in doubles as
    the code does, and read as the index [slice] takes it for: in the
    loop, where [0 <= i <= sectionCount], the product lies between 0 and
    [totalLines]. *)
Definition lineOf (i sectionCount : Z) (totalLines : nat) : nat :=
  match Math_floor (PrimFloat.mul (PrimFloat.div (ofZ i) (ofZ sectionCount))
                                  (ofZ (Z.of_nat totalLines))) with
  | Some line => Z.to_nat line
  | None => 0%nat
  end.

(** The body of the loop that creates the sections. *)
Definition sectionAt (lines : list jsstring) (sectionCount : Z) (i : nat)
  : DocumentSection :=
  let totalLines := length lines in
  let startLine := lineOf (Z.of_nat i) sectionCount totalLines in
  let endLine := lineOf (Z.of_nat i + 1) sectionCount totalLines in
  {| startPercentage := percentageOf (Z.of_nat i) sectionCount;
     endPercentage := percentageOf (Z.of_nat i + 1) sectionCount;
     content := joinLines (slice lines startLine endLine);
     isCustomerInfoSection := false;
     isSignatureSection := false |}.

(** [for (let i = 0; i < sectionCount; i++)]. *)
Definition createSections (text : jsstring) (sectionCount : Z)
  : list DocumentSection :=
  map (sectionAt (splitLines text) sectionCount) (seq 0 (Z.to_nat sectionCount)).

(** The sections of an array with their indexes.  The loops of the two
    detectors walk a filtered copy and recover the index of an element with
    [sections.findIndex(s => s === section)]; the elements are distinct
    objects, so this is the index the element was filtered from. *)
Definition indexed (sections : list DocumentSection) : list (nat * DocumentSection) :=
  combine (seq 0 (length sections)) sections.

(** First element of [l] that satisfies one of the loop's tests; the
    result is its index in the whole array. *)
Definition firstIndex (hit : DocumentSection -> bool)
           (l : list (nat * DocumentSection)) : option nat :=
  match List.find (fun p => hit (snd p)) l with
  | Some p => Some (fst p)
  | None => None
  end.

Definition arabic (cs : list N) : regex := chars cs.

Definition customerKeywords : list RegExp :=
  [ re_i (lit "customer information");
    re_i (lit "customer info");
    re_i (lit "client information");
    re_i (arabic [0x628; 0x64a; 0x627; 0x646; 0x627; 0x62a; 0x20;
                  0x627; 0x644; 0x639; 0x645; 0x64a; 0x644]%N);
    re_i (arabic [0x645; 0x639; 0x644; 0x648; 0x645; 0x627; 0x62a; 0x20;
                  0x627; 0x644; 0x639; 0x645; 0x64a; 0x644]%N);
    re_i (lit "customer") ].

Definition customerHeaderPatterns : list RegExp :=
  [ re_i (lit "CUSTOMER INFORMATION");
    re_i (lit "customer information");
    re_i (lit "Customer Details");
    re_i (lit "CLIENT DETAILS") ].

(** [/name\s*[:\.\s]/i] *)
Definition nameLabel : RegExp :=
  re_i (rseq [lit "name"; star ws; RClass false [cch ":"; cch "."; CSpace]]).
(** [/MR\s*\./i] *)
Definition mrTitle : RegExp := re_i (rseq [lit "MR"; star ws; lit "."]).

Definition anyTest (res : list RegExp) (s : jsstring) : bool :=
  existsb (fun re => test re s) res.

Definition looksLikeCustomerFields (s : DocumentSection) : bool :=
  test nameLabel (content s)
  && (test mrTitle (content s) || test (re_i (lit "phone")) (content s)
      || test (re_i (lit "FTTH")) (content s)).

(** [detectCustomerInfoSection]: an index of the array, 0 by default. *)
Definition detectCustomerInfoSection (sections : list DocumentSection) : Z :=
  let topSections :=
    List.filter (fun p => Qle_bool (endPercentage (snd p)) 40) (indexed sections) in
  match firstIndex (fun s => anyTest customerHeaderPatterns (content s)) topSections with
  | Some i => Z.of_nat i
  | None =>
  match firstIndex (fun s => anyTest customerKeywords (content s)) topSections with
  | Some i => Z.of_nat i
  | None =>
  match firstIndex looksLikeCustomerFields topSections with
  | Some i => Z.of_nat i
  | None => 0%Z
  end end end.

Definition signatureKeywords : list RegExp :=
  [ re_i (lit "office use only");
    re_i (lit "signature");
    re_i (lit "sign");
    re_i (arabic [0x644; 0x644; 0x627; 0x633; 0x62a; 0x639; 0x645; 0x627; 0x644;
                  0x20; 0x627; 0x644; 0x631; 0x633; 0x645; 0x64a]%N);
    re_i (arabic [0x62a; 0x648; 0x642; 0x64a; 0x639]%N);
    re_i (lit "office");
    re_i (lit "OFFICE USE ONLY");
    re_i (rseq [lit "Regional"; plus ws; lit "Sales"; plus ws; lit "Manager"]);
    re_i (rseq [lit "Back"; plus ws; lit "Office"; plus ws; lit "Manager"]);
    re_i (rseq [lit "Sales"; plus ws; lit "Director"]);
    re_i (rseq [lit "Customer"; plus ws; lit "Operation"]);
    re_i (rseq [lit "Customer"; plus ws; lit "Signature"]);
    re_i (rseq [lit "Technical"; plus ws; lit "Report"]) ].

Definition looksLikeSignatureLines (s : DocumentSection) : bool :=
  let c := content s in
  (test (re_i (lit "Manager")) c && test (re_i (lit "Name")) c)
  || test (re_i (lit "Director")) c
  || test (re_i (lit "Signature:")) c
  || (test (re_i (lit "Date:")) c && test (re_i (lit "Sign")) c).

(** [detectSignatureSection]: an index of the array, or -1. *)
Definition detectSignatureSection (sections : list DocumentSection) : Z :=
  let bottomSections :=
    List.filter (fun p => Qle_bool 50 (startPercentage (snd p))) (indexed sections) in
  match firstIndex (fun s => anyTest signatureKeywords (content s)) bottomSections with
  | Some i => Z.of_nat i
  | None =>
  match firstIndex looksLikeSignatureLines bottomSections with
  | Some i => Z.of_nat i
  | None => (-1)%Z
  end end.

Definition markCustomerInfo (s : DocumentSection) : DocumentSection :=
  mkSection (startPercentage s) (endPercentage s) (content s) true (isSignatureSection s).

Definition markSignature (s : DocumentSection) : DocumentSection :=
  mkSection (startPercentage s) (endPercentage s) (content s) (isCustomerInfoSection s) true.

(** [sectionsArray[i].flag = true]: a [TypeError] when the array has no
    element [i]. *)
Definition setFlag (mark : DocumentSection -> DocumentSection)
           (sections : list DocumentSection) (i : nat)
  : outcome (list DocumentSection) :=
  match sections !! i with
  | Some s => Returns (<[i := mark s]> sections)
  | None => ThrowsTypeError
  end.

Definition divideDocumentIntoSections (text : jsstring) (sectionCount : Z)
  : outcome (list DocumentSection) :=
  let sectionsArray := createSections text sectionCount in
  let customerInfoIndex := detectCustomerInfoSection sectionsArray in
  match (if (0 <=? customerInfoIndex)%Z
         then setFlag markCustomerInfo sectionsArray (Z.to_nat customerInfoIndex)
         else Returns sectionsArray) with
  | ThrowsTypeError => ThrowsTypeError
  | Returns sectionsArray =>
      let signatureIndex := detectSignatureSection sectionsArray in
      if (0 <=? signatureIndex)%Z
      then setFlag markSignature sectionsArray (Z.to_nat signatureIndex)
      else Returns sectionsArray
  end.

(** The call with the default [sectionCount = 10]. *)
Definition divideDocument (text : jsstring) : outcome (list DocumentSection) :=
  divideDocumentIntoSections text 10.

Inductive SectionType := customerInfo | top | middle | signature.

(** The result of [findPatternInSections]; [match] is [null] and
    [sectionType] absent when they are [None]. *)
Record SearchResult := mkSearch {
  position : Q;
  matched : option jsstring;
  confidence : Z;
  sectionType : option SectionType
}.

Definition RegExp_eq_dec (a b : RegExp) : {a = b} + {a <> b}.
Proof. repeat decide equality. Defined.

(** [patterns.indexOf(pattern)]: the first index holding this very
    pattern, -1 when there is none. *)
Fixpoint indexOfPattern (patterns : list RegExp) (pattern : RegExp) : Z :=
  match patterns with
  | [] => (-1)%Z
  | p :: rest =>
      if RegExp_eq_dec p pattern then 0%Z
      else match indexOfPattern rest pattern with
           | Zneg _ => (-1)%Z
           | i => (i + 1)%Z
           end
  end.

(** [(section.startPercentage + section.endPercentage) / 2]. *)
Definition midpoint (s : DocumentSection) : Q :=
  (startPercentage s + endPercentage s) / 2.

(** [for (const pattern of patterns)] over one text: the first pattern
    whose first group is a non-empty string ends the search.  [todo] is the
    part of [patterns] not tried yet. *)
Fixpoint tryPatterns (patterns todo : list RegExp) (text : jsstring) (pos : Q)
         (base step : Z) (ty : option SectionType) : option SearchResult :=
  match todo with
  | [] => None
  | pattern :: rest =>
      match capture 1 (str_match text pattern) with
      | Some m =>
          Some (mkSearch pos (Some m)
                  (base - indexOfPattern patterns pattern * step)%Z ty)
      | None => tryPatterns patterns rest text pos base step ty
      end
  end.

(** [for (const section of band)] around the loop over the patterns. *)
Fixpoint trySections (band : list DocumentSection) (patterns : list RegExp)
         (base step : Z) (ty : option SectionType) : option SearchResult :=
  match band with
  | [] => None
  | section :: rest =>
      match tryPatterns patterns patterns (content section) (midpoint section)
                        base step ty with
      | Some r => Some r
      | None => trySections rest patterns base step ty
      end
  end.

Definition isTop (s : DocumentSection) : bool :=
  Qle_bool (endPercentage s) 30 && negb (isSignatureSection s).

Definition isMiddle (s : DocumentSection) : bool :=
  Qltb 30 (startPercentage s) && Qltb (endPercentage s) 70
  && negb (isSignatureSection s).

Definition findPatternInSections (sections : list DocumentSection)
           (patterns : list RegExp) : SearchResult :=
  let customerInfoSection := List.find isCustomerInfoSection sections in
  match (match customerInfoSection with
         | Some s => tryPatterns patterns patterns (content s) (midpoint s)
                                 95 5 (Some customerInfo)
         | None => None
         end) with
  | Some r => r
  | None =>
  let topSections := List.filter isTop sections in
  match trySections topSections patterns 90 5 (Some top) with
  | Some r => r
  | None =>
  let middleSections := List.filter isMiddle sections in
  match trySections middleSections patterns 80 5 (Some middle) with
  | Some r => r
  | None =>
  let nonSignatureSections :=
    List.filter (fun s => negb (isSignatureSection s)) sections in
  match trySections nonSignatureSections patterns 75 7 None with
  | Some r => r
  | None =>
  let signatureSections := List.filter isSignatureSection sections in
  match trySections signatureSections patterns 30 5 (Some signature) with
  | Some r => r
  | None =>
  let combinedContent := joinLines (map content sections) in
  match tryPatterns patterns patterns combinedContent 50 45 5 None with
  | Some r => r
  | None => mkSearch (-1) None 0 None
  end end end end end end.

(** [25 * Math.max(0, 1 - Math.abs(pos - expected) / tolerance)]. *)
Definition fieldScore (pos : float) (place : FieldPlace) : float :=
  let deviation := (Math_abs (pos - expectedLocation place) / tolerance place)%float in
  (25 * Math_max 0 (1 - deviation))%float.

Definition calculateLayoutMatchScore
           (namePosition amountPosition ibanPosition serviceNumberPosition : float)
           (layout : FormLayout) : float :=
  if (namePosition <? 0)%float || (amountPosition <? 0)%float
     || (ibanPosition <? 0)%float || (serviceNumberPosition <? 0)%float
  then 0%float
  else
    let nameScore := fieldScore namePosition (nameSection layout) in
    let amountScore := fieldScore amountPosition (amountSection layout) in
    let ibanScore := fieldScore ibanPosition (ibanSection layout) in
    let serviceScore := fieldScore serviceNumberPosition (serviceNumberSection layout) in
    (nameScore + amountScore + ibanScore + serviceScore)%float.

Record Detection := mkDetection { layout : FormLayout; layoutConfidence : float }.

(** The loop of [detectFormLayout] over a catalog, from the state
    [(bestMatch, highestScore)]. *)
Definition detectStep (np ap ip sp : float) (st : FormLayout * float) (l : FormLayout)
  : FormLayout * float :=
  let score := calculateLayoutMatchScore np ap ip sp l in
  if (snd st <? score)%float then (l, score) else st.

Definition detectIn (catalog : list FormLayout) (first : FormLayout)
           (np ap ip sp : float) : Detection :=
  let '(bestMatch, highestScore) :=
    fold_left (detectStep np ap ip sp) catalog (first, 0%float) in
  mkDetection bestMatch highestScore.

Definition detectFormLayout
           (namePosition amountPosition ibanPosition serviceNumberPosition : float)
  : Detection :=
  detectIn formLayouts (hd standardLayout formLayouts)
           namePosition amountPosition ibanPosition serviceNumberPosition.

End Layout.

(** ** services/TrainingService.ts *)

Module Training.
Import JS.

Inductive FieldType :=
| customerName | refundAmount | ibanNumber | customerServiceNumber.

Definition FieldType_eqb (a b : FieldType) : bool :=
  match a, b with
  | customerName, customerName | refundAmount, refundAmount
  | ibanNumber, ibanNumber | customerServiceNumber, customerServiceNumber => true
  | _, _ => false
  end.

(** The string a field type is at run time. *)
Definition fieldTypeName (f : FieldType) : jsstring :=
  match f with
  | customerName => js "customerName"
  | refundAmount => js "refundAmount"
  | ibanNumber => js "ibanNumber"
  | customerServiceNumber => js "customerServiceNumber"
  end.

Definition allFieldTypes : list FieldType :=
  [customerName; refundAmount; ibanNumber; customerServiceNumber].

Record TrainingExample := mkExample {
  te_fieldType : FieldType;
  te_pattern : jsstring;
  te_value : jsstring;
  te_context : option jsstring;
  te_confidence : Z;
  te_timestamp : jsstring
}.

Record ExtractionPattern := mkPattern {
  fieldType : FieldType;
  patternRegex : jsstring;
  priority : Z;
  successRate : Q;
  usageCount : Z;
  timestamp : jsstring
}.

Record CorrectionRecord := mkCorrection {
  cr_fieldType : FieldType;
  originalValue : jsstring;
  correctedValue : jsstring;
  documentId : jsstring;
  cr_confidence : Z;
  cr_timestamp : jsstring
}.

(** A table with an auto-incremented primary key ([++id]): the rows in key
    order and the next key of the generator.  The [id] of a stored object
    is the key of its row. *)
Record Table (A : Type) := mkTable { rows : list (nat * A); nextKey : nat }.
Arguments mkTable {A} rows nextKey.
Arguments rows {A} t.
Arguments nextKey {A} t.

Definition emptyTable {A} : Table A := mkTable [] 1.

(** [table.add(obj)]. *)
Definition tableAdd {A} (t : Table A) (a : A) : Table A :=
  mkTable (rows t ++ [(nextKey t, a)]) (S (nextKey t)).

(** [table.bulkAdd(objs)]. *)
Definition tableBulkAdd {A} (t : Table A) (l : list A) : Table A :=
  fold_left tableAdd l t.

(** [table.count()]. *)
Definition tableCount {A} (t : Table A) : nat := length (rows t).

(** [table.where(field).equals(v)]: the rows that pass, in key order. *)
Definition tableWhere {A} (p : A -> bool) (t : Table A) : list (nat * A) :=
  List.filter (fun r => p (snd r)) (rows t).

(** [table.update(key, changes)]. *)
Definition tableUpdate {A} (t : Table A) (key : nat) (change : A -> A) : Table A :=
  mkTable (map (fun r => if Nat.eqb (fst r) key then (fst r, change (snd r)) else r)
               (rows t))
          (nextKey t).

Record TrainingDatabase := mkDb {
  trainingExamples : Table TrainingExample;
  extractionPatterns : Table ExtractionPattern;
  correctionHistory : Table CorrectionRecord
}.

(** The singleton service.  [fuseSearch] keeps the examples the fuzzy
    index was built from; [ticks] counts the readings of the clock. *)
Record TrainingService := mkService {
  initialized : bool;
  fuseSearch : option (list TrainingExample);
  patternRegistry : gmap jsstring (list RegExp);
  db : TrainingDatabase;
  ticks : nat
}.

(** [learningRate = 0.1]. *)
Definition learningRate : Q := 1 # 10.

(** The service as the module creates it. *)
Definition newService (database : TrainingDatabase) : TrainingService :=
  mkService false None ∅ database 0.

(** [getPatterns(fieldType)]. *)
Definition getPatterns (svc : TrainingService) (fieldType : jsstring) : list RegExp :=
  if negb (initialized svc) then []
  else match patternRegistry svc !! fieldType with
       | Some ps => ps
       | None => []
       end.

Definition setDb (svc : TrainingService) (d : TrainingDatabase) : TrainingService :=
  mkService (initialized svc) (fuseSearch svc) (patternRegistry svc) d (ticks svc).

Definition setPatterns (d : TrainingDatabase) (t : Table ExtractionPattern)
  : TrainingDatabase :=
  mkDb (trainingExamples d) t (correctionHistory d).

Definition setExamples (d : TrainingDatabase) (t : Table TrainingExample)
  : TrainingDatabase :=
  mkDb t (extractionPatterns d) (correctionHistory d).

Definition setCorrections (d : TrainingDatabase) (t : Table CorrectionRecord)
  : TrainingDatabase :=
  mkDb (trainingExamples d) (extractionPatterns d) t.

(** The stored patterns of a service. *)
Definition storedPatterns (svc : TrainingService) : list (nat * ExtractionPattern) :=
  rows (extractionPatterns (db svc)).

(** Insertion into a list sorted by priority, after the rows of equal
    priority: the sort is stable. *)
Fixpoint insertByPriority (r : nat * ExtractionPattern)
         (l : list (nat * ExtractionPattern)) : list (nat * ExtractionPattern) :=
  match l with
  | [] => [r]
  | x :: rest =>
      if (priority (snd r) <? priority (snd x))%Z then r :: x :: rest
      else x :: insertByPriority r rest
  end.

(** [orderBy('priority')] and [sort((a, b) => a.priority - b.priority)]. *)
Definition sortByPriority (l : list (nat * ExtractionPattern))
  : list (nat * ExtractionPattern) :=
  fold_right insertByPriority [] l.

(** The characters [/[-\/\\^$*+?.()|[\]{}]/g] selects. *)
Definition isRegExpSpecial (c : N) : bool :=
  existsb (N.eqb c) (js "-/\^$*+?.()|[]{}").

(** [s.replace(/[-\/\\^$*+?.()|[\]{}]/g, '\\$&')]. *)
Definition escapeRegExp (s : jsstring) : jsstring :=
  flat_map (fun c => if isRegExpSpecial c then [92%N; c] else [c]) s.

(** The currency alternatives [ر.س.] and [﷼] of the amount pattern. *)
Definition rialAbbrev : jsstring := [0x631; 0x2e; 0x633; 0x2e]%N.
Definition rialSign : jsstring := [0xfdfc]%N.

(** The [switch] of [learnNewPattern]. *)
Definition synthesize (f : FieldType) (patternWord : jsstring) : jsstring :=
  match f with
  | customerName => patternWord ++ js "\s*([A-Za-z\s.'-]+)"
  | refundAmount =>
      patternWord ++ js "\s*(?:SAR|SR|" ++ rialAbbrev ++ js "|" ++ rialSign
                  ++ js ")?\s*([0-9,.]+)"
  | ibanNumber => patternWord ++ js "\s*(SA\d{22})"
  | customerServiceNumber => patternWord ++ js "\s*(FTTH\d+)"
  end.

(** What one line of the context contributes: the pattern built from the
    text before the value, when the line holds the value and that text is
    not blank. *)
Definition candidatePattern (f : FieldType) (correctValue line : jsstring)
  : option jsstring :=
  if includes (toLowerCase line) (toLowerCase correctValue) then
    let beforeValue :=
      substringTo line (indexOf (toLowerCase line) (toLowerCase correctValue)) in
    match trim beforeValue with
    | [] => None
    | w => Some (synthesize f (escapeRegExp w))
    end
  else None.

Section Service.

(** [new RegExp(source, 'i')]: [None] when the source is not a pattern (a
    [SyntaxError]). *)
Variable RegExp_new : jsstring -> option RegExp.

(** [new Date().toISOString()] at the n-th reading of the clock, and at the
    time the module was loaded. *)
Variable clock : nat -> jsstring.
Variable loadTime : jsstring.

Definition readClock (svc : TrainingService) : jsstring * TrainingService :=
  (clock (ticks svc),
   mkService (initialized svc) (fuseSearch svc) (patternRegistry svc) (db svc)
             (S (ticks svc))).

Definition initialTrainingData : list TrainingExample :=
  [ mkExample customerName (js "customer name:") (js "John Smith") None 90 loadTime;
    mkExample refundAmount (js "refund amount:") (js "500.00") None 95 loadTime;
    mkExample ibanNumber (js "iban:") (js "SA0123456789012345678901") None 95 loadTime;
    mkExample customerServiceNumber (js "service number:") (js "FTTH123456") None 90
              loadTime ].

Definition initialExtractionPatterns : list ExtractionPattern :=
  [ mkPattern customerName (js "customer\s*name\s*:\s*([A-Za-z\s.'-]+)") 1 95 10 loadTime;
    mkPattern customerName (js "name\s*:\s*([A-Za-z\s.'-]+)") 2 90 15 loadTime;
    mkPattern refundAmount
      (js "refund\s*amount\s*:\s*(?:SAR|SR|" ++ rialAbbrev ++ js "|" ++ rialSign
          ++ js ")?\s*([0-9,.]+)") 1 92 12 loadTime;
    mkPattern ibanNumber (js "iban\s*:\s*(SA\d{22})") 1 98 14 loadTime;
    mkPattern customerServiceNumber (js "service\s*number\s*:\s*(FTTH\d+)") 1 94 8
              loadTime ].

(** The patterns of one field type compiled for the registry: those whose
    source does not compile are left out. *)
Definition compileAll (l : list (nat * ExtractionPattern)) : list RegExp :=
  omap (fun r => RegExp_new (patternRegex (snd r))) l.

Definition loadPatternRegistry (svc : TrainingService) : TrainingService :=
  let patterns := sortByPriority (rows (extractionPatterns (db svc))) in
  let registry :=
    fold_left
      (fun (reg : gmap jsstring (list RegExp)) f =>
         let fieldPatterns :=
           sortByPriority
             (List.filter (fun r => FieldType_eqb (fieldType (snd r)) f) patterns) in
         <[fieldTypeName f := compileAll fieldPatterns]> reg)
      allFieldTypes ∅ in
  mkService (initialized svc) (fuseSearch svc) registry (db svc) (ticks svc).

Definition initializeFuseSearch (svc : TrainingService) : TrainingService :=
  mkService (initialized svc)
            (Some (map snd (rows (trainingExamples (db svc)))))
            (patternRegistry svc) (db svc) (ticks svc).

Definition initialize (svc : TrainingService) : TrainingService :=
  if initialized svc then svc
  else
    let exampleCount := tableCount (trainingExamples (db svc)) in
    let patternCount := tableCount (extractionPatterns (db svc)) in
    let svc :=
      if Nat.eqb exampleCount 0
      then setDb svc (setExamples (db svc)
                        (tableBulkAdd (trainingExamples (db svc)) initialTrainingData))
      else svc in
    let svc :=
      if Nat.eqb patternCount 0
      then setDb svc (setPatterns (db svc)
                        (tableBulkAdd (extractionPatterns (db svc))
                                      initialExtractionPatterns))
      else svc in
    let svc := initializeFuseSearch svc in
    let svc := loadPatternRegistry svc in
    mkService true (fuseSearch svc) (patternRegistry svc) (db svc) (ticks svc).

(** The body of the loop of [learnNewPattern] for one line. *)
Definition learnFromLine (f : FieldType) (correctValue : jsstring)
           (svc : TrainingService) (line : jsstring) : TrainingService :=
  match candidatePattern f correctValue line with
  | None => svc
  | Some regexSource =>
      let existingPatterns :=
        length (tableWhere (fun p => jseqb (patternRegex p) regexSource)
                           (extractionPatterns (db svc))) in
      if Nat.eqb existingPatterns 0 then
        let '(now, svc) := readClock svc in
        let svc :=
          setDb svc (setPatterns (db svc)
                       (tableAdd (extractionPatterns (db svc))
                                 (mkPattern f regexSource 5 60 1 now))) in
        loadPatternRegistry svc
      else svc
  end.

Definition learnNewPattern (f : FieldType) (context correctValue : jsstring)
           (svc : TrainingService) : TrainingService :=
  fold_left (learnFromLine f correctValue) (splitLines context) svc.

(** [if (context)]: a context that is absent or the empty string is
    skipped. *)
Definition learnFromContext (f : FieldType) (context : option jsstring)
           (value : jsstring) (svc : TrainingService) : TrainingService :=
  match truthy context with
  | Some c => learnNewPattern f c value svc
  | None => svc
  end.

(** [addTrainingExample(example)]: the new key and the new state. *)
Definition addTrainingExample (f : FieldType) (pattern value : jsstring)
           (context : option jsstring) (conf : Z) (svc : TrainingService)
  : nat * TrainingService :=
  let svc := initialize svc in
  let '(now, svc) := readClock svc in
  let id := nextKey (trainingExamples (db svc)) in
  let svc :=
    setDb svc (setExamples (db svc)
                 (tableAdd (trainingExamples (db svc))
                           (mkExample f pattern value context conf now))) in
  let svc := initializeFuseSearch svc in
  (id, learnFromContext f context value svc).

(** The new success rate of a pattern that matched the original value. *)
Definition newSuccessRate (rate : Q) (original corrected : jsstring) : Q :=
  rate * (1 - learningRate)
  + (if jseqb original corrected then 100 else 0) * learningRate.

(** Whether the source of a stored pattern compiles and matches [value]. *)
Definition patternMatches (p : ExtractionPattern) (value : jsstring) : bool :=
  match RegExp_new (patternRegex p) with
  | Some regex => match str_match value regex with Some _ => true | None => false end
  | None => false
  end.

(** The body of the loop of [updatePatternSuccessRates] for one pattern of
    the snapshot. *)
Definition updateOne (original corrected : jsstring) (svc : TrainingService)
           (r : nat * ExtractionPattern) : TrainingService :=
  let pattern := snd r in
  if patternMatches pattern original then
    let '(now, svc) := readClock svc in
    setDb svc
      (setPatterns (db svc)
         (tableUpdate (extractionPatterns (db svc)) (fst r)
            (fun p => mkPattern (fieldType p) (patternRegex p) (priority p)
                        (newSuccessRate (successRate pattern) original corrected)
                        (usageCount pattern + 1) now)))
  else svc.

Definition updatePatternSuccessRates (f : FieldType)
           (original corrected : jsstring) (svc : TrainingService)
  : TrainingService :=
  let patterns :=
    tableWhere (fun p => FieldType_eqb (fieldType p) f)
               (extractionPatterns (db svc)) in
  loadPatternRegistry (fold_left (updateOne original corrected) patterns svc).

(** The steps of [recordCorrection] that come before the update of the
    success rates: the correction is stored, the corrected value becomes a
    training example and the context is learned from. *)
Definition storeCorrection (f : FieldType) (original corrected docId : jsstring)
           (context : option jsstring) (svc : TrainingService) : TrainingService :=
  let svc := initialize svc in
  let '(now, svc) := readClock svc in
  let svc :=
    setDb svc (setCorrections (db svc)
                 (tableAdd (correctionHistory (db svc))
                           (mkCorrection f original corrected docId 100 now))) in
  let svc := snd (addTrainingExample f (fieldTypeName f) corrected context 90 svc) in
  learnFromContext f context corrected svc.

Definition recordCorrection (f : FieldType) (original corrected docId : jsstring)
           (context : option jsstring) (svc : TrainingService) : TrainingService :=
  let svc := storeCorrection f original corrected docId context svc in
  updatePatternSuccessRates f original corrected svc.

End Service.

End Training.

(** ** utils/extractors.ts *)

Module Extractors.
Import JS Layout.

Local Open Scope Z_scope.

Record FieldResult := mkField {
  value : jsstring;
  fconfidence : Z;
  fposition : Q
}.

(** [[A-Za-z\s.'-]] *)
Definition nameChars : regex :=
  RClass false [rng "A" "Z"; rng "a" "z"; CSpace; cch "."; cch "'"; cch "-"].
(** [[:\.\s]] *)
Definition labelEnd : regex := RClass false [cch ":"; cch "."; CSpace].
(** [(?:Al|El)] *)
Definition alEl : regex := RAlt (lit "Al") (lit "El").
Definition upperAZ : regex := RClass false [rng "A" "Z"].
Definition lowerAZ : regex := RClass false [rng "a" "z"].
(** [[0-9,.]] and [[0-9]] *)
Definition amountChars : regex := RClass false [rng "0" "9"; cch ","; cch "."].
Definition digit09 : regex := RClass false [rng "0" "9"].
(** [(?:SAR|SR|ر.س.|﷼)]: the dots of the third alternative are wildcards. *)
Definition currency : regex :=
  ralt [lit "SAR"; lit "SR";
        rseq [RChar 0x631%N; RAny; RChar 0x633%N; RAny]; RChar 0xfdfc%N].

(** [label\s*:\s*([A-Za-z\s.'-]+)] with the words of the label separated by
    [\s*]. *)
Definition labelled (words : list string) : RegExp :=
  re_i (rseq (flat_map (fun w => [lit w; star ws]) words
              ++ [lit ":"; star ws; RGroup 1 (plus nameChars)])).

(** The built-in patterns of [extractCustomerName], in source order. *)
Definition defaultNamePatterns : list RegExp :=
  [ re_i (rseq [lit "customer information"; rep 0 50 anyChar; lit "name"; star ws;
                star labelEnd; RGroup 1 (plus nameChars)]);
    re_i (rseq [lit "MR"; star ws; lit "."; star ws; RGroup 1 (plus nameChars)]);
    re_i (rseq [opt (RGroup 1 (rseq [lit "MR"; star ws; lit "."])); star ws;
                RGroup 2 (plus nameChars); plus ws; alEl; plus ws;
                RGroup 3 (plus nameChars)]);
    re_i (rseq [lit "customer"; rep 0 50 anyChar; lit "name"; star ws;
                star labelEnd; RGroup 1 (plus nameChars)]);
    labelled ["customer"; "name"]%string;
    labelled ["name"]%string;
    labelled ["client"]%string;
    labelled ["applicant"]%string;
    labelled ["recipient"]%string;
    labelled ["account"; "holder"]%string ].

(** [/\b(MR\.|DR\.|MS\.|MRS\.)\s*([A-Za-z\s.'-]+(?:\s+(?:Al|El)\s+[A-Za-z\s.'-]+)?)\b/i] *)
Definition titlePattern : RegExp :=
  re_i (rseq [RWordB;
              RGroup 1 (ralt [lit "MR."; lit "DR."; lit "MS."; lit "MRS."]);
              star ws;
              RGroup 2 (rseq [plus nameChars;
                              opt (rseq [plus ws; alEl; plus ws; plus nameChars])]);
              RWordB]).

(** The pattern [name], any run of white space and Arabic letters
    (U+0600 to U+06FF), [\s*] one of [:], [.] or white space, [\s*], and as
    group 1 one or more rounds of [[A-Za-z\s.'-]+\s*]; flag [i]. *)
Definition treasuryNamePattern : RegExp :=
  re_i (rseq [lit "name";
              star (RClass false [CSpace; CRange 0x600 0x6ff]);
              star ws; labelEnd; star ws;
              RGroup 1 (plus (rseq [plus nameChars; star ws]))]).

(** [/^[A-Z][a-z]+(\s[A-Z][a-z]+)+$/] *)
Definition capitalizedWords : RegExp :=
  re_ (rseq [RBol; upperAZ; plus lowerAZ;
             plus (RGroup 1 (rseq [ws; upperAZ; plus lowerAZ])); REol]).

(** [/\b(Al|El)\b/i] *)
Definition alElWord : RegExp := re_i (rseq [RWordB; RGroup 1 alEl; RWordB]).

(** [/([A-Z][a-z]+(?:\s[A-Z][a-z]+)+(?:\s(?:Al|El)\s[A-Z][a-z]+)?)/] *)
Definition nameRegex : RegExp :=
  re_ (RGroup 1 (rseq [upperAZ; plus lowerAZ;
                       plus (rseq [ws; upperAZ; plus lowerAZ]);
                       opt (rseq [ws; alEl; ws; upperAZ; plus lowerAZ])])).

Definition hasNameField (s : DocumentSection) : bool :=
  test nameLabel (content s) || test mrTitle (content s)
  || test (re_i (lit "customer")) (content s).

(** First pattern of the list with a non-empty first group on [text]. *)
Fixpoint firstCapture (patterns : list RegExp) (text : jsstring) : option jsstring :=
  match patterns with
  | [] => None
  | pattern :: rest =>
      match capture 1 (str_match text pattern) with
      | Some m => Some m
      | None => firstCapture rest text
      end
  end.

(** The loops over the top sections: the title pattern, then the general
    patterns, section by section. *)
Fixpoint scanTop (band : list DocumentSection) (patterns : list RegExp)
         (titleConf generalConf : Z) : option FieldResult :=
  match band with
  | [] => None
  | section :: rest =>
      match capture 2 (str_match (content section) titlePattern) with
      | Some t => Some (mkField (trim t) titleConf (midpoint section))
      | None =>
          match firstCapture patterns (content section) with
          | Some m => Some (mkField (trim m) generalConf (midpoint section))
          | None => scanTop rest patterns titleConf generalConf
          end
      end
  end.

(** The checks made on the customer information section. *)
Definition fromCustomerInfo (s : DocumentSection) (patterns : list RegExp)
  : option FieldResult :=
  match capture 1 (str_match (content s) treasuryNamePattern) with
  | Some t => Some (mkField (trim t) 98 (midpoint s))
  | None =>
      match capture 2 (str_match (content s) titlePattern) with
      | Some t => Some (mkField (trim t) 98 (midpoint s))
      | None =>
          match firstCapture patterns (content s) with
          | Some m => Some (mkField (trim m) 95 (midpoint s))
          | None => None
          end
      end
  end.

(** The adjustments made to a match of [findPatternInSections]. *)
Definition adjustNameConfidence (result : SearchResult) (name : jsstring) : Z :=
  let confidence := confidence result in
  let confidence :=
    match sectionType result with
    | Some customerInfo => confidence + 15
    | Some top => confidence + 10
    | Some signature => confidence - 50
    | _ => confidence
    end in
  let confidence :=
    if (3 <? length name)%nat && (length name <? 50)%nat
    then confidence + 5 else confidence in
  let confidence :=
    if test capitalizedWords name then confidence + 5 else confidence in
  let confidence := if test alElWord name then confidence + 8 else confidence in
  let confidence :=
    match sectionType result with
    | Some signature => Z.min confidence 40
    | _ => confidence
    end in
  Z.min confidence 100.

(** The last fallback: anything shaped like a name outside the signature
    sections. *)
Fixpoint nameFallback (band : list DocumentSection) : option FieldResult :=
  match band with
  | [] => None
  | section :: rest =>
      match capture 1 (str_match (content section) nameRegex) with
      | Some possibleName =>
          let confidence :=
            if isCustomerInfoSection section then 80
            else if Qle_bool (endPercentage section) 30 then 70 else 60 in
          Some (mkField (trim possibleName) confidence (midpoint section))
      | None => nameFallback rest
      end
  end.

Definition notFound (v : string) : FieldResult := mkField (js v) 0 (-1)%Q.

Definition extractCustomerName (svc : Training.TrainingService)
           (sections : list DocumentSection) : FieldResult :=
  let trainedPatterns := Training.getPatterns svc (js "customerName") in
  let namePatterns := trainedPatterns ++ defaultNamePatterns in
  let customerInfoSection := List.find isCustomerInfoSection sections in
  let topSections := List.filter isTop sections in
  let topSectionsWithNameField := List.filter hasNameField topSections in
  match (match customerInfoSection with
         | Some s => fromCustomerInfo s namePatterns
         | None => None
         end) with
  | Some r => r
  | None =>
  match scanTop topSectionsWithNameField namePatterns 95 90 with
  | Some r => r
  | None =>
  match scanTop topSections namePatterns 85 80 with
  | Some r => r
  | None =>
  let result := findPatternInSections sections namePatterns in
  match truthy (matched result) with
  | Some m =>
      let name := trim m in
      mkField name (adjustNameConfidence result name) (position result)
  | None =>
  let nonSignatureSections :=
    List.filter (fun s => negb (isSignatureSection s)) sections in
  match nameFallback nonSignatureSections with
  | Some r => r
  | None => notFound "Unknown"
  end end end end end.

(** [sections.find(s => s.content.includes(v))] followed by a test of the
    section found for one of the keywords, in lower case. *)
Definition sectionMentions (sections : list DocumentSection) (v : jsstring)
           (keywords : list string) : bool :=
  match List.find (fun s => includes (content s) v) sections with
  | Some s => existsb (fun k => includes (toLowerCase (content s)) (js k)) keywords
  | None => false
  end.

Definition amountPattern (labelWords : list string) : RegExp :=
  re_i (rseq (flat_map (fun w => [lit w; star ws]) labelWords
              ++ [lit ":"; star ws; opt currency; star ws;
                  RGroup 1 (plus amountChars)])).

Definition defaultAmountPatterns : list RegExp :=
  [ amountPattern ["refund"; "amount"]%string;
    amountPattern ["amount"]%string;
    amountPattern ["total"]%string;
    amountPattern ["payment"; "amount"]%string;
    re_i (rseq [currency; star ws; RGroup 1 (plus amountChars)]);
    re_i (rseq [RGroup 1 (plus amountChars); star ws; currency]) ].

(** [/^[0-9]+(\.[0-9]{2})?$/] and [/([0-9]+(\.[0-9]{2})?)/] *)
Definition canonicalAmount : RegExp :=
  re_ (rseq [RBol; plus digit09;
             opt (RGroup 1 (rseq [lit "."; rep 2 2 digit09])); REol]).
Definition bareNumber : RegExp :=
  re_ (RGroup 1 (rseq [plus digit09;
                       opt (RGroup 2 (rseq [lit "."; rep 2 2 digit09]))])).

Definition moneyWords : list string :=
  ["amount"; "payment"; "total"; "sum"; "sar"; "refund"]%string.

Fixpoint amountFallback (band : list DocumentSection) : option FieldResult :=
  match band with
  | [] => None
  | section :: rest =>
      match capture 1 (str_match (content section) bareNumber) with
      | Some possibleAmount =>
          let hasCurrencyContexts :=
            existsb (fun k => includes (toLowerCase (content section)) (js k))
                    moneyWords in
          Some (mkField possibleAmount (if hasCurrencyContexts then 60 else 40)
                        (midpoint section))
      | None => amountFallback rest
      end
  end.

Definition extractRefundAmount (svc : Training.TrainingService)
           (sections : list DocumentSection) : FieldResult :=
  let trainedPatterns := Training.getPatterns svc (js "refundAmount") in
  let amountPatterns := trainedPatterns ++ defaultAmountPatterns in
  let result := findPatternInSections sections amountPatterns in
  match truthy (matched result) with
  | Some m =>
      let amount := trim m in
      let confidence := confidence result in
      let confidence :=
        if sectionMentions sections amount ["refund"%string]
        then confidence + 5 else confidence in
      let confidence :=
        if test canonicalAmount amount then confidence + 5 else confidence in
      mkField amount (Z.min confidence 100) (position result)
  | None =>
      match amountFallback sections with
      | Some r => r
      | None => notFound "0.00"
      end
  end.

(** [SA\d{22}] *)
Definition saudiIban : regex := rseq [lit "SA"; rep 22 22 digit].

Definition ibanPattern (labelWords : list string) : RegExp :=
  re_i (rseq (flat_map (fun w => [lit w; star ws]) labelWords
              ++ [lit ":"; star ws; RGroup 1 saudiIban])).

Definition defaultIbanPatterns : list RegExp :=
  [ ibanPattern ["iban"]%string;
    ibanPattern ["iban"; "number"]%string;
    ibanPattern ["bank"; "account"]%string;
    ibanPattern ["account"; "number"]%string;
    re_i (RGroup 1 saudiIban) ].

Fixpoint ibanFallback (band : list DocumentSection) : option FieldResult :=
  match band with
  | [] => None
  | section :: rest =>
      match capture 1 (str_match (content section)
                         (re_i (RGroup 1 (rseq [lit "SA"; atLeast 10 digit])))) with
      | Some possibleIban => Some (mkField possibleIban 60 (midpoint section))
      | None => ibanFallback rest
      end
  end.

Definition extractIBAN (svc : Training.TrainingService)
           (sections : list DocumentSection) : FieldResult :=
  let trainedPatterns := Training.getPatterns svc (js "ibanNumber") in
  let ibanPatterns := trainedPatterns ++ defaultIbanPatterns in
  let result := findPatternInSections sections ibanPatterns in
  match truthy (matched result) with
  | Some m =>
      let iban := trim m in
      let confidence := confidence result in
      let confidence :=
        if sectionMentions sections iban ["iban"; "bank"]%string
        then confidence + 5 else confidence in
      let confidence :=
        if test (re_ (rseq [RBol; saudiIban; REol])) iban
        then confidence + 5 else confidence in
      mkField iban (Z.min confidence 100) (position result)
  | None =>
      match ibanFallback sections with
      | Some r => r
      | None => notFound "Unknown"
      end
  end.

(** [FTTH\d+] *)
Definition ftthNumber : regex := rseq [lit "FTTH"; plus digit].

Definition servicePattern (labelWords : list string) : RegExp :=
  re_i (rseq (flat_map (fun w => [lit w; star ws]) labelWords
              ++ [lit ":"; star ws; RGroup 1 ftthNumber])).

Definition defaultServicePatterns : list RegExp :=
  [ re_i (rseq [lit "customer information"; rep 0 100 anyChar; RGroup 1 ftthNumber]);
    servicePattern ["service"; "number"]%string;
    servicePattern ["customer"; "service"; "number"]%string;
    servicePattern ["customer"; "id"]%string;
    servicePattern ["reference"; "number"]%string;
    servicePattern ["reference"]%string;
    re_i (RGroup 1 ftthNumber) ].

Fixpoint serviceFallback (band : list DocumentSection) : option FieldResult :=
  match band with
  | [] => None
  | section :: rest =>
      match capture 1 (str_match (content section) (re_i (RGroup 1 ftthNumber))) with
      | Some possibleService =>
          Some (mkField possibleService
                        (if isCustomerInfoSection section then 85 else 70)
                        (midpoint section))
      | None => serviceFallback rest
      end
  end.

Definition extractServiceNumber (svc : Training.TrainingService)
           (sections : list DocumentSection) : FieldResult :=
  let trainedPatterns := Training.getPatterns svc (js "customerServiceNumber") in
  let servicePatterns := trainedPatterns ++ defaultServicePatterns in
  let result := findPatternInSections sections servicePatterns in
  match truthy (matched result) with
  | Some m =>
      let serviceNumber := trim m in
      let confidence := confidence result in
      let confidence :=
        if sectionMentions sections serviceNumber ["service"; "customer id"]%string
        then confidence + 5 else confidence in
      let confidence :=
        if test (re_ (rseq [RBol; lit "FTTH"; rep 3 9 digit; REol])) serviceNumber
        then confidence + 5 else confidence in
      let confidence :=
        match sectionType result with
        | Some customerInfo => confidence + 10
        | _ => confidence
        end in
      mkField serviceNumber (Z.min confidence 100) (position result)
  | None =>
      match serviceFallback sections with
      | Some r => r
      | None => notFound "Unknown"
      end
  end.

End Extractors.

(** ** services/TrainingService.ts: the queries and the maintenance *)

Module TrainingData.
Import JS Training.

(** [table.get(key)]. *)
Definition tableGet {A} (t : Table A) (key : nat) : option A :=
  match List.find (fun r => Nat.eqb (fst r) key) (rows t) with
  | Some r => Some (snd r)
  | None => None
  end.

(** [table.clear()]: the rows go, the key generator keeps its number. *)
Definition tableClear {A} (t : Table A) : Table A := mkTable [] (nextKey t).

(** The order of the strings in an index: code unit by code unit. *)
Fixpoint jsleb (a b : jsstring) : bool :=
  match a, b with
  | [], _ => true
  | _ :: _, [] => false
  | x :: a', y :: b' => (x <? y)%N || ((x =? y)%N && jsleb a' b')
  end.

(** Insertion into a sorted list, before the elements that may follow
    [r]: sorting with it from the right is stable. *)
Fixpoint insertSorted {A} (le : A -> A -> bool) (r : A) (l : list A) : list A :=
  match l with
  | [] => [r]
  | x :: rest => if le r x then r :: x :: rest else x :: insertSorted le r rest
  end.

Definition stableSort {A} (le : A -> A -> bool) (l : list A) : list A :=
  fold_right (insertSorted le) [] l.

(** What [generateInsights] returns. *)
Record Insights := mkInsights {
  totalCorrections : nat;
  fieldCorrections : list (FieldType * nat);
  improvementRate : Q;
  problemFields : list FieldType;
  recentPatterns : list (nat * ExtractionPattern)
}.

(** [corrections.filter(c => c.originalValue === c.correctedValue).length] *)
Definition noChangeCount (l : list (nat * CorrectionRecord)) : nat :=
  length (List.filter (fun r => jseqb (originalValue (snd r)) (correctedValue (snd r))) l).

(** [list.length > 0 ? count / list.length : 0] *)
Definition noChangeRate (l : list (nat * CorrectionRecord)) : Q :=
  match l with
  | [] => 0
  | _ => inject_Z (Z.of_nat (noChangeCount l)) / inject_Z (Z.of_nat (length l))
  end.

(** The counters of [fieldCorrections] after the loop over the
    corrections, in the order the object literal lists its keys. *)
Definition countByField (l : list (nat * CorrectionRecord)) : list (FieldType * nat) :=
  map (fun f =>
         (f, length (List.filter (fun r => FieldType_eqb (cr_fieldType (snd r)) f) l)))
      allFieldTypes.

Section Service.

Variable RegExp_new : jsstring -> option RegExp.
Variable clock : nat -> jsstring.
Variable loadTime : jsstring.

(** [new Date(timestamp).getTime()]. *)
Variable Date_getTime : jsstring -> Z.

Local Abbreviation initialize := (Training.initialize RegExp_new loadTime).
Local Abbreviation loadPatternRegistry := (Training.loadPatternRegistry RegExp_new).

(** [getTrainingExamples(fieldType?)]: an absent or empty field type
    selects every example. *)
Definition getTrainingExamples (fieldType : option jsstring) (svc : TrainingService)
  : list (nat * TrainingExample) * TrainingService :=
  let svc := initialize svc in
  match truthy fieldType with
  | Some f =>
      (tableWhere (fun e => jseqb (fieldTypeName (te_fieldType e)) f)
                  (trainingExamples (db svc)), svc)
  | None => (rows (trainingExamples (db svc)), svc)
  end.

(** [getExtractionPatterns(fieldType?)]. *)
Definition getExtractionPatterns (fieldType : option jsstring) (svc : TrainingService)
  : list (nat * ExtractionPattern) * TrainingService :=
  let svc := initialize svc in
  match truthy fieldType with
  | Some f =>
      (tableWhere (fun p => jseqb (fieldTypeName (Training.fieldType p)) f)
                  (extractionPatterns (db svc)), svc)
  | None => (rows (extractionPatterns (db svc)), svc)
  end.

(** [orderBy('timestamp').reverse().limit(limit).toArray()]: the index
    lists the rows by timestamp and, for equal timestamps, by key. *)
Definition newestFirst (l : list (nat * CorrectionRecord)) : list (nat * CorrectionRecord) :=
  rev (stableSort (fun a b => jsleb (cr_timestamp (snd a)) (cr_timestamp (snd b))) l).

(** [getCorrectionHistory(limit)], for a limit of at least 1. *)
Definition getCorrectionHistory (limit : nat) (svc : TrainingService)
  : list (nat * CorrectionRecord) * TrainingService :=
  let svc := initialize svc in
  (firstn limit (newestFirst (rows (correctionHistory (db svc)))), svc).

(** [generateInsights()]. *)
Definition generateInsights (svc : TrainingService) : Insights * TrainingService :=
  let svc := initialize svc in
  let '(corrections, svc) := getCorrectionHistory 1000 svc in
  let '(patterns, svc) := getExtractionPatterns None svc in
  let fieldCorrections := countByField corrections in
  let midpoint := (length corrections / 2)%nat in
  let olderCorrections := skipn midpoint corrections in
  let newerCorrections := firstn midpoint corrections in
  let olderRate := noChangeRate olderCorrections in
  let newerRate := noChangeRate newerCorrections in
  let improvementRate := (newerRate - olderRate)%Q in
  let problemFields :=
    map fst (stableSort (fun a b => (snd b <=? snd a)%nat) fieldCorrections) in
  let recentPatterns :=
    firstn 5 (stableSort
                (fun a b => Date_getTime (timestamp (snd b))
                            <=? Date_getTime (timestamp (snd a)))
                patterns) in
  (mkInsights (length corrections) fieldCorrections (improvementRate * 100)%Q
              problemFields recentPatterns, svc).

(** [improveConfidence(id, increment)]: an [id] that is no key of the
    table, a negative one included, finds nothing. *)
Definition improveConfidence (id increment : Z) (svc : TrainingService)
  : TrainingService :=
  let svc := initialize svc in
  match (if id <? 0 then None
         else tableGet (trainingExamples (db svc)) (Z.to_nat id)) with
  | Some example =>
      let newConfidence := Z.min 100 (te_confidence example + increment) in
      let '(now, svc) := Training.readClock clock svc in
      let svc :=
        setDb svc
          (setExamples (db svc)
             (tableUpdate (trainingExamples (db svc)) (Z.to_nat id)
                (fun e => mkExample (te_fieldType e) (te_pattern e) (te_value e)
                            (te_context e) newConfidence now))) in
      Training.initializeFuseSearch svc
  | None => svc
  end.

(** [clearAllTrainingData()]. *)
Definition clearAllTrainingData (svc : TrainingService) : TrainingService :=
  let d := db svc in
  let d := mkDb (tableClear (trainingExamples d)) (tableClear (extractionPatterns d))
                (tableClear (correctionHistory d)) in
  let d := setExamples d (tableBulkAdd (trainingExamples d)
                                       (Training.initialTrainingData loadTime)) in
  let d := setPatterns d (tableBulkAdd (extractionPatterns d)
                                       (Training.initialExtractionPatterns loadTime)) in
  let svc := setDb svc d in
  let svc := Training.initializeFuseSearch svc in
  loadPatternRegistry svc.

(** [getDatabase()]. *)
Definition getDatabase (svc : TrainingService) : TrainingDatabase := db svc.

End Service.

End TrainingData.

(** ** utils/extractors.ts: the whole document *)

Module Pipeline.
Import JS Number Layout Training Extractors.

(** A field of [ExtractedData]. *)
Record FieldValue := mkValue { fv_value : jsstring; fv_confidence : Z }.

Record ExtractedData := mkData {
  ed_id : jsstring;
  fileName : jsstring;
  ed_customerName : FieldValue;
  ed_refundAmount : FieldValue;
  ed_ibanNumber : FieldValue;
  ed_customerServiceNumber : FieldValue;
  detectedLayout : jsstring;
  ed_layoutConfidence : float;
  ed_timestamp : jsstring
}.

(** The source [ensureTreasuryPatterns] looks for.  Its literal is written
    with four backslashes where the literals of the patterns it stores
    have two: the string holds every backslash of the first stored source
    twice, and a backslash before the quote. *)
Definition treasuryProbe : jsstring := js "MR\\s*\\.\\s*([A-Za-z\\s.\'-]+)".

(** The four patterns [ensureTreasuryPatterns] stores, each waiting for
    its timestamp. *)
Definition treasuryRows : list (jsstring -> ExtractionPattern) :=
  [ mkPattern customerName (js "MR\s*\.\s*([A-Za-z\s.'-]+)") 1 95 5;
    mkPattern customerName
      (js "customer\s*information[\s\S]{0,50}name\s*[:\.\s]*([A-Za-z\s.'-]+)") 2 90 5;
    mkPattern customerName
      (js "([A-Za-z\s.'-]+)\s+(?:Al|El)\s+([A-Za-z\s.'-]+)") 3 85 5;
    mkPattern customerName
      (js "name[\s\u0600-\u06FF]*(?:\s*[:\.\s]\s*)((?:[A-Za-z\s.'-]+\s*)+)") 1 95 5 ].

(** The double of a position.  The positions of a document divided into
    ten sections are -1, 50 and the midpoints 5, 15, ..., 95: integers,
    which the rationals of the extractors and the doubles of the code
    hold alike, and which the quotient below gives back exactly. *)
Definition positionNumber (position : Q) : float :=
  PrimFloat.div (ofZ (Qnum position)) (ofZ (Zpos (Qden position))).

(** [Math.min(result.confidence + confidenceBoost, 100)] beside the value. *)
Definition boosted (r : FieldResult) (confidenceBoost : Z) : FieldValue :=
  mkValue (value r) (Z.min (fconfidence r + confidenceBoost) 100).

Section Service.

Variable RegExp_new : jsstring -> option RegExp.
Variable clock : nat -> jsstring.
Variable loadTime : jsstring.

(** [Date.now().toString()] at the n-th reading of the clock. *)
Variable Date_now : nat -> jsstring.

Local Abbreviation initialize := (Training.initialize RegExp_new loadTime).
Local Abbreviation readClock := (Training.readClock clock).

(** [db.extractionPatterns.add({..., timestamp: new Date().toISOString()})]. *)
Definition addPattern (svc : TrainingService) (row : jsstring -> ExtractionPattern)
  : TrainingService :=
  let '(now, svc) := readClock svc in
  setDb svc (setPatterns (db svc) (tableAdd (extractionPatterns (db svc)) (row now))).

(** [ensureTreasuryPatterns()]. *)
Definition ensureTreasuryPatterns (svc : TrainingService) : TrainingService :=
  let existingCustomerPattern :=
    length (tableWhere (fun p => jseqb (patternRegex p) treasuryProbe)
                       (extractionPatterns (db svc))) in
  if Nat.eqb existingCustomerPattern 0
  then initialize (fold_left addPattern treasuryRows svc)
  else svc.

Definition readNow (svc : TrainingService) : jsstring * TrainingService :=
  (Date_now (ticks svc),
   mkService (initialized svc) (fuseSearch svc) (patternRegistry svc) (db svc)
             (S (ticks svc))).

(** [processDocumentText(text, fileName)]. *)
Definition processDocumentText (text fileName : jsstring) (svc : TrainingService)
  : outcome (ExtractedData * TrainingService) :=
  let svc := initialize svc in
  let svc := ensureTreasuryPatterns svc in
  match divideDocument text with
  | ThrowsTypeError => ThrowsTypeError
  | Returns sections =>
      let nameResult := extractCustomerName svc sections in
      let amountResult := extractRefundAmount svc sections in
      let ibanResult := extractIBAN svc sections in
      let serviceResult := extractServiceNumber svc sections in
      let layoutDetection :=
        detectFormLayout (positionNumber (fposition nameResult))
                         (positionNumber (fposition amountResult))
                         (positionNumber (fposition ibanResult))
                         (positionNumber (fposition serviceResult)) in
      let confidenceBoost :=
        if PrimFloat.ltb 70 (layoutConfidence layoutDetection) then 5 else 0 in
      let '(id, svc) := readNow svc in
      let '(timestamp, svc) := readClock svc in
      Returns
        (mkData id fileName
                (boosted nameResult confidenceBoost)
                (boosted amountResult confidenceBoost)
                (boosted ibanResult confidenceBoost)
                (boosted serviceResult confidenceBoost)
                (name (layout layoutDetection))
                (layoutConfidence layoutDetection)
                timestamp,
         svc)
  end.

End Service.

End Pipeline.

(** ** tests/testUtils.ts *)

Module TestUtils.
Import JS Layout Extractors Pipeline.

Record Extraction := mkExtraction {
  x_customerName : FieldResult;
  x_refundAmount : FieldResult;
  x_ibanNumber : FieldResult;
  x_serviceNumber : FieldResult;
  x_layout : Detection
}.

(** [testExtraction(documentText)]. *)
Definition testExtraction (svc : Training.TrainingService) (documentText : jsstring)
  : outcome Extraction :=
  match divideDocument documentText with
  | ThrowsTypeError => ThrowsTypeError
  | Returns sections =>
      let customerName := extractCustomerName svc sections in
      let refundAmount := extractRefundAmount svc sections in
      let ibanNumber := extractIBAN svc sections in
      let serviceNumber := extractServiceNumber svc sections in
      let layout :=
        detectFormLayout (positionNumber (fposition customerName))
                         (positionNumber (fposition refundAmount))
                         (positionNumber (fposition ibanNumber))
                         (positionNumber (fposition serviceNumber)) in
      Returns (mkExtraction customerName refundAmount ibanNumber serviceNumber layout)
  end.

(** [arr.findIndex(p)]: -1 when no element passes. *)
Fixpoint findIndex {A} (p : A -> bool) (l : list A) : Z :=
  match l with
  | [] => (-1)%Z
  | x :: rest =>
      if p x then 0%Z
      else match findIndex p rest with
           | Zneg _ => (-1)%Z
           | i => (i + 1)%Z
           end
  end.

Record Analysis := mkAnalysis {
  totalSections : nat;
  customerInfoSectionIndex : Z;
  signatureSectionIndex : Z;
  sections : list DocumentSection
}.

(** [analyzeDocumentSections(text)]. *)
Definition analyzeDocumentSections (text : jsstring) : outcome Analysis :=
  match divideDocument text with
  | ThrowsTypeError => ThrowsTypeError
  | Returns sections =>
      Returns (mkAnalysis (length sections)
                          (findIndex isCustomerInfoSection sections)
                          (findIndex isSignatureSection sections)
                          sections)
  end.

End TestUtils.

(** ** What a pattern can match *)

Module Language.
Import JS.

(** The words a pattern can consume, the assertions [^], [$] and [\b]
    taken as always satisfied. *)
Fixpoint Lang (ic : bool) (r : regex) (w : jsstring) {struct r} : Prop :=
  match r with
  | REmpty | RBol | REol | RWordB => w = []
  | RChar a => exists c, w = [c] /\ charEq ic a c = true
  | RAny => exists c, w = [c] /\ isLineTerminator c = false
  | RClass neg items => exists c, w = [c] /\ xorb neg (inClass ic items c) = true
  | RSeq a b => exists u v, w = u ++ v /\ Lang ic a u /\ Lang ic b v
  | RAlt a b => Lang ic a w \/ Lang ic b w
  | RGroup _ a => Lang ic a w
  | RRepeat lo hi a =>
      exists ws, w = concat ws /\ List.Forall (Lang ic a) ws
                 /\ (lo <= length ws)%nat
                 /\ match hi with Some h => (length ws <= h)%nat | None => True end
  end.

(** The capturing groups of a pattern, each with its body. *)
Fixpoint groupBodies (r : regex) : list (nat * regex) :=
  match r with
  | RSeq a b | RAlt a b => groupBodies a ++ groupBodies b
  | RRepeat _ _ a => groupBodies a
  | RGroup n a => (n, a) :: groupBodies a
  | _ => []
  end.

(** No quantifier asks for more rounds than it allows. *)
Fixpoint wellFormed (r : regex) : bool :=
  match r with
  | RSeq a b | RAlt a b => wellFormed a && wellFormed b
  | RRepeat lo hi a =>
      match hi with Some h => Nat.leb lo h | None => true end && wellFormed a
  | RGroup _ a => wellFormed a
  | _ => true
  end.

(** The characters a pattern can consume. *)
Fixpoint accepts (ic : bool) (r : regex) (c : N) : bool :=
  match r with
  | RChar a => charEq ic a c
  | RAny => negb (isLineTerminator c)
  | RClass neg items => xorb neg (inClass ic items c)
  | RSeq a b | RAlt a b => accepts ic a c || accepts ic b c
  | RRepeat _ _ a | RGroup _ a => accepts ic a c
  | _ => false
  end.

(** The loop of a quantifier, as [matchRe] runs it. *)
Definition loopOf (ic : bool) (a : regex) (k : MState -> option MState)
  : nat -> nat -> option nat -> MState -> option MState :=
  fix loop (fuel lo : nat) (hi : option nat) (s : MState) {struct fuel}
    : option MState :=
    match fuel with
    | O => None
    | S fuel' =>
        match hi with
        | Some O => k s
        | _ =>
            let d := fun s' =>
              if Nat.eqb lo 0 && Nat.eqb (ms_pos s') (ms_pos s) then None
              else loop fuel' (Nat.pred lo) (predOpt hi) s' in
            let s0 := clearCaps (groupsOf a) s in
            if Nat.eqb lo 0 then
              match matchRe ic a s0 d with
              | Some res => Some res
              | None => k s
              end
            else matchRe ic a s0 d
        end
    end.

(** Captures that are words of the groups they belong to. *)
Definition goodCaps (ic : bool) (bodies : list (nat * regex))
           (caps : list (nat * jsstring)) : Prop :=
  forall n v, In (n, v) caps -> exists a, In (n, a) bodies /\ Lang ic a v.

End Language.

(** ** The shapes of the values *)

Module Shapes.
Import JS.

(** The capital letter with code [u], in either case. *)
Definition isLetterOf (u c : N) : bool := ((c =? u) || (c =? u + 32))%N.

(** [SA] in either case, then digits only, at least [minDigits] of them. *)
Definition ibanLike (minDigits : nat) (v : jsstring) : bool :=
  match v with
  | s :: a :: digits =>
      isLetterOf 83 s && isLetterOf 65 a && forallb isDigit digits
      && (minDigits <=? length digits)%nat
  | _ => false
  end.

(** [FTTH] in either case, then digits only, at least one. *)
Definition serviceNumberLike (v : jsstring) : bool :=
  match v with
  | f :: t1 :: t2 :: h :: digits =>
      isLetterOf 70 f && isLetterOf 84 t1 && isLetterOf 84 t2 && isLetterOf 72 h
      && forallb isDigit digits && (1 <=? length digits)%nat
  | _ => false
  end.

(** Digits, commas and dots. *)
Definition isAmountChar (c : N) : bool := (isDigit c || (c =? 44) || (c =? 46))%N.

Definition amountLike (v : jsstring) : bool :=
  match v with
  | [] => false
  | _ => forallb isAmountChar v
  end.

(** Basic Latin letters, white space, dot, apostrophe and hyphen. *)
Definition isNameChar (c : N) : bool :=
  (isUpper c || isLower c || isWhiteSpace c || (c =? 46) || (c =? 39) || (c =? 45))%N.

Definition nameLike (v : jsstring) : bool := forallb isNameChar v.

End Shapes.

Module Alphabet.
Import JS.

Definition ClassItem_eq_dec (a b : ClassItem) : {a = b} + {a <> b}.
Proof. repeat decide equality. Defined.

Definition sameClass (a b : list ClassItem) : bool :=
  if List.list_eq_dec ClassItem_eq_dec a b then true else false.

(** Whether every atom of a pattern is a character that satisfies [P] or
    one of the given classes. *)
Fixpoint onlyChars (P : N -> bool) (classes : list (list ClassItem)) (r : regex) : bool :=
  match r with
  | RChar a => P a
  | RAny => false
  | RClass neg items => negb neg && existsb (sameClass items) classes
  | RSeq a b | RAlt a b => onlyChars P classes a && onlyChars P classes b
  | RRepeat _ _ a | RGroup _ a => onlyChars P classes a
  | _ => true
  end.

(** The groups numbered [n] of a pattern are made of such atoms. *)
Definition groupOnlyChars (P : N -> bool) (classes : list (list ClassItem))
           (n : nat) (re : RegExp) : bool :=
  forallb (fun nb => negb (Nat.eqb (fst nb) n) || onlyChars P classes (snd nb))
          (Language.groupBodies (re_pattern re))
  && Language.wellFormed (re_pattern re).

End Alphabet.


(** * Vocabulary of the specification

    The words the properties below are stated with: the tests of the two
    detectors as predicates, the bands of the search as a table, the
    sources a call of [learnNewPattern] adds, the invariant of a keyed
    table, and the sample documents and registries the properties are
    evaluated at. *)

Import JS Number Layout Training Extractors.

(** The numbers of the layout detection are doubles; these are the words
    for what the arithmetic keeps.  A double that is not [NaN], and one
    of a given sign: *)
Definition isNumber (x : spec_float) : Prop := x <> S754_nan.

Definition hasSign (s : bool) (x : spec_float) : Prop :=
  match x with
  | S754_zero s' | S754_infinity s' | S754_finite s' _ _ => s' = s
  | S754_nan => False
  end.

(** The place of a double in the order of the numbers: its sign class,
    then its exponent, then its mantissa, the two counted downwards below
    zero. *)
Definition rank (x : spec_float) : Z * Z * Z :=
  match x with
  | S754_infinity true => (-2, 0, 0)
  | S754_finite true m e => (-1, - e, - Zpos m)
  | S754_zero _ | S754_nan => (0, 0, 0)
  | S754_finite false m e => (1, e, Zpos m)
  | S754_infinity false => (2, 0, 0)
  end%Z.

Definition rankLt (a b : Z * Z * Z) : Prop :=
  let '(a1, a2, a3) := a in
  let '(b1, b2, b3) := b in
  (a1 < b1 \/ (a1 = b1 /\ (a2 < b2 \/ (a2 = b2 /\ a3 < b3))))%Z.

(** A template one can measure against: its locations and tolerances are
    finite and not zero. *)
Definition finiteNumber (x : float) : bool :=
  match Prim2SF x with
  | S754_finite _ _ _ => true
  | _ => false
  end.

Definition measurable (p : FieldPlace) : bool :=
  finiteNumber (expectedLocation p) && finiteNumber (tolerance p).

Definition measurableLayout (l : FormLayout) : bool :=
  measurable (nameSection l) && measurable (amountSection l)
  && measurable (ibanSection l) && measurable (serviceNumberSection l).

(** The three tests of [detectCustomerInfoSection] and the two tests of
    [detectSignatureSection], as one predicate each. *)
Definition customerInfoHit (s : DocumentSection) : bool :=
  anyTest customerHeaderPatterns (content s)
  || anyTest customerKeywords (content s)
  || looksLikeCustomerFields s.

Definition signatureHit (s : DocumentSection) : bool :=
  anyTest signatureKeywords (content s) || looksLikeSignatureLines s.

Definition inTopPart (s : DocumentSection) : bool := Qle_bool (endPercentage s) 40.
Definition inBottomHalf (s : DocumentSection) : bool := Qle_bool 50 (startPercentage s).

(** Tagging changes neither the number of sections nor what they cover. *)
Definition sameExtent (a b : DocumentSection) : Prop :=
  startPercentage a = startPercentage b /\ endPercentage a = endPercentage b
  /\ content a = content b.

(** A band of the search, as the specification tabulates it: the places
    searched (position reported and text), the base confidence, the loss
    per pattern index and the section type reported. *)
Record Band := mkBand {
  band_places : list (Q * jsstring);
  band_base : Z;
  band_step : Z;
  band_type : option SectionType
}.

Definition place (s : DocumentSection) : Q * jsstring :=
  ((startPercentage s + endPercentage s) / 2, content s)%Q.

Definition option_to_list {A} (o : option A) : list A :=
  match o with Some a => [a] | None => [] end.

(** The six bands, in the order they are searched. *)
Definition bandsOf (sections : list DocumentSection) : list Band :=
  [ mkBand (map place (option_to_list (List.find isCustomerInfoSection sections)))
           95 5 (Some customerInfo);
    mkBand (map place
              (List.filter (fun s => Qle_bool (endPercentage s) 30
                                     && negb (isSignatureSection s)) sections))
           90 5 (Some top);
    mkBand (map place
              (List.filter (fun s => Qltb 30 (startPercentage s)
                                     && Qltb (endPercentage s) 70
                                     && negb (isSignatureSection s)) sections))
           80 5 (Some middle);
    mkBand (map place (List.filter (fun s => negb (isSignatureSection s)) sections))
           75 7 None;
    mkBand (map place (List.filter isSignatureSection sections))
           30 5 (Some signature);
    mkBand [(50%Q, joinLines (map content sections))] 45 5 None ].

(** The patterns with their indexes in the list. *)
Definition numbered (patterns : list RegExp) : list (nat * RegExp) :=
  combine (seq 0 (length patterns)) patterns.

(** What a pattern yields at a place of a band. *)
Definition candidateAt (b : Band) (pl : Q * jsstring) (jp : nat * RegExp)
  : list SearchResult :=
  match capture 1 (str_match (snd pl) (snd jp)) with
  | Some m => [mkSearch (fst pl) (Some m)
                        (band_base b - Z.of_nat (fst jp) * band_step b)
                        (band_type b)]
  | None => []
  end.

(** The candidates of a band: place by place, and pattern by pattern at
    each place. *)
Definition bandCandidates (patterns : list RegExp) (b : Band) : list SearchResult :=
  flat_map (fun pl => flat_map (candidateAt b pl) (numbered patterns)) (band_places b).

(** The first candidate of the first band that has one. *)
Definition searchByBands (sections : list DocumentSection) (patterns : list RegExp)
  : SearchResult :=
  hd (mkSearch (-1) None 0 None)
     (flat_map (bandCandidates patterns) (bandsOf sections)).

(** The lowest confidence the search can give with [n] patterns, and the
    lowest a name can get: the signature band starts from 30 and a name
    found there loses 50 more. *)
Definition searchFloor (n : nat) : Z :=
  Z.min (75 - 7 * (Z.of_nat n - 1)) (30 - 5 * (Z.of_nat n - 1)).

Definition nameFloor (n : nat) : Z :=
  Z.min (75 - 7 * (Z.of_nat n - 1)) (-20 - 5 * (Z.of_nat n - 1)).

Definition regexOf (r : nat * ExtractionPattern) : jsstring := patternRegex (snd r).

(** Whether some row of the table, of any field type, holds this source. *)
Definition knownSource (known : list jsstring) (c : jsstring) : bool :=
  existsb (fun k => jseqb k c) known.

(** The sources a call adds: the candidates in line order, each one unless
    it is stored already or was added for an earlier line. *)
Fixpoint freshSources (known candidates : list jsstring) : list jsstring :=
  match candidates with
  | [] => []
  | c :: rest =>
      if knownSource known c then freshSources known rest
      else c :: freshSources (known ++ [c]) rest
  end.

(** The candidates of a context, line by line. *)
Definition candidatesOf (f : FieldType) (context correctValue : jsstring)
  : list jsstring :=
  omap (candidatePattern f correctValue) (splitLines context).

(** The rows a learned pattern is stored as. *)
Definition learnedRow (f : FieldType) (r : nat * ExtractionPattern) : Prop :=
  fieldType (snd r) = f /\ priority (snd r) = 5%Z
  /\ successRate (snd r) = 60%Q /\ usageCount (snd r) = 1%Z.

(** The row stored under a key. *)
Definition rowOf (k : nat) (l : list (nat * ExtractionPattern))
  : option ExtractionPattern :=
  match List.find (fun r => Nat.eqb (fst r) k) l with
  | Some r => Some (snd r)
  | None => None
  end.

(** The invariant of a table with generated keys: no key is used twice and
    the generator is ahead of every key in use. *)
Definition keysFresh {A} (t : Table A) : Prop :=
  List.NoDup (map fst (rows t))
  /\ forall k, In k (map fst (rows t)) -> (k < nextKey t)%nat.

Definition rateInRange (p : ExtractionPattern) : Prop :=
  (0 <= successRate p /\ successRate p <= 100)%Q.

(** A table that only grew, by rows whose patterns satisfy [P]. *)
Definition grows (P : ExtractionPattern -> Prop) (t t' : Table ExtractionPattern) : Prop :=
  (exists new, rows t' = rows t ++ new /\ Forall (fun r => P (snd r)) new)
  /\ (keysFresh t -> keysFresh t').

Definition patternsOf (svc : TrainingService) : Table ExtractionPattern :=
  extractionPatterns (db svc).

(** What the update writes into the row of a pattern that matched. *)
Definition bumped (original corrected : jsstring) (p p' : ExtractionPattern) : Prop :=
  fieldType p' = fieldType p /\ patternRegex p' = patternRegex p
  /\ priority p' = priority p
  /\ successRate p' = newSuccessRate (successRate p) original corrected
  /\ usageCount p' = (usageCount p + 1)%Z.




(** A service whose database is empty and that has not been initialized:
    the extractors then work with their built-in patterns only. *)
Definition emptyDatabase : TrainingDatabase := mkDb emptyTable emptyTable emptyTable.
Definition unlearned : TrainingService := newService emptyDatabase.

Definition fixedClock (n : nat) : jsstring := js "2024-01-01T00:00:00.000Z".
Definition fixedLoadTime : jsstring := js "2024-01-01T00:00:00.000Z".

(** The sections of a document divided with the default section count. *)
Definition sectionsOf (text : jsstring) : list DocumentSection :=
  match divideDocument text with
  | Returns sections => sections
  | ThrowsTypeError => []
  end.

(** A form of twenty lines: customer information at the top, office use at
    the bottom. *)
Definition treasuryDocument : jsstring :=
  joinLines
    [ js "CUSTOMER INFORMATION";
      js "Name: MR. Mohammed Al Motaeri";
      js "Service Number: FTTH00516134";
      js "";
      js "Refund Amount: SAR 379.50";
      js ""; js ""; js ""; js ""; js "";
      js "IBAN Number: SA0380000000608010167519";
      js ""; js ""; js ""; js ""; js ""; js ""; js "";
      js "Office Use Only";
      js "Manager Name: Karim Abu Taha" ].

(** A form of ten lines whose only name stands in the office-use part. *)
Definition signatureOnlyDocument : jsstring :=
  joinLines
    [ js "Refund form"; js ""; js ""; js ""; js ""; js ""; js ""; js ""; js "";
      js "OFFICE USE ONLY Name: Karim Abu Taha" ].


(** A context in which the corrected value stands on two lines, behind
    two different labels. *)
Definition twoLabelContext : jsstring :=
  joinLines [ js "Name: John Smith"; js "Customer: John Smith" ].

(** A registry in which a user stored, for the refund amount, the very
    source a name correction will synthesize. *)
Definition crossFieldService : TrainingService :=
  newService
    (mkDb emptyTable
          (tableAdd emptyTable
             (mkPattern refundAmount (js "Name:\s*([A-Za-z\s.'-]+)") 3 80 0
                        fixedLoadTime))
          emptyTable).

(** A registry holding one pattern that matches bare service numbers. *)
Definition serviceNumberService : TrainingService :=
  newService
    (mkDb emptyTable
          (tableAdd emptyTable
             (mkPattern customerServiceNumber (js "(FTTH\d+)") 3 80 4 fixedLoadTime))
          emptyTable).

(** ** Vocabulary of the further properties *)

Import TrainingData Pipeline TestUtils Language Shapes Alphabet.

(** The search, band by band. *)
Inductive SearchCase (sections : list DocumentSection) (patterns : list RegExp)
          (r : SearchResult) : Prop :=
| InSection (s : DocumentSection) (p : RegExp) (m : jsstring) :
    In s sections -> In p patterns ->
    capture 1 (str_match (content s) p) = Some m ->
    matched r = Some m -> position r = midpoint s ->
    (sectionType r = Some signature ->
     isSignatureSection s = true
     /\ forall s' p', In s' sections -> isSignatureSection s' = false ->
                      In p' patterns ->
                      capture 1 (str_match (content s') p') = None) ->
    SearchCase sections patterns r
| InWholeDocument (p : RegExp) (m : jsstring) :
    In p patterns ->
    capture 1 (str_match (joinLines (map content sections)) p) = Some m ->
    matched r = Some m -> position r = 50%Q -> sectionType r = None ->
    (forall s' p', In s' sections -> In p' patterns ->
                   capture 1 (str_match (content s') p') = None) ->
    SearchCase sections patterns r
| NotFound :
    r = mkSearch (-1) None 0 None ->
    (forall s' p', In s' sections -> In p' patterns ->
                   capture 1 (str_match (content s') p') = None) ->
    (forall p', In p' patterns ->
                capture 1 (str_match (joinLines (map content sections)) p') = None) ->
    SearchCase sections patterns r.

(** A result placed at the midpoint of a section of the list, or at 50. *)
Definition placedIn (sections : list DocumentSection) (r : FieldResult) : Prop :=
  (exists s, In s sections /\ fposition r = midpoint s) \/ fposition r = 50%Q.

(** The order of two stored patterns by their priorities. *)
Definition priorityLe (a b : nat * ExtractionPattern) : Prop :=
  (priority (snd a) <= priority (snd b))%Z.

(** The stored patterns of one priority. *)
Definition hasPriority (p : Z) (r : nat * ExtractionPattern) : bool :=
  (priority (snd r) =? p)%Z.

(** The stored patterns of a field type. *)
Definition fieldRows (f : FieldType) (stored : list (nat * ExtractionPattern))
  : list (nat * ExtractionPattern) :=
  List.filter (fun r => FieldType_eqb (fieldType (snd r)) f) stored.

(** The order of the registry: the rows of the field type by priority,
    rows of equal priority as they are stored. *)
Definition inRegistryOrder (f : FieldType) (stored l : list (nat * ExtractionPattern))
  : Prop :=
  Permutation l (fieldRows f stored)
  /\ StronglySorted priorityLe l
  /\ forall p, List.filter (hasPriority p) l
               = List.filter (hasPriority p) (fieldRows f stored).

(** The registry agrees with the store. *)
Definition registryFollowsStore (RegExp_new : jsstring -> option RegExp)
           (svc : TrainingService) : Prop :=
  forall f, exists l,
    getPatterns svc (fieldTypeName f) = Training.compileAll RegExp_new l
    /\ inRegistryOrder f (storedPatterns svc) l.

(** The tables a step leaves alone. *)
Definition keepsRecords (svc svc' : TrainingService) : Prop :=
  trainingExamples (db svc') = trainingExamples (db svc)
  /\ correctionHistory (db svc') = correctionHistory (db svc)
  /\ fuseSearch svc' = fuseSearch svc.

(** The order [getCorrectionHistory] returns the records in. *)
Definition newerFirst (a b : nat * CorrectionRecord) : Prop :=
  jsleb (cr_timestamp (snd b)) (cr_timestamp (snd a)) = true.

(** The order of [problemFields]: more corrections first. *)
Definition moreCorrections (a b : FieldType * nat) : Prop := (snd b <= snd a)%nat.

(** The order of [recentPatterns]: later timestamps first. *)
Definition laterFirst (Date_getTime : jsstring -> Z) (a b : nat * ExtractionPattern) : Prop :=
  (Date_getTime (timestamp (snd b)) <= Date_getTime (timestamp (snd a)))%Z.

(** The rows [ensureTreasuryPatterns] adds when the clock has been read
    [t] times. *)
Definition treasuryRowsAt (clock : nat -> jsstring) (t : nat) : list ExtractionPattern :=
  map (fun ir => snd ir (clock (t + fst ir)%nat)) (combine (seq 0 4) treasuryRows).

(** What [processDocumentText] returns, from the sections of the text and
    the service as [initialize] leaves it. *)
Definition documentData (svc0 : TrainingService) (sections : list DocumentSection)
           (data : ExtractedData) : Prop :=
  let nameResult := extractCustomerName svc0 sections in
  let amountResult := extractRefundAmount svc0 sections in
  let ibanResult := extractIBAN svc0 sections in
  let serviceResult := extractServiceNumber svc0 sections in
  let detection :=
    detectFormLayout (positionNumber (fposition nameResult))
                     (positionNumber (fposition amountResult))
                     (positionNumber (fposition ibanResult))
                     (positionNumber (fposition serviceResult)) in
  let boost := if PrimFloat.ltb 70 (layoutConfidence detection) then 5%Z else 0%Z in
  ed_customerName data = boosted nameResult boost
  /\ ed_refundAmount data = boosted amountResult boost
  /\ ed_ibanNumber data = boosted ibanResult boost
  /\ ed_customerServiceNumber data = boosted serviceResult boost
  /\ detectedLayout data = name (layout detection)
  /\ ed_layoutConfidence data = layoutConfidence detection.

(** A run of the matcher from [s] to [s']: the word consumed. *)
Definition consumed (s s' : MState) (w : jsstring) : Prop :=
  ms_rest s = w ++ ms_rest s' /\ ms_pos s' = (ms_pos s + length w)%nat.

(** What a successful run of [r] in front of [k] amounts to. *)
Definition soundFor (ic : bool) (bodies : list (nat * regex)) (r : regex) : Prop :=
  forall s k res,
    matchRe ic r s k = Some res ->
    exists s' w, k s' = Some res /\ consumed s s' w /\ Lang ic r w
                 /\ (goodCaps ic bodies (ms_caps s) -> goodCaps ic bodies (ms_caps s')).

(** The patterns of a list capture values of one shape only. *)
Definition capturesOnly (shape : jsstring -> bool) (patterns : list RegExp) : Prop :=
  forall p text v, In p patterns -> capture 1 (str_match text p) = Some v ->
                   shape v = true.

(** [[0-9,.]] and [[0-9]], by the codes of their characters. *)
Definition amountClasses : list (list ClassItem) :=
  [ [CRange 48 57; CChar 44; CChar 46]; [CRange 48 57] ].

(** [[A-Za-z\s.'-]], [\s], [[A-Z]] and [[a-z]], by the codes of their
    characters. *)
Definition nameClasses : list (list ClassItem) :=
  [ [CRange 65 90; CRange 97 122; CSpace; CChar 46; CChar 39; CChar 45];
    [CSpace]; [CRange 65 90]; [CRange 97 122] ].

(** A store holding one pattern for each field type, written like the
    patterns the extractors have built in. *)
Definition shapedService : TrainingService :=
  newService
    (mkDb emptyTable
          (tableBulkAdd emptyTable
             [ mkPattern customerName (js "name\s*:\s*([A-Za-z\s.'-]+)") 1 90 0
                         fixedLoadTime;
               mkPattern refundAmount (js "([0-9,.]+)\s*(?:SAR|SR)") 1 90 0
                         fixedLoadTime;
               mkPattern ibanNumber (js "(SA\d{22})") 1 90 0 fixedLoadTime;
               mkPattern customerServiceNumber (js "(FTTH\d+)") 1 90 0 fixedLoadTime ])
          emptyTable).

(** The same service, initialized: its registry holds the four patterns. *)
Definition shapedRegistry : TrainingService :=
  Training.initialize compileIgnoreCase fixedLoadTime shapedService.

(** * Properties *)

(** ** The built-in patterns and their sources

    The patterns of the detectors and of the extractors are written above
    as syntax trees.  Each of them is what the reader of patterns returns
    for the source text of the literal in the program. *)

Example customerKeywords_sources :
  map compileIgnoreCase
      [ js "customer information"; js "customer info"; js "client information";
        [0x628; 0x64a; 0x627; 0x646; 0x627; 0x62a; 0x20;
         0x627; 0x644; 0x639; 0x645; 0x64a; 0x644]%N;
        [0x645; 0x639; 0x644; 0x648; 0x645; 0x627; 0x62a; 0x20;
         0x627; 0x644; 0x639; 0x645; 0x64a; 0x644]%N;
        js "customer" ]
  = map Some customerKeywords.
Proof. vm_compute. reflexivity. Qed.

Example customerHeaderPatterns_sources :
  map compileIgnoreCase
      [ js "CUSTOMER INFORMATION"; js "customer information";
        js "Customer Details"; js "CLIENT DETAILS" ]
  = map Some customerHeaderPatterns.
Proof. vm_compute. reflexivity. Qed.

Example customerField_sources :
  compileIgnoreCase (js "name\s*[:\.\s]") = Some nameLabel
  /\ compileIgnoreCase (js "MR\s*\.") = Some mrTitle.
Proof. vm_compute. split; reflexivity. Qed.

Example signatureKeywords_sources :
  map compileIgnoreCase
      [ js "office use only"; js "signature"; js "sign";
        [0x644; 0x644; 0x627; 0x633; 0x62a; 0x639; 0x645; 0x627; 0x644;
         0x20; 0x627; 0x644; 0x631; 0x633; 0x645; 0x64a]%N;
        [0x62a; 0x648; 0x642; 0x64a; 0x639]%N;
        js "office"; js "OFFICE USE ONLY";
        js "Regional\s+Sales\s+Manager"; js "Back\s+Office\s+Manager";
        js "Sales\s+Director"; js "Customer\s+Operation";
        js "Customer\s+Signature"; js "Technical\s+Report" ]
  = map Some signatureKeywords.
Proof. vm_compute. reflexivity. Qed.

Example defaultNamePatterns_sources :
  map compileIgnoreCase
      [ js "customer information[\s\S]{0,50}name\s*[:\.\s]*([A-Za-z\s.'-]+)";
        js "MR\s*\.\s*([A-Za-z\s.'-]+)";
        js "(MR\s*\.)?\s*([A-Za-z\s.'-]+)\s+(?:Al|El)\s+([A-Za-z\s.'-]+)";
        js "customer[\s\S]{0,50}name\s*[:\.\s]*([A-Za-z\s.'-]+)";
        js "customer\s*name\s*:\s*([A-Za-z\s.'-]+)";
        js "name\s*:\s*([A-Za-z\s.'-]+)";
        js "client\s*:\s*([A-Za-z\s.'-]+)";
        js "applicant\s*:\s*([A-Za-z\s.'-]+)";
        js "recipient\s*:\s*([A-Za-z\s.'-]+)";
        js "account\s*holder\s*:\s*([A-Za-z\s.'-]+)" ]
  = map Some defaultNamePatterns.
Proof. vm_compute. reflexivity. Qed.

Example namePattern_sources :
  compileIgnoreCase
    (js "\b(MR\.|DR\.|MS\.|MRS\.)\s*([A-Za-z\s.'-]+(?:\s+(?:Al|El)\s+[A-Za-z\s.'-]+)?)\b")
  = Some titlePattern
  /\ compileIgnoreCase
       (js "name[\s\u0600-\u06FF]*(?:\s*[:\.\s]\s*)((?:[A-Za-z\s.'-]+\s*)+)")
     = Some treasuryNamePattern
  /\ option_map re_ (readPattern (js "^[A-Z][a-z]+(\s[A-Z][a-z]+)+$"))
     = Some capitalizedWords
  /\ compileIgnoreCase (js "\b(Al|El)\b") = Some alElWord
  /\ option_map re_
       (readPattern (js "([A-Z][a-z]+(?:\s[A-Z][a-z]+)+(?:\s(?:Al|El)\s[A-Z][a-z]+)?)"))
     = Some nameRegex.
Proof. vm_compute. repeat split; reflexivity. Qed.

Example defaultAmountPatterns_sources :
  let currencies :=
    js "(?:SAR|SR|" ++ Training.rialAbbrev ++ js "|" ++ Training.rialSign ++ js ")" in
  map compileIgnoreCase
      [ js "refund\s*amount\s*:\s*" ++ currencies ++ js "?\s*([0-9,.]+)";
        js "amount\s*:\s*" ++ currencies ++ js "?\s*([0-9,.]+)";
        js "total\s*:\s*" ++ currencies ++ js "?\s*([0-9,.]+)";
        js "payment\s*amount\s*:\s*" ++ currencies ++ js "?\s*([0-9,.]+)";
        currencies ++ js "\s*([0-9,.]+)";
        js "([0-9,.]+)\s*" ++ currencies ]
  = map Some defaultAmountPatterns.
Proof. vm_compute. reflexivity. Qed.

Example amountPattern_sources :
  option_map re_ (readPattern (js "^[0-9]+(\.[0-9]{2})?$")) = Some canonicalAmount
  /\ option_map re_ (readPattern (js "([0-9]+(\.[0-9]{2})?)")) = Some bareNumber.
Proof. vm_compute. split; reflexivity. Qed.

Example defaultIbanPatterns_sources :
  map compileIgnoreCase
      [ js "iban\s*:\s*(SA\d{22})"; js "iban\s*number\s*:\s*(SA\d{22})";
        js "bank\s*account\s*:\s*(SA\d{22})"; js "account\s*number\s*:\s*(SA\d{22})";
        js "(SA\d{22})" ]
  = map Some defaultIbanPatterns.
Proof. vm_compute. reflexivity. Qed.

Example defaultServicePatterns_sources :
  map compileIgnoreCase
      [ js "customer information[\s\S]{0,100}(FTTH\d+)";
        js "service\s*number\s*:\s*(FTTH\d+)";
        js "customer\s*service\s*number\s*:\s*(FTTH\d+)";
        js "customer\s*id\s*:\s*(FTTH\d+)";
        js "reference\s*number\s*:\s*(FTTH\d+)";
        js "reference\s*:\s*(FTTH\d+)";
        js "(FTTH\d+)" ]
  = map Some defaultServicePatterns.
Proof. vm_compute. reflexivity. Qed.

(** ** The section array *)

Lemma indexed_from (l : list DocumentSection) (a i : nat) (s : DocumentSection) :
  In (i, s) (combine (seq a (length l)) l) <-> (a <= i)%nat /\ l !! (i - a)%nat = Some s.
Proof.
  revert a. induction l as [|x l IH]; intros a; simpl.
  - split; [tauto | intros [_ H]; discriminate].
  - rewrite IH. split.
    + intros [H | [Hle H]].
      * inversion H; subst. split; [lia |]. now rewrite Nat.sub_diag.
      * split; [lia |]. replace (i - a)%nat with (S (i - S a)) by lia. exact H.
    + intros [Hle H]. destruct (decide (i = a)) as [-> | Hne].
      * left. rewrite Nat.sub_diag in H. simpl in H. congruence.
      * right. split; [lia |].
        replace (i - a)%nat with (S (i - S a)) in H by lia. exact H.
Qed.

Lemma indexed_lookup (l : list DocumentSection) (i : nat) (s : DocumentSection) :
  In (i, s) (indexed l) <-> l !! i = Some s.
Proof.
  unfold indexed. rewrite indexed_from, Nat.sub_0_r.
  split; [tauto | intros H; split; [lia | exact H]].
Qed.

(** A hit of one of the detectors' loops is an element of the array that
    passes the filter and the test. *)
Lemma firstIndex_Some (keep hit : DocumentSection -> bool)
      (l : list DocumentSection) (i : nat) :
  firstIndex hit (List.filter (fun p => keep (snd p)) (indexed l)) = Some i ->
  exists s, l !! i = Some s /\ keep s = true /\ hit s = true.
Proof.
  unfold firstIndex.
  destruct (List.find _ _) as [[j s]|] eqn:F; [|discriminate].
  intros [= <-]. apply find_some in F as [Hin Hhit].
  apply filter_In in Hin as [Hin Hkeep]. apply indexed_lookup in Hin.
  exists s. auto.
Qed.

Lemma firstIndex_None (keep hit : DocumentSection -> bool)
      (l : list DocumentSection) :
  firstIndex hit (List.filter (fun p => keep (snd p)) (indexed l)) = None ->
  forall i s, l !! i = Some s -> keep s = true -> hit s = false.
Proof.
  unfold firstIndex.
  destruct (List.find _ _) as [[j t]|] eqn:F; [discriminate|].
  intros _ i s Hl Hk.
  apply (find_none _ _ F (i, s)).
  apply filter_In. split; [now apply indexed_lookup | exact Hk].
Qed.

(** The index [detectCustomerInfoSection] returns is that of a section of
    the first 40% that passes one of the tests, and 0 when there is none. *)
Lemma detectCustomerInfoSection_spec (l : list DocumentSection) :
  (exists i s, detectCustomerInfoSection l = Z.of_nat i /\ l !! i = Some s
               /\ inTopPart s = true /\ customerInfoHit s = true)
  \/ (detectCustomerInfoSection l = 0%Z
      /\ forall i s, l !! i = Some s -> inTopPart s = true -> customerInfoHit s = false).
Proof.
  unfold detectCustomerInfoSection, customerInfoHit.
  destruct (firstIndex (fun s => anyTest customerHeaderPatterns (content s)) _)
    as [i|] eqn:F1.
  { apply (firstIndex_Some inTopPart) in F1 as (s & Hl & Hk & Hh).
    left. exists i, s. rewrite Hh. auto. }
  destruct (firstIndex (fun s => anyTest customerKeywords (content s)) _)
    as [i|] eqn:F2.
  { apply (firstIndex_Some inTopPart) in F2 as (s & Hl & Hk & Hh).
    left. exists i, s. rewrite Hh, orb_true_r. auto. }
  destruct (firstIndex looksLikeCustomerFields _) as [i|] eqn:F3.
  { apply (firstIndex_Some inTopPart) in F3 as (s & Hl & Hk & Hh).
    left. exists i, s. rewrite Hh, orb_true_r. auto. }
  right. split; [reflexivity|]. intros i s Hl Hk.
  rewrite (firstIndex_None inTopPart _ _ F1 i s Hl Hk).
  rewrite (firstIndex_None inTopPart _ _ F2 i s Hl Hk).
  rewrite (firstIndex_None inTopPart _ _ F3 i s Hl Hk). reflexivity.
Qed.

(** The index [detectSignatureSection] returns is that of a section of the
    second half that passes one of the tests, and -1 when there is none. *)
Lemma detectSignatureSection_spec (l : list DocumentSection) :
  (exists i s, detectSignatureSection l = Z.of_nat i /\ l !! i = Some s
               /\ inBottomHalf s = true /\ signatureHit s = true)
  \/ (detectSignatureSection l = (-1)%Z
      /\ forall i s, l !! i = Some s -> inBottomHalf s = true -> signatureHit s = false).
Proof.
  unfold detectSignatureSection, signatureHit.
  destruct (firstIndex (fun s => anyTest signatureKeywords (content s)) _)
    as [i|] eqn:F1.
  { apply (firstIndex_Some inBottomHalf) in F1 as (s & Hl & Hk & Hh).
    left. exists i, s. rewrite Hh. auto. }
  destruct (firstIndex looksLikeSignatureLines _) as [i|] eqn:F2.
  { apply (firstIndex_Some inBottomHalf) in F2 as (s & Hl & Hk & Hh).
    left. exists i, s. rewrite Hh, orb_true_r. auto. }
  right. split; [reflexivity|]. intros i s Hl Hk.
  rewrite (firstIndex_None inBottomHalf _ _ F1 i s Hl Hk).
  rewrite (firstIndex_None inBottomHalf _ _ F2 i s Hl Hk). reflexivity.
Qed.

Lemma createSections_length (text : jsstring) (n : Z) :
  length (createSections text n) = Z.to_nat n.
Proof. unfold createSections. now rewrite length_map, length_seq. Qed.

Lemma createSections_lookup (text : jsstring) (n : Z) (i : nat) (s : DocumentSection) :
  createSections text n !! i = Some s ->
  (i < Z.to_nat n)%nat /\ s = sectionAt (splitLines text) n i.
Proof.
  unfold createSections. intros H.
  apply list_lookup_fmap_Some in H as (j & -> & Hj).
  apply lookup_seq in Hj as [-> Hlt]. auto.
Qed.

Lemma setFlag_Returns (mark : DocumentSection -> DocumentSection)
      (l : list DocumentSection) (i : nat) :
  (i < length l)%nat ->
  exists s, l !! i = Some s /\ setFlag mark l i = Returns (<[i := mark s]> l).
Proof.
  intros Hlt. destruct (lookup_lt_is_Some_2 l i Hlt) as [s Hs].
  exists s. unfold setFlag. now rewrite Hs.
Qed.

(** What [divideDocumentIntoSections] returns for a positive section
    count: the created sections, one of them marked as customer
    information (a section of the first 40% that passes a test, or section
    0 when there is none), and a section of the second half that passes a
    signature test, when there is one, marked as signature section. *)
Lemma divide_shape (text : jsstring) (n : Z) :
  (1 <= n)%Z ->
  let base := createSections text n in
  exists i si,
    base !! i = Some si /\
    (inTopPart si = true /\ customerInfoHit si = true
     \/ i = 0%nat /\ forall k s, base !! k = Some s -> inTopPart s = true ->
                                 customerInfoHit s = false) /\
    let marked := <[i := markCustomerInfo si]> base in
    (divideDocumentIntoSections text n = Returns marked
     /\ forall k s, marked !! k = Some s -> inBottomHalf s = true ->
                    signatureHit s = false)
    \/ (exists j sj, marked !! j = Some sj
          /\ inBottomHalf sj = true /\ signatureHit sj = true
          /\ divideDocumentIntoSections text n
             = Returns (<[j := markSignature sj]> marked)).
Proof.
  intros Hn base.
  assert (Hlen : length base = Z.to_nat n) by apply createSections_length.
  assert (Hi : exists i si, detectCustomerInfoSection base = Z.of_nat i
                 /\ base !! i = Some si
                 /\ (inTopPart si = true /\ customerInfoHit si = true
                     \/ i = 0%nat /\ forall k s, base !! k = Some s ->
                           inTopPart s = true -> customerInfoHit s = false)).
  { destruct (detectCustomerInfoSection_spec base)
      as [(i & s & E & Hl & Ht & Hh) | [E Hno]].
    - exists i, s. auto.
    - destruct (lookup_lt_is_Some_2 base 0) as [s Hs]; [lia|].
      exists 0%nat, s. auto. }
  destruct Hi as (i & si & Ei & Hsi & Hwhy). exists i, si.
  split; [exact Hsi|]. split; [exact Hwhy|]. intros marked.
  assert (Hdiv : divideDocumentIntoSections text n
                 = if (0 <=? detectSignatureSection marked)%Z
                   then setFlag markSignature marked
                                (Z.to_nat (detectSignatureSection marked))
                   else Returns marked).
  { unfold divideDocumentIntoSections. fold base. rewrite Ei.
    replace (0 <=? Z.of_nat i)%Z with true by (symmetry; apply Z.leb_le; lia).
    rewrite Nat2Z.id. unfold setFlag at 1. rewrite Hsi. reflexivity. }
  rewrite Hdiv.
  destruct (detectSignatureSection_spec marked)
    as [(j & sj & E & Hl & Hb & Hh) | [E Hno]].
  - right. exists j, sj. rewrite E.
    replace (0 <=? Z.of_nat j)%Z with true by (symmetry; apply Z.leb_le; lia).
    rewrite Nat2Z.id. unfold setFlag. rewrite Hl. auto.
  - left. rewrite E. simpl. auto.
Qed.

Lemma sameExtent_markCustomerInfo (s : DocumentSection) : sameExtent (markCustomerInfo s) s.
Proof. repeat split. Qed.

Lemma sameExtent_markSignature (s : DocumentSection) : sameExtent (markSignature s) s.
Proof. repeat split. Qed.

Lemma sameExtent_trans (a b c : DocumentSection) :
  sameExtent a b -> sameExtent b c -> sameExtent a c.
Proof. unfold sameExtent. intuition congruence. Qed.

Lemma sameExtent_refl (a : DocumentSection) : sameExtent a a.
Proof. repeat split. Qed.

(** An in-place update by a function that keeps the extent keeps the
    extent of every element. *)
Lemma insert_sameExtent (l : list DocumentSection) (i : nat) (si x : DocumentSection)
      (k : nat) (s : DocumentSection) :
  l !! i = Some si -> sameExtent x si ->
  <[i := x]> l !! k = Some s ->
  exists b, l !! k = Some b /\ sameExtent s b.
Proof.
  intros Hi Hx Hk.
  apply list_lookup_insert_Some in Hk as [(<- & <- & _) | (_ & Hk)].
  - exists si. auto.
  - exists s. split; [exact Hk | apply sameExtent_refl].
Qed.

(** Every section of the result covers what the loop gave it. *)
Lemma divide_extent (text : jsstring) (n : Z) :
  (1 <= n)%Z ->
  exists sections,
    divideDocumentIntoSections text n = Returns sections
    /\ length sections = Z.to_nat n
    /\ forall k s, sections !! k = Some s ->
                   sameExtent s (sectionAt (splitLines text) n k).
Proof.
  intros Hn. destruct (divide_shape text n Hn) as (i & si & Hsi & _ & H).
  cbv zeta in H.
  set (base := createSections text n) in *.
  set (marked := <[i := markCustomerInfo si]> base) in *.
  assert (Hbase : forall k b, base !! k = Some b ->
                              b = sectionAt (splitLines text) n k).
  { intros k b Hb. now apply createSections_lookup in Hb as [_ ->]. }
  assert (Hmarked : forall k s, marked !! k = Some s ->
                                sameExtent s (sectionAt (splitLines text) n k)).
  { intros k s Hk.
    destruct (insert_sameExtent base i si _ k s Hsi (sameExtent_markCustomerInfo si) Hk)
      as (b & Hb & Hsb).
    now rewrite <- (Hbase k b Hb). }
  destruct H as [[Hd _] | (j & sj & Hsj & _ & _ & Hd)].
  - exists marked. split; [exact Hd|]. split; [|exact Hmarked].
    unfold marked. rewrite length_insert. apply createSections_length.
  - exists (<[j := markSignature sj]> marked). split; [exact Hd|]. split.
    + unfold marked. rewrite !length_insert. apply createSections_length.
    + intros k s Hk.
      destruct (insert_sameExtent marked j sj _ k s Hsj (sameExtent_markSignature sj) Hk)
        as (b & Hb & Hsb).
      eapply sameExtent_trans; [exact Hsb | now apply Hmarked].
Qed.

Lemma percentageOf_0 (n : Z) : percentageOf 0 n == 0.
Proof. unfold percentageOf. unfold Qdiv. now rewrite !Qmult_0_l. Qed.

Lemma percentageOf_full (n : Z) : (1 <= n)%Z -> percentageOf n n == 100.
Proof.
  intros Hn. unfold percentageOf. field.
  unfold Qeq. simpl. lia.
Qed.

(** [C4] For every text and every section count of at least 1,
    [divideDocumentIntoSections] returns exactly that many sections, the
    first one starts at 0, the last one ends at 100, and every section ends
    where the next one starts, whatever the sections contain. *)
Theorem C4_section_coverage (text : jsstring) (sectionCount : Z) :
  (1 <= sectionCount)%Z ->
  exists sections,
    divideDocumentIntoSections text sectionCount = Returns sections
    /\ length sections = Z.to_nat sectionCount
    /\ (exists s, sections !! 0%nat = Some s /\ startPercentage s == 0)
    /\ (exists s, sections !! (Z.to_nat sectionCount - 1)%nat = Some s
                  /\ endPercentage s == 100)
    /\ (forall i s t, sections !! i = Some s -> sections !! S i = Some t ->
                      endPercentage s = startPercentage t).
Proof.
  intros Hn. destruct (divide_extent text sectionCount Hn) as (sections & Hd & Hlen & Hext).
  exists sections. split; [exact Hd|]. split; [exact Hlen|]. repeat split.
  - destruct (lookup_lt_is_Some_2 sections 0) as [s Hs]; [lia|].
    exists s. split; [exact Hs|].
    destruct (Hext _ _ Hs) as (-> & _ & _). simpl. apply percentageOf_0.
  - destruct (lookup_lt_is_Some_2 sections (Z.to_nat sectionCount - 1)) as [s Hs]; [lia|].
    exists s. split; [exact Hs|].
    destruct (Hext _ _ Hs) as (_ & -> & _). simpl.
    replace (Z.of_nat (Z.to_nat sectionCount - 1) + 1)%Z with sectionCount by lia.
    now apply percentageOf_full.
  - intros i s t Hs Ht.
    destruct (Hext _ _ Hs) as (_ & -> & _). destruct (Hext _ _ Ht) as (-> & _ & _).
    simpl. f_equal. lia.
Qed.

(** ** The two tags *)

Lemma createSections_untagged (text : jsstring) (n : Z) (k : nat) (b : DocumentSection) :
  createSections text n !! k = Some b ->
  isCustomerInfoSection b = false /\ isSignatureSection b = false.
Proof. intros H. apply createSections_lookup in H as [_ ->]. auto. Qed.

Lemma hits_sameExtent (a b : DocumentSection) :
  sameExtent a b ->
  inTopPart a = inTopPart b /\ customerInfoHit a = customerInfoHit b
  /\ inBottomHalf a = inBottomHalf b /\ signatureHit a = signatureHit b.
Proof.
  intros (Hs & He & Hc).
  unfold inTopPart, customerInfoHit, inBottomHalf, signatureHit,
    looksLikeCustomerFields, looksLikeSignatureLines.
  now rewrite Hs, He, Hc.
Qed.

(** The array after the customer information section has been marked. *)
Lemma marked_lookup (base : list DocumentSection) (i : nat) (si : DocumentSection)
      (k : nat) (s : DocumentSection) :
  (forall k b, base !! k = Some b ->
               isCustomerInfoSection b = false /\ isSignatureSection b = false) ->
  base !! i = Some si ->
  <[i := markCustomerInfo si]> base !! k = Some s ->
  (isCustomerInfoSection s = true <-> k = i) /\ isSignatureSection s = false
  /\ exists b, base !! k = Some b /\ sameExtent s b.
Proof.
  intros Hbase Hi Hk.
  apply list_lookup_insert_Some in Hk as [(<- & <- & _) | (Hne & Hk)].
  - simpl. split; [tauto|]. split; [apply (Hbase _ _ Hi)|].
    exists si. split; [exact Hi | apply sameExtent_markCustomerInfo].
  - destruct (Hbase _ _ Hk) as [Hc Hs]. rewrite Hc. split.
    + split; [discriminate | intros ->; congruence].
    + split; [exact Hs|]. exists s. split; [exact Hk | apply sameExtent_refl].
Qed.

(** The reason for the customer information tag, carried over to an array
    whose sections cover what the sections of [base] cover. *)
Lemma why_transfer (base l : list DocumentSection) (i : nat) (si : DocumentSection) :
  base !! i = Some si ->
  (forall k s, l !! k = Some s -> exists b, base !! k = Some b /\ sameExtent s b) ->
  (inTopPart si = true /\ customerInfoHit si = true
   \/ i = 0%nat /\ forall k s, base !! k = Some s -> inTopPart s = true ->
                               customerInfoHit s = false) ->
  forall s, l !! i = Some s ->
    inTopPart s = true /\ customerInfoHit s = true
    \/ i = 0%nat /\ forall k t, l !! k = Some t -> inTopPart t = true ->
                                customerInfoHit t = false.
Proof.
  intros Hsi Hrel Hwhy s Hs.
  destruct Hwhy as [[Ht Hh] | [-> Hno]].
  - left. destruct (Hrel _ _ Hs) as (b & Hb & Hsb).
    assert (b = si) as -> by congruence.
    destruct (hits_sameExtent _ _ Hsb) as (E1 & E2 & _). now rewrite E1, E2.
  - right. split; [reflexivity|]. intros k t Ht Htop.
    destruct (Hrel _ _ Ht) as (b & Hb & Hsb).
    destruct (hits_sameExtent _ _ Hsb) as (E1 & E2 & _).
    rewrite E2. apply (Hno k b Hb). now rewrite <- E1.
Qed.

(** The tags of the sections [divideDocumentIntoSections] returns: [ci] is
    the one section marked as customer information, [sg] the section marked
    as signature section when there is one. *)
Lemma divide_tags (text : jsstring) (n : Z) :
  (1 <= n)%Z ->
  exists sections ci (sg : option nat),
    divideDocumentIntoSections text n = Returns sections
    /\ (ci < length sections)%nat
    /\ (forall k s, sections !! k = Some s ->
          (isCustomerInfoSection s = true <-> k = ci)
          /\ (isSignatureSection s = true <-> sg = Some k)
          /\ sameExtent s (sectionAt (splitLines text) n k))
    /\ (forall s, sections !! ci = Some s ->
          inTopPart s = true /\ customerInfoHit s = true
          \/ ci = 0%nat /\ forall k t, sections !! k = Some t ->
                              inTopPart t = true -> customerInfoHit t = false)
    /\ match sg with
       | Some j => exists s, sections !! j = Some s
                             /\ inBottomHalf s = true /\ signatureHit s = true
       | None => forall k s, sections !! k = Some s -> inBottomHalf s = true ->
                             signatureHit s = false
       end.
Proof.
  intros Hn. destruct (divide_shape text n Hn) as (i & si & Hsi & Hwhy & H).
  cbv zeta in H.
  set (base := createSections text n) in *.
  set (marked := <[i := markCustomerInfo si]> base) in *.
  assert (Hun := createSections_untagged text n). fold base in Hun.
  assert (Hm : forall k s, marked !! k = Some s ->
             (isCustomerInfoSection s = true <-> k = i)
             /\ isSignatureSection s = false
             /\ exists b, base !! k = Some b /\ sameExtent s b)
    by (intros k s Hk; exact (marked_lookup base i si k s Hun Hsi Hk)).
  assert (Hat : forall k b, base !! k = Some b -> b = sectionAt (splitLines text) n k)
    by (intros k b Hb; now apply createSections_lookup in Hb as [_ ->]).
  assert (Hlenm : length marked = length base)
    by (unfold marked; apply length_insert).
  assert (Hilt : (i < length base)%nat) by (now apply lookup_lt_Some in Hsi).
  destruct H as [[Hd Hno] | (j & sj & Hsj & Hb & Hh & Hd)].
  - exists marked, i, None. split; [exact Hd|]. split; [lia|]. split; [|split].
    + intros k s Hk. destruct (Hm k s Hk) as (H1 & H2 & b & Hkb & Hsb).
      split; [exact H1|]. split.
      * rewrite H2. split; discriminate.
      * now rewrite <- (Hat k b Hkb).
    + apply (why_transfer base marked i si Hsi); [|exact Hwhy].
      intros k s Hk. now destruct (Hm k s Hk) as (_ & _ & Hex).
    + exact Hno.
  - set (final := <[j := markSignature sj]> marked).
    assert (Hf : forall k s, final !! k = Some s ->
               (isCustomerInfoSection s = true <-> k = i)
               /\ (isSignatureSection s = true <-> Some j = Some k)
               /\ exists b, base !! k = Some b /\ sameExtent s b).
    { intros k s Hk. unfold final in Hk.
      apply list_lookup_insert_Some in Hk as [(<- & <- & _) | (Hne & Hk)].
      - destruct (Hm j sj Hsj) as (H1 & H2 & b & Hkb & Hsb). simpl.
        split; [exact H1|]. split; [tauto|].
        exists b. split; [exact Hkb|].
        eapply sameExtent_trans; [apply sameExtent_markSignature | exact Hsb].
      - destruct (Hm k s Hk) as (H1 & H2 & Hex).
        split; [exact H1|]. split; [|exact Hex].
        rewrite H2. split; [discriminate | intros [= ->]; congruence]. }
    exists final, i, (Some j). split; [exact Hd|]. split.
    { unfold final. rewrite length_insert. lia. }
    split; [|split].
    + intros k s Hk. destruct (Hf k s Hk) as (H1 & H2 & b & Hkb & Hsb).
      split; [exact H1|]. split; [exact H2|]. now rewrite <- (Hat k b Hkb).
    + apply (why_transfer base final i si Hsi); [|exact Hwhy].
      intros k s Hk. now destruct (Hf k s Hk) as (_ & _ & Hex).
    + exists (markSignature sj). split.
      * unfold final. apply list_lookup_insert_eq. now apply lookup_lt_Some in Hsj.
      * destruct (hits_sameExtent _ _ (sameExtent_markSignature sj)) as (_ & _ & E3 & E4).
        now rewrite E3, E4.
Qed.

(** [C9] (amended: for a section count of at least 1) Exactly one section
    is tagged as customer information: a section ending within the first
    40% that passes one of the keyword heuristics, and section 0 when no
    such section passes one.  At most one section is tagged as signature
    section; a tagged one starts at 50% or later and passes the signature
    keywords or the manager, director or signature-line tests, and when no
    such section does, no section is tagged. *)
Theorem C9_section_tags (text : jsstring) (sectionCount : Z) :
  (1 <= sectionCount)%Z ->
  exists sections ci,
    divideDocumentIntoSections text sectionCount = Returns sections
    /\ (exists s, sections !! ci = Some s /\ isCustomerInfoSection s = true)
    /\ (forall k s, sections !! k = Some s -> isCustomerInfoSection s = true -> k = ci)
    /\ (forall s, sections !! ci = Some s ->
          inTopPart s = true /\ customerInfoHit s = true
          \/ ci = 0%nat /\ forall k t, sections !! k = Some t ->
                              inTopPart t = true -> customerInfoHit t = false)
    /\ (forall k k' s s', sections !! k = Some s -> sections !! k' = Some s' ->
          isSignatureSection s = true -> isSignatureSection s' = true -> k = k')
    /\ (forall k s, sections !! k = Some s -> isSignatureSection s = true ->
          inBottomHalf s = true /\ signatureHit s = true)
    /\ ((forall k s, sections !! k = Some s -> inBottomHalf s = true ->
           signatureHit s = false) ->
        forall k s, sections !! k = Some s -> isSignatureSection s = false).
Proof.
  intros Hn.
  destruct (divide_tags text sectionCount Hn)
    as (sections & ci & sg & Hd & Hlt & Htags & Hwhy & Hsg).
  exists sections, ci. split; [exact Hd|].
  assert (Hsig : forall k s, sections !! k = Some s -> isSignatureSection s = true ->
                   sg = Some k /\ inBottomHalf s = true /\ signatureHit s = true).
  { intros k s Hk Hs. destruct (Htags k s Hk) as (_ & H2 & _).
    apply H2 in Hs. subst sg. destruct Hsg as (s' & Hk' & Hb & Hh).
    assert (s' = s) as -> by congruence. auto. }
  split; [|split; [|split; [|split; [|split]]]].
  - destruct (lookup_lt_is_Some_2 sections ci Hlt) as [s Hs].
    exists s. split; [exact Hs|]. now apply (Htags ci s Hs).
  - intros k s Hk Hc. now apply (Htags k s Hk).
  - exact Hwhy.
  - intros k k' s s' Hk Hk' Hs Hs'.
    destruct (Hsig k s Hk Hs) as [E _]. destruct (Hsig k' s' Hk' Hs') as [E' _].
    congruence.
  - intros k s Hk Hs. now destruct (Hsig k s Hk Hs) as [_ H].
  - intros Hno k s Hk. destruct (isSignatureSection s) eqn:Hs; [|reflexivity].
    destruct (Hsig k s Hk Hs) as (_ & Hb & Hh).
    rewrite (Hno k s Hk Hb) in Hh. discriminate.
Qed.

(** With no section to tag, the default index 0 of
    [detectCustomerInfoSection] makes the call fail. *)
Lemma divide_zero_throws (text : jsstring) :
  divideDocumentIntoSections text 0 = ThrowsTypeError.
Proof. reflexivity. Qed.

(** ** The search by bands *)

Lemma indexOfPattern_at (front rest : list RegExp) (p : RegExp) :
  ~ In p front ->
  indexOfPattern (front ++ p :: rest) p = Z.of_nat (length front).
Proof.
  induction front as [|d front IH]; intros Hnot; simpl.
  - destruct (RegExp_eq_dec p p); [reflexivity | congruence].
  - destruct (RegExp_eq_dec d p) as [-> | Hne].
    + exfalso. apply Hnot. now left.
    + rewrite IH by (intros H; apply Hnot; now right).
      destruct (Z.of_nat (length front)) eqn:E; lia.
Qed.

(** The loop over the patterns returns the first candidate of the place:
    the pattern it stops at is the first of the list that captures, so
    [indexOf] finds it where the loop stands. *)
Lemma tryPatterns_candidates (b : Band) (pl : Q * jsstring)
      (front todo : list RegExp) :
  (forall p, In p front -> capture 1 (str_match (snd pl) p) = None) ->
  tryPatterns (front ++ todo) todo (snd pl) (fst pl)
              (band_base b) (band_step b) (band_type b)
  = head (flat_map (candidateAt b pl)
                   (combine (seq (length front) (length todo)) todo)).
Proof.
  revert front. induction todo as [|p rest IH]; intros front Hfront; simpl.
  - reflexivity.
  - unfold candidateAt at 1. simpl.
    destruct (capture 1 (str_match (snd pl) p)) as [m|] eqn:Hc.
    + simpl. rewrite indexOfPattern_at; [reflexivity|].
      intros Hin. rewrite (Hfront p Hin) in Hc. discriminate.
    + simpl. specialize (IH (front ++ [p])).
      rewrite <- app_assoc in IH. simpl in IH.
      rewrite length_app in IH. simpl in IH.
      replace (length front + 1)%nat with (S (length front)) in IH by lia.
      apply IH. intros q Hq. apply in_app_or in Hq as [Hq | [<- | []]]; auto.
Qed.

Lemma head_app {A} (l1 l2 : list A) :
  head (l1 ++ l2) = match head l1 with Some x => Some x | None => head l2 end.
Proof. destruct l1; reflexivity. Qed.

(** The loop over the sections of a band returns the first candidate of
    the band. *)
Lemma trySections_places (b : Band) (patterns : list RegExp)
      (band : list DocumentSection) :
  trySections band patterns (band_base b) (band_step b) (band_type b)
  = head (flat_map (fun pl => flat_map (candidateAt b pl) (numbered patterns))
                   (map place band)).
Proof.
  induction band as [|s band IH]; simpl; [reflexivity|].
  rewrite head_app, <- IH.
  pose proof (tryPatterns_candidates b (place s) [] patterns) as H.
  simpl in H. unfold midpoint. rewrite H by (intros p []).
  reflexivity.
Qed.

Lemma trySections_candidates (patterns : list RegExp) (band : list DocumentSection)
      (base step : Z) (ty : option SectionType) :
  trySections band patterns base step ty
  = head (bandCandidates patterns (mkBand (map place band) base step ty)).
Proof. exact (trySections_places (mkBand (map place band) base step ty) patterns band). Qed.

(** The same for a band of one place. *)
Lemma tryPatterns_band (patterns : list RegExp) (text : jsstring) (pos : Q)
      (base step : Z) (ty : option SectionType) :
  tryPatterns patterns patterns text pos base step ty
  = head (bandCandidates patterns (mkBand [(pos, text)] base step ty)).
Proof.
  unfold bandCandidates. simpl. rewrite app_nil_r.
  exact (tryPatterns_candidates (mkBand [(pos, text)] base step ty) (pos, text)
           [] patterns (fun p (H : In p []) => match H with end)).
Qed.

(** [C1] For every section list and every pattern list,
    [findPatternInSections] returns the first candidate of the first band
    that has one, the bands being searched in the order customer
    information (95, minus 5 per pattern index), top (90, minus 5), middle
    (80, minus 5), any section outside the signature (75, minus 7),
    signature (30, minus 5) and the concatenation of all sections (45,
    minus 5, position 50); within a band the sections are scanned in index
    order and the patterns in list order, the position being the midpoint
    of the section; with no candidate the result is position -1, no match,
    confidence 0. *)
Theorem C1_band_search (sections : list DocumentSection) (patterns : list RegExp) :
  findPatternInSections sections patterns = searchByBands sections patterns.
Proof.
  unfold findPatternInSections, searchByBands, bandsOf. cbn [flat_map].
  rewrite !trySections_candidates.
  rewrite (tryPatterns_band patterns (joinLines (map content sections)) 50).
  assert (Hci : match List.find isCustomerInfoSection sections with
                | Some s => tryPatterns patterns patterns (content s) (midpoint s)
                                        95 5 (Some customerInfo)
                | None => None
                end
                = head (bandCandidates patterns
                          (mkBand (map place (option_to_list
                                     (List.find isCustomerInfoSection sections)))
                                  95 5 (Some customerInfo)))).
  { destruct (List.find isCustomerInfoSection sections) as [s|]; [|reflexivity].
    apply tryPatterns_band. }
  rewrite Hci. clear Hci.
  unfold isTop, isMiddle.
  set (c1 := bandCandidates patterns (mkBand _ 95 5 _)).
  set (c2 := bandCandidates patterns (mkBand _ 90 5 _)).
  set (c3 := bandCandidates patterns (mkBand _ 80 5 _)).
  set (c4 := bandCandidates patterns (mkBand _ 75 7 _)).
  set (c5 := bandCandidates patterns (mkBand _ 30 5 _)).
  set (c6 := bandCandidates patterns (mkBand _ 45 5 _)).
  clearbody c1 c2 c3 c4 c5 c6.
  destruct c1 as [|r1 c1]; [|reflexivity].
  destruct c2 as [|r2 c2]; [|reflexivity].
  destruct c3 as [|r3 c3]; [|reflexivity].
  destruct c4 as [|r4 c4]; [|reflexivity].
  destruct c5 as [|r5 c5]; [|reflexivity].
  destruct c6 as [|r6 c6]; reflexivity.
Qed.

(** ** Layout detection *)

Local Open Scope Q_scope.

Lemma Qltb_lt (a b : Q) : Qltb a b = true <-> a < b.
Proof.
  unfold Qltb. rewrite negb_true_iff. split.
  - intros H. apply Qnot_le_lt. intros Hle.
    apply Qle_bool_iff in Hle. congruence.
  - intros H. destruct (Qle_bool b a) eqn:E; [|reflexivity].
    apply Qle_bool_iff in E. exfalso. exact (Qlt_not_le _ _ H E).
Qed.

Lemma Qltb_ge (a b : Q) : Qltb a b = false <-> b <= a.
Proof.
  unfold Qltb. rewrite negb_false_iff. apply Qle_bool_iff.
Qed.

Local Close Scope Q_scope.

(** *** Rounding keeps the sign *)

Lemma hasSign_number (s : bool) (x : spec_float) : hasSign s x -> isNumber x.
Proof. destruct x; simpl; intros H; [discriminate..| destruct H | discriminate]. Qed.

Lemma shr_1_nonneg (mrs : shr_record) :
  (0 <= shr_m mrs)%Z -> (0 <= shr_m (shr_1 mrs))%Z.
Proof.
  destruct mrs as [m r s]. simpl.
  destruct m as [|p|p]; simpl; [lia | destruct p; simpl; lia | lia].
Qed.

Lemma iter_shr_1_nonneg (p : positive) : forall mrs,
  (0 <= shr_m mrs)%Z -> (0 <= shr_m (iter_pos shr_1 p mrs))%Z.
Proof.
  induction p as [p IH|p IH|]; intros mrs H; simpl.
  - apply IH, IH, shr_1_nonneg, H.
  - apply IH, IH, H.
  - apply shr_1_nonneg, H.
Qed.

Lemma shr_fexp_nonneg (m e : Z) (l : location) :
  (0 <= m)%Z -> (0 <= shr_m (fst (shr_fexp prec emax m e l)))%Z.
Proof.
  intros H. unfold shr_fexp, shr.
  assert (H0 : (0 <= shr_m (shr_record_of_loc m l))%Z).
  { destruct l as [|[| |]]; simpl; exact H. }
  destruct (_ - e)%Z; simpl; [exact H0 | | exact H0].
  apply iter_shr_1_nonneg, H0.
Qed.

Lemma round_nearest_even_nonneg (m : Z) (l : location) :
  (0 <= m)%Z -> (0 <= round_nearest_even m l)%Z.
Proof.
  intros H. unfold round_nearest_even.
  destruct l as [|[| |]]; [lia | | lia | lia]. destruct (Z.even m); lia.
Qed.

(** What the rounding of a mantissa that is not negative gives: a zero,
    a finite number or an infinity of the sign asked for, never [NaN]. *)
Lemma binary_round_aux_sign (sx : bool) (mx ex : Z) (lx : location) :
  (0 <= mx)%Z -> hasSign sx (binary_round_aux prec emax sx mx ex lx).
Proof.
  intros H. unfold binary_round_aux.
  pose proof (shr_fexp_nonneg mx ex lx H) as H1.
  destruct (shr_fexp prec emax mx ex lx) as [mrs' e'].
  simpl in H1.
  pose proof (shr_fexp_nonneg _ e' loc_Exact
                (round_nearest_even_nonneg _ (loc_of_shr_record mrs') H1)) as H2.
  destruct (shr_fexp prec emax (round_nearest_even _ _) e' loc_Exact) as [mrs'' e''].
  simpl in H2.
  destruct (shr_m mrs''); [reflexivity | | lia].
  destruct (Z.leb _ _); reflexivity.
Qed.

Lemma binary_round_sign (sx : bool) (mx : positive) (ex : Z) :
  hasSign sx (binary_round prec emax sx mx ex).
Proof.
  unfold binary_round. destruct (shl_align _ _ _) as [mz ez].
  apply binary_round_aux_sign. lia.
Qed.

Lemma binary_normalize_number (m e : Z) :
  isNumber (binary_normalize prec emax m e false).
Proof.
  destruct m; simpl; [discriminate | |]; eapply hasSign_number, binary_round_sign.
Qed.

Lemma binary_normalize_nonneg (m e : Z) :
  (0 <= m)%Z -> hasSign false (binary_normalize prec emax m e false).
Proof.
  destruct m; simpl; intros H; [reflexivity | apply binary_round_sign | lia].
Qed.

Ltac signs :=
  intros; simpl in *; subst; try contradiction; try discriminate; try congruence;
  try reflexivity.

Lemma SFadd_nonneg (x y : spec_float) :
  hasSign false x -> hasSign false y -> hasSign false (SF64add x y).
Proof.
  destruct x as [sx|sx| |sx mx ex], y as [sy|sy| |sy my ey]; signs.
  apply binary_normalize_nonneg. simpl. lia.
Qed.

Lemma SFmul_nonneg (m : positive) (e : Z) (y : spec_float) :
  hasSign false y -> hasSign false (SF64mul (S754_finite false m e) y).
Proof.
  destruct y as [sy|sy| |sy my ey]; signs.
  apply binary_round_aux_sign. lia.
Qed.

Lemma SFsub_number_r (x : spec_float) (s : bool) (m : positive) (e : Z) :
  isNumber x -> isNumber (SF64sub x (S754_finite s m e)).
Proof.
  unfold isNumber. destruct x as [sx|sx| |sx mx ex]; signs.
  apply binary_normalize_number.
Qed.

Lemma SFsub_number_l (s : bool) (m : positive) (e : Z) (y : spec_float) :
  isNumber y -> isNumber (SF64sub (S754_finite s m e) y).
Proof.
  unfold isNumber. destruct y as [sy|sy| |sy my ey]; signs.
  apply binary_normalize_number.
Qed.

Lemma SFabs_number (x : spec_float) : isNumber x -> isNumber (SFabs x).
Proof. unfold isNumber. destruct x; signs. Qed.

Lemma SFdiv_number (x : spec_float) (s : bool) (m : positive) (e : Z) :
  isNumber x -> isNumber (SF64div x (S754_finite s m e)).
Proof.
  unfold isNumber. destruct x as [sx|sx| |sx mx ex]; signs.
  unfold SF64div, SFdiv, SFdiv_core_binary.
  set (sh := (_ - _ - _)%Z).
  set (m' := match sh with Z0 => Zpos mx | Zpos _ => Z.shiftl (Zpos mx) sh
                      | Zneg _ => 0%Z end).
  assert (Hm : (0 <= m')%Z).
  { unfold m'. destruct sh; [lia | apply Z.shiftl_nonneg; lia | lia]. }
  pose proof (Z.div_pos m' (Zpos m) Hm ltac:(lia)) as Hq.
  unfold Z.div in Hq. destruct (Z.div_eucl m' (Zpos m)) as [q r].
  eapply hasSign_number. apply binary_round_aux_sign. exact Hq.
Qed.

(** *** The order of the numbers *)

Lemma compare_cont_spec (m n : positive) :
  CompareSpec (m = n) (m < n)%positive (n < m)%positive (Pos.compare_cont Eq m n).
Proof. exact (Pos.compare_spec m n). Qed.

Ltac orders :=
  repeat match goal with
         | |- context [Z.compare ?a ?b] => destruct (Z.compare_spec a b)
         | |- context [Pos.compare_cont Eq ?a ?b] => destruct (compare_cont_spec a b)
         end;
  simpl; split; intros; try discriminate; try reflexivity; try lia.

Lemma SFltb_rank (x y : spec_float) :
  isNumber x -> isNumber y -> (SFltb x y = true <-> rankLt (rank x) (rank y)).
Proof.
  unfold isNumber, SFltb, SFcompare.
  destruct x as [sx|sx| |sx mx ex], y as [sy|sy| |sy my ey]; intros Hx Hy;
    try congruence;
    try destruct sx; try destruct sy; simpl; orders.
Qed.

Lemma SFleb_rank (x y : spec_float) :
  isNumber x -> isNumber y ->
  (SFleb x y = true <-> rankLt (rank x) (rank y) \/ rank x = rank y).
Proof.
  unfold isNumber, SFleb, SFcompare.
  destruct x as [sx|sx| |sx mx ex], y as [sy|sy| |sy my ey]; intros Hx Hy;
    try congruence;
    try destruct sx; try destruct sy; simpl; orders;
    try (right; f_equal; try f_equal; lia);
    try match goal with
        | H : _ \/ _ |- _ => destruct H as [H | H]; [lia | inversion H; lia]
        end.
Qed.

Lemma SFeqb_refl (x : spec_float) : SFeqb x x = true <-> isNumber x.
Proof.
  unfold SFeqb, SFcompare, isNumber.
  destruct x as [s|s| |s m e]; simpl.
  - split; [discriminate | reflexivity].
  - destruct s; (split; [discriminate | reflexivity]).
  - split; [discriminate | congruence].
  - rewrite Z.compare_refl.
    assert (E : Pos.compare_cont Eq m m = Eq) by apply Pos.compare_refl.
    rewrite E. destruct s; (split; [discriminate | reflexivity]).
Qed.

Local Open Scope float_scope.

Lemma is_nan_spec (x : float) : is_nan x = false <-> isNumber (Prim2SF x).
Proof.
  unfold is_nan. rewrite eqb_spec, negb_false_iff. apply SFeqb_refl.
Qed.

Lemma ltb_rank (x y : float) :
  is_nan x = false -> is_nan y = false ->
  ((x <? y) = true <-> rankLt (rank (Prim2SF x)) (rank (Prim2SF y))).
Proof.
  rewrite !is_nan_spec, ltb_spec. apply SFltb_rank.
Qed.

Lemma leb_rank (x y : float) :
  is_nan x = false -> is_nan y = false ->
  ((x <=? y) = true
   <-> rankLt (rank (Prim2SF x)) (rank (Prim2SF y))
       \/ rank (Prim2SF x) = rank (Prim2SF y)).
Proof.
  rewrite !is_nan_spec, leb_spec. apply SFleb_rank.
Qed.

Lemma ltb_number (x y : float) :
  (x <? y) = true -> is_nan x = false /\ is_nan y = false.
Proof.
  rewrite ltb_spec, !is_nan_spec. unfold SFltb, SFcompare, isNumber.
  destruct (Prim2SF x), (Prim2SF y); intros H; split; congruence.
Qed.

Ltac ranks :=
  repeat match goal with
         | |- context [rank ?x] =>
             let a := fresh "a" in let b := fresh "b" in let c := fresh "c" in
             destruct (rank x) as [[a b] c]
         | H : context [rank ?x] |- _ =>
             let a := fresh "a" in let b := fresh "b" in let c := fresh "c" in
             destruct (rank x) as [[a b] c]
         end;
  unfold rankLt in *;
  repeat match goal with
         | H : (_, _, _) = (_, _, _) |- _ => injection H as ? ? ?
         | H : _ \/ (_, _, _) = (_, _, _) |- _ => destruct H as [H | H]
         end;
  try lia.

Section Order.

Variables x y z : float.
Hypothesis Hx : is_nan x = false.
Hypothesis Hy : is_nan y = false.
Hypothesis Hz : is_nan z = false.

Lemma ltb_irrefl : (x <? x) = false.
Proof.
  apply not_true_is_false. rewrite (ltb_rank x x Hx Hx). ranks.
Qed.

Lemma leb_refl : (x <=? x) = true.
Proof. rewrite (leb_rank x x Hx Hx). now right. Qed.

Lemma ltb_leb : (x <? y) = true -> (x <=? y) = true.
Proof. rewrite (ltb_rank x y Hx Hy), (leb_rank x y Hx Hy). now left. Qed.

Lemma nltb_leb : (x <? y) = false -> (y <=? x) = true.
Proof.
  intros H. apply not_true_iff_false in H.
  rewrite (ltb_rank x y Hx Hy) in H. rewrite (leb_rank y x Hy Hx).
  ranks.
  assert (a0 = a /\ b0 = b /\ c0 = c
          \/ (a < a0 \/ a = a0 /\ (b < b0 \/ b = b0 /\ c < c0)))%Z
    as [(-> & -> & ->) | H'] by lia; [now right | now left].
Qed.

Lemma leb_ltb_trans : (x <=? y) = true -> (y <? z) = true -> (x <? z) = true.
Proof.
  rewrite (leb_rank x y Hx Hy), (ltb_rank y z Hy Hz), (ltb_rank x z Hx Hz).
  intros H1 H2. ranks.
Qed.

Lemma ltb_trans : (x <? y) = true -> (y <? z) = true -> (x <? z) = true.
Proof.
  rewrite (ltb_rank x y Hx Hy), (ltb_rank y z Hy Hz), (ltb_rank x z Hx Hz).
  intros H1 H2. ranks.
Qed.

Lemma leb_trans : (x <=? y) = true -> (y <=? z) = true -> (x <=? z) = true.
Proof.
  rewrite (leb_rank x y Hx Hy), (leb_rank y z Hy Hz), (leb_rank x z Hx Hz).
  intros H1 H2. ranks; subst; first [now right | left; lia].
Qed.

End Order.

(** A number that is not negative and not above 0 is [+0]. *)
Lemma nonneg_zero (x : float) :
  hasSign false (Prim2SF x) -> (0 <? x) = false -> x = 0.
Proof.
  intros Hs Hlt. apply Prim2SF_inj.
  rewrite ltb_spec in Hlt. change (Prim2SF 0) with (S754_zero false) in *.
  destruct (Prim2SF x) as [s|s| |s m e]; simpl in Hs; subst;
    try reflexivity; try contradiction; discriminate Hlt.
Qed.

(** *** The scores *)

Lemma Math_max_0 (x : float) :
  is_nan x = false -> hasSign false (Prim2SF (Math_max 0 x)).
Proof.
  intros Hx. unfold Math_max. rewrite Hx.
  change (is_nan 0) with false. cbn [orb].
  destruct (0 <? x) eqn:Hlt.
  - rewrite ltb_spec in Hlt. change (Prim2SF 0) with (S754_zero false) in Hlt.
    destruct (Prim2SF x) as [s|s| |s m e]; simpl in *; try discriminate;
      destruct s; try discriminate; reflexivity.
  - destruct (x <? 0); [reflexivity|].
    change (PrimFloat.Leibniz.eqb 0 neg_zero) with false. reflexivity.
Qed.

Lemma is_nan_sign (s : bool) (x : float) : hasSign s (Prim2SF x) -> is_nan x = false.
Proof. intros H. apply is_nan_spec. eapply hasSign_number, H. Qed.

Lemma fieldScore_sign (pos : float) (place : FieldPlace) :
  is_nan pos = false -> measurable place = true ->
  hasSign false (Prim2SF (fieldScore pos place)).
Proof.
  intros Hpos Hplace. unfold measurable, finiteNumber in Hplace.
  apply andb_true_iff in Hplace as [He Ht].
  unfold fieldScore, Math_abs. cbv zeta.
  rewrite mul_spec. change (Prim2SF 25) with (S754_finite false 7036874417766400 (-48)).
  apply SFmul_nonneg, Math_max_0, is_nan_spec.
  rewrite sub_spec. change (Prim2SF 1) with (S754_finite false 4503599627370496 (-52)).
  apply SFsub_number_l.
  rewrite div_spec.
  destruct (Prim2SF (tolerance place)) as [| | |st mt et]; try discriminate Ht.
  apply SFdiv_number.
  rewrite abs_spec. apply SFabs_number.
  rewrite sub_spec.
  destruct (Prim2SF (expectedLocation place)) as [| | |se me ee]; try discriminate He.
  apply SFsub_number_r. now apply is_nan_spec.
Qed.

Lemma formLayouts_measurable (l : FormLayout) :
  In l formLayouts -> measurableLayout l = true.
Proof.
  intros H. repeat (destruct H as [<- | H]; [vm_compute; reflexivity|]). destruct H.
Qed.

(** A score is a number that is not negative, whatever numbers the
    positions are. *)
Lemma score_sign (np ap ip sp : float) (l : FormLayout) :
  is_nan np = false -> is_nan ap = false -> is_nan ip = false -> is_nan sp = false ->
  measurableLayout l = true ->
  hasSign false (Prim2SF (calculateLayoutMatchScore np ap ip sp l)).
Proof.
  intros Hn Ha Hi Hs Hl. unfold calculateLayoutMatchScore.
  destruct (_ || _); [reflexivity|]. cbv zeta.
  unfold measurableLayout in Hl.
  apply andb_true_iff in Hl as [Hl H4]. apply andb_true_iff in Hl as [Hl H3].
  apply andb_true_iff in Hl as [H1 H2].
  rewrite !add_spec.
  repeat apply SFadd_nonneg; now apply fieldScore_sign.
Qed.

Lemma score_missing (np ap ip sp : float) (l : FormLayout) :
  (np <? 0) = true \/ (ap <? 0) = true \/ (ip <? 0) = true \/ (sp <? 0) = true ->
  calculateLayoutMatchScore np ap ip sp l = 0.
Proof.
  intros H. unfold calculateLayoutMatchScore.
  assert (E : (np <? 0) || (ap <? 0) || (ip <? 0) || (sp <? 0) = true).
  { destruct H as [H | [H | [H | H]]]; rewrite H; rewrite ?orb_true_r; reflexivity. }
  now rewrite E.
Qed.

(** [NaN] goes through every operation: a position that is [NaN] makes
    its field score, and with it the score of the template, [NaN]. *)
Lemma is_nan_true (x : float) : is_nan x = true <-> Prim2SF x = S754_nan.
Proof.
  split; intros H.
  - destruct (Prim2SF x) eqn:E; try reflexivity; exfalso;
      assert (Hn : is_nan x = false) by (apply is_nan_spec; rewrite E; discriminate);
      congruence.
  - destruct (is_nan x) eqn:E; [reflexivity|].
    apply is_nan_spec in E. contradiction.
Qed.

Lemma add_nan_l (x y : float) : is_nan x = true -> is_nan (x + y) = true.
Proof.
  rewrite !is_nan_true, add_spec. intros ->. reflexivity.
Qed.

Lemma add_nan_r (x y : float) : is_nan y = true -> is_nan (x + y) = true.
Proof.
  rewrite !is_nan_true, add_spec. intros ->. now destruct (Prim2SF x).
Qed.

Lemma ltb_nan_r (x y : float) : is_nan y = true -> (x <? y) = false.
Proof.
  rewrite is_nan_true, ltb_spec. intros ->. unfold SFltb, SFcompare.
  now destruct (Prim2SF x).
Qed.

Lemma fieldScore_nan (pos : float) (place : FieldPlace) :
  is_nan pos = true -> is_nan (fieldScore pos place) = true.
Proof.
  intros Hpos. apply is_nan_true in Hpos.
  assert (Hdev : is_nan (1 - Math_abs (pos - expectedLocation place) / tolerance place)
                 = true).
  { apply is_nan_true. unfold Math_abs.
    rewrite sub_spec, div_spec, abs_spec, sub_spec, Hpos.
    change (Prim2SF 1) with (S754_finite false 4503599627370496 (-52)).
    reflexivity. }
  unfold fieldScore. cbv zeta. unfold Math_max. rewrite Hdev, orb_true_r.
  reflexivity.
Qed.

Lemma score_nan (np ap ip sp : float) (l : FormLayout) :
  (np <? 0) = false -> (ap <? 0) = false -> (ip <? 0) = false -> (sp <? 0) = false ->
  is_nan np = true \/ is_nan ap = true \/ is_nan ip = true \/ is_nan sp = true ->
  is_nan (calculateLayoutMatchScore np ap ip sp l) = true.
Proof.
  intros Hn Ha Hi Hs H. unfold calculateLayoutMatchScore.
  rewrite Hn, Ha, Hi, Hs. cbn [orb]. cbv zeta.
  destruct H as [H | [H | [H | H]]].
  - now apply add_nan_l, add_nan_l, add_nan_l, fieldScore_nan.
  - now apply add_nan_l, add_nan_l, add_nan_r, fieldScore_nan.
  - now apply add_nan_l, add_nan_r, fieldScore_nan.
  - now apply add_nan_r, fieldScore_nan.
Qed.

(** *** The loop *)

(** The loop of [detectFormLayout]: either no layout beats the initial
    score, or the state holds the first layout of the best score. *)
Lemma detect_fold (np ap ip sp : float) (catalog : list FormLayout)
      (st : FormLayout * float) :
  let score := calculateLayoutMatchScore np ap ip sp in
  let st' := fold_left (detectStep np ap ip sp) catalog st in
  is_nan (snd st) = false ->
  (forall l, In l catalog -> is_nan (score l) = false) ->
  is_nan (snd st') = false
  /\ (forall l, In l catalog -> (score l <=? snd st') = true)
  /\ (st' = st
      \/ (snd st <? snd st') = true
         /\ exists front rest, catalog = front ++ fst st' :: rest
              /\ snd st' = score (fst st')
              /\ forall l, In l front -> (score l <? score (fst st')) = true).
Proof.
  intros score. cbv zeta. revert st.
  induction catalog as [|x catalog IH]; intros st Hst Hnum; simpl.
  - split; [exact Hst|]. split; [intros l [] | now left].
  - assert (Hx : is_nan (score x) = false) by (apply Hnum; now left).
    assert (Hstep : is_nan (snd (detectStep np ap ip sp st x)) = false).
    { unfold detectStep. fold score. destruct (snd st <? score x); assumption. }
    specialize (IH (detectStep np ap ip sp st x) Hstep
                   (fun l Hl => Hnum l (or_intror Hl))).
    destruct IH as (Hnum' & Hmax & Hfirst).
    set (st' := fold_left (detectStep np ap ip sp) catalog
                          (detectStep np ap ip sp st x)) in *.
    assert (Hmono : (snd (detectStep np ap ip sp st x) <=? snd st') = true).
    { destruct Hfirst as [-> | [Hlt _]];
        [now apply leb_refl | now apply ltb_leb]. }
    split; [exact Hnum'|].
    unfold detectStep in Hmax, Hfirst, Hmono, Hstep, st' |- *.
    fold score in Hmax, Hfirst, Hmono, Hstep, st' |- *.
    destruct (snd st <? score x) eqn:Ex.
    + (* [x] takes the lead *)
      simpl in *. split.
      * intros l [<- | Hl]; [exact Hmono | now apply Hmax].
      * right. destruct Hfirst as [E | (Hlt & front & rest & Hc & Hs & Hf)].
        -- rewrite E. simpl. split; [exact Ex|].
           exists [], catalog. simpl. repeat split. intros l [].
        -- split; [exact (ltb_trans _ _ _ Hst Hx Hnum' Ex Hlt)|].
           exists (x :: front), rest. split; [now rewrite Hc|].
           split; [exact Hs|].
           intros l [<- | Hl]; [now rewrite <- Hs | now apply Hf].
    + (* the state is kept *)
      pose proof (nltb_leb _ _ Hst Hx Ex) as Hle. split.
      * intros l [<- | Hl]; [|now apply Hmax].
        exact (leb_trans _ _ _ Hx Hst Hnum' Hle Hmono).
      * destruct Hfirst as [E | (Hlt & front & rest & Hc & Hs & Hf)]; [now left|].
        right. split; [exact Hlt|].
        exists (x :: front), rest. split; [now rewrite Hc|].
        split; [exact Hs|].
        intros l [<- | Hl]; [|now apply Hf].
        rewrite <- Hs. exact (leb_ltb_trans _ _ _ Hx Hst Hnum' Hle Hlt).
Qed.

(** The layout [detectFormLayout] returns is the first of the catalog with
    the highest score, and its confidence is that score. *)
Lemma detectFormLayout_best (np ap ip sp : float) :
  let score := calculateLayoutMatchScore np ap ip sp in
  let d := detectFormLayout np ap ip sp in
  is_nan np = false -> is_nan ap = false -> is_nan ip = false -> is_nan sp = false ->
  layoutConfidence d = score (layout d)
  /\ (forall l, In l formLayouts -> (score l <=? layoutConfidence d) = true)
  /\ exists front rest, formLayouts = front ++ layout d :: rest
       /\ forall l, In l front -> (score l <? score (layout d)) = true.
Proof.
  intros score d Hn Ha Hi Hs.
  assert (Hsign : forall l, In l formLayouts -> hasSign false (Prim2SF (score l))).
  { intros l Hl. apply score_sign; try assumption. now apply formLayouts_measurable. }
  assert (Hfirst0 : In standardLayout formLayouts) by now left.
  pose proof (detect_fold np ap ip sp formLayouts (standardLayout, 0) eq_refl
                (fun l Hl => is_nan_sign _ _ (Hsign l Hl))) as H.
  fold score in H.
  unfold d, detectFormLayout, detectIn.
  change (hd standardLayout formLayouts) with standardLayout.
  destruct (fold_left (detectStep np ap ip sp) formLayouts (standardLayout, 0))
    as [best hi] eqn:E.
  cbn [fst snd layout layoutConfidence] in *.
  destruct H as (_ & Hmax & Hfirst). split; [|split].
  - destruct Hfirst as [[= -> ->] | (_ & _ & _ & _ & -> & _)]; [|reflexivity].
    symmetry. apply nonneg_zero; [now apply Hsign|].
    assert (Hs0 : is_nan (score standardLayout) = false)
      by (eapply is_nan_sign, Hsign, Hfirst0).
    destruct (0 <? score standardLayout) eqn:Hlt; [|reflexivity].
    pose proof (leb_ltb_trans (score standardLayout) 0 (score standardLayout)
                              Hs0 eq_refl Hs0 (Hmax _ Hfirst0) Hlt) as Hbad.
    now rewrite (ltb_irrefl _ Hs0) in Hbad.
  - exact Hmax.
  - destruct Hfirst as [[= -> ->] | (_ & front & rest & Hc & _ & Hf)].
    + exists [], (tl formLayouts). split; [reflexivity | intros l []].
    + exists front, rest. auto.
Qed.

Lemma detectIn_all_zero (np ap ip sp : float) (catalog : list FormLayout)
      (first : FormLayout) :
  (forall l, calculateLayoutMatchScore np ap ip sp l = 0) ->
  detectIn catalog first np ap ip sp = mkDetection first 0.
Proof.
  intros Hz. unfold detectIn.
  assert (E : fold_left (detectStep np ap ip sp) catalog (first, 0) = (first, 0)).
  { induction catalog as [|x catalog IH]; simpl; [reflexivity|].
    unfold detectStep at 2. rewrite Hz. simpl. exact IH. }
  now rewrite E.
Qed.

Lemma detectIn_all_nan (np ap ip sp : float) (catalog : list FormLayout)
      (first : FormLayout) :
  (forall l, is_nan (calculateLayoutMatchScore np ap ip sp l) = true) ->
  detectIn catalog first np ap ip sp = mkDetection first 0.
Proof.
  intros Hz. unfold detectIn.
  assert (E : fold_left (detectStep np ap ip sp) catalog (first, 0) = (first, 0)).
  { induction catalog as [|x catalog IH]; simpl; [reflexivity|].
    unfold detectStep at 2. rewrite (ltb_nan_r _ _ (Hz x)). exact IH. }
  now rewrite E.
Qed.

(** [C3] [detectFormLayout] scores every template of the catalog as the
    sum over the four fields of
    [25 * max(0, 1 - |actual - expected| / tolerance)], computed in doubles
    as the code computes it; it returns the template with the highest
    score, the first of the catalog on ties, and the confidence returned
    equals that score; if one of the four positions is below 0 (-1 stands
    for a field not found) every template scores 0, the confidence is
    exactly 0 and the layout is the first template of the catalog.  The
    positions are any doubles: for a position that is [NaN], which no
    extractor returns, and none below 0, every score is [NaN] and the
    result is the first template with confidence 0 again. *)
Theorem C3_layout_detection (np ap ip sp : float) :
  let score := calculateLayoutMatchScore np ap ip sp in
  let d := detectFormLayout np ap ip sp in
  ((np <? 0) = false -> (ap <? 0) = false -> (ip <? 0) = false -> (sp <? 0) = false ->
   forall l,
     score l
     = 25 * Math_max 0 (1 - Math_abs (np - expectedLocation (nameSection l))
                            / tolerance (nameSection l))
       + 25 * Math_max 0 (1 - Math_abs (ap - expectedLocation (amountSection l))
                              / tolerance (amountSection l))
       + 25 * Math_max 0 (1 - Math_abs (ip - expectedLocation (ibanSection l))
                              / tolerance (ibanSection l))
       + 25 * Math_max 0 (1 - Math_abs (sp - expectedLocation (serviceNumberSection l))
                              / tolerance (serviceNumberSection l)))
  /\ (is_nan np = false -> is_nan ap = false -> is_nan ip = false ->
      is_nan sp = false ->
      layoutConfidence d = score (layout d)
      /\ (forall l, In l formLayouts -> (score l <=? layoutConfidence d) = true)
      /\ exists front rest, formLayouts = front ++ layout d :: rest
           /\ forall l, In l front -> (score l <? score (layout d)) = true)
  /\ ((np <? 0) = true \/ (ap <? 0) = true \/ (ip <? 0) = true \/ (sp <? 0) = true ->
      (forall l, score l = 0) /\ layoutConfidence d = 0
      /\ layout d = standardLayout /\ head formLayouts = Some standardLayout)
  /\ ((np <? 0) = false -> (ap <? 0) = false -> (ip <? 0) = false ->
      (sp <? 0) = false ->
      is_nan np = true \/ is_nan ap = true \/ is_nan ip = true \/ is_nan sp = true ->
      (forall l, is_nan (score l) = true) /\ layoutConfidence d = 0
      /\ layout d = standardLayout).
Proof.
  intros score d. split; [|split; [|split]].
  - intros Hn Ha Hi Hs l. unfold score, calculateLayoutMatchScore.
    now rewrite Hn, Ha, Hi, Hs.
  - apply detectFormLayout_best.
  - intros Hneg.
    assert (Hz : forall l, score l = 0) by (intros l; now apply score_missing).
    split; [exact Hz|].
    unfold d, detectFormLayout.
    rewrite (detectIn_all_zero np ap ip sp formLayouts _ Hz). auto.
  - intros Hn Ha Hi Hs Hnan.
    assert (Hz : forall l, is_nan (score l) = true)
      by (intros l; now apply score_nan).
    split; [exact Hz|].
    unfold d, detectFormLayout.
    rewrite (detectIn_all_nan np ap ip sp formLayouts _ Hz). auto.
Qed.

Local Close Scope float_scope.

(** ** The pattern registry *)

(** [C10] For every field type, [getPatterns] returns the empty list when
    the service has not completed [initialize], and when the registry has
    no entry for the field type; being a total function of the state it
    raises nothing. *)
Theorem C10_getPatterns_total (svc : TrainingService) (fieldType : jsstring) :
  (initialized svc = false -> getPatterns svc fieldType = [])
  /\ (patternRegistry svc !! fieldType = None -> getPatterns svc fieldType = [])
  /\ exists patterns, getPatterns svc fieldType = patterns.
Proof.
  unfold getPatterns. split; [|split].
  - intros ->. reflexivity.
  - intros ->. now destruct (initialized svc).
  - eauto.
Qed.

(** ** Confidence of the extracted fields *)

Lemma indexOfPattern_bounds (patterns : list RegExp) (p : RegExp) :
  In p patterns ->
  (0 <= indexOfPattern patterns p <= Z.of_nat (length patterns) - 1)%Z.
Proof.
  induction patterns as [|x patterns IH]; intros Hin; [destruct Hin|].
  simpl. destruct (RegExp_eq_dec x p) as [-> | Hne]; [lia|].
  destruct Hin as [-> | Hin]; [congruence|].
  specialize (IH Hin). destruct (indexOfPattern patterns p); lia.
Qed.

(** A match of the loop over the patterns: its confidence lies between the
    base of the band lowered for the last pattern and the base itself. *)
Lemma tryPatterns_bounds (patterns todo : list RegExp) (text : jsstring) (pos : Q)
      (base step : Z) (ty : option SectionType) (r : SearchResult) :
  (0 <= step)%Z ->
  (forall p, In p todo -> In p patterns) ->
  tryPatterns patterns todo text pos base step ty = Some r ->
  (base - (Z.of_nat (length patterns) - 1) * step <= confidence r <= base)%Z
  /\ sectionType r = ty /\ (exists m, matched r = Some m /\ m <> []).
Proof.
  intros Hstep. induction todo as [|p rest IH]; intros Hsub H; simpl in H.
  - discriminate.
  - destruct (capture 1 (str_match text p)) as [m|] eqn:Hc.
    + injection H as <-. simpl.
      pose proof (indexOfPattern_bounds patterns p (Hsub p (or_introl eq_refl))) as Hb.
      split; [nia|]. split; [reflexivity|]. exists m. split; [reflexivity|].
      unfold capture in Hc. destruct (str_match text p) as [a|]; [|discriminate].
      unfold truthy in Hc. destruct (group 1 a) as [[|c g]|]; try discriminate.
      injection Hc as <-. discriminate.
    + apply IH; [|exact H]. intros q Hq. apply Hsub. now right.
Qed.

Lemma trySections_bounds (band : list DocumentSection) (patterns : list RegExp)
      (base step : Z) (ty : option SectionType) (r : SearchResult) :
  (0 <= step)%Z ->
  trySections band patterns base step ty = Some r ->
  (base - (Z.of_nat (length patterns) - 1) * step <= confidence r <= base)%Z
  /\ sectionType r = ty /\ (exists m, matched r = Some m /\ m <> []).
Proof.
  intros Hstep. induction band as [|s band IH]; intros H; simpl in H.
  - discriminate.
  - destruct (tryPatterns patterns patterns (content s) (midpoint s) base step ty)
      as [r'|] eqn:Ht.
    + injection H as <-. eapply tryPatterns_bounds; eauto.
    + now apply IH.
Qed.

(** The confidence of [findPatternInSections].  [m] is the index of the
    last pattern of the list. *)
Lemma findPatternInSections_bounds (sections : list DocumentSection)
      (patterns : list RegExp) :
  let r := findPatternInSections sections patterns in
  let m := (Z.of_nat (length patterns) - 1)%Z in
  (matched r = None /\ confidence r = 0%Z /\ sectionType r = None)
  \/ ((exists v, matched r = Some v /\ v <> [])
      /\ (sectionType r = Some signature /\ (30 - 5 * m <= confidence r <= 30)%Z
          \/ sectionType r <> Some signature
             /\ (Z.min (75 - 7 * m) (45 - 5 * m) <= confidence r <= 95)%Z)).
Proof.
  intros r m. unfold r, findPatternInSections.
  destruct (match List.find isCustomerInfoSection sections with
            | Some s => _ | None => None end) as [r1|] eqn:H1.
  { right. destruct (List.find isCustomerInfoSection sections) as [s|]; [|discriminate].
    apply tryPatterns_bounds in H1 as (Hb & Ht & Hm); [|lia|auto].
    split; [exact Hm|]. right. rewrite Ht. split; [discriminate|]. fold m in Hb. lia. }
  destruct (trySections _ patterns 90 5 (Some top)) as [r2|] eqn:H2.
  { right. apply trySections_bounds in H2 as (Hb & Ht & Hm); [|lia].
    split; [exact Hm|]. right. rewrite Ht. split; [discriminate|]. fold m in Hb. lia. }
  destruct (trySections _ patterns 80 5 (Some middle)) as [r3|] eqn:H3.
  { right. apply trySections_bounds in H3 as (Hb & Ht & Hm); [|lia].
    split; [exact Hm|]. right. rewrite Ht. split; [discriminate|]. fold m in Hb. lia. }
  destruct (trySections _ patterns 75 7 None) as [r4|] eqn:H4.
  { right. apply trySections_bounds in H4 as (Hb & Ht & Hm); [|lia].
    split; [exact Hm|]. right. rewrite Ht. split; [discriminate|]. fold m in Hb. lia. }
  destruct (trySections _ patterns 30 5 (Some signature)) as [r5|] eqn:H5.
  { right. apply trySections_bounds in H5 as (Hb & Ht & Hm); [|lia].
    split; [exact Hm|]. left. rewrite Ht. split; [reflexivity|]. fold m in Hb. lia. }
  destruct (tryPatterns patterns patterns _ 50 45 5 None) as [r6|] eqn:H6.
  { right. apply tryPatterns_bounds in H6 as (Hb & Ht & Hm); [|lia|auto].
    split; [exact Hm|]. right. rewrite Ht. split; [discriminate|]. fold m in Hb. lia. }
  left. auto.
Qed.

Lemma fromCustomerInfo_confidence (s : DocumentSection) (patterns : list RegExp)
      (r : FieldResult) :
  fromCustomerInfo s patterns = Some r -> fconfidence r = 98%Z \/ fconfidence r = 95%Z.
Proof.
  unfold fromCustomerInfo.
  destruct (capture 1 _); [intros [= <-]; auto|].
  destruct (capture 2 _); [intros [= <-]; auto|].
  destruct (firstCapture _ _); [intros [= <-]; auto | discriminate].
Qed.

Lemma scanTop_confidence (band : list DocumentSection) (patterns : list RegExp)
      (titleConf generalConf : Z) (r : FieldResult) :
  scanTop band patterns titleConf generalConf = Some r ->
  fconfidence r = titleConf \/ fconfidence r = generalConf.
Proof.
  induction band as [|s band IH]; simpl; [discriminate|].
  destruct (capture 2 _); [intros [= <-]; auto|].
  destruct (firstCapture _ _); [intros [= <-]; auto | exact IH].
Qed.

Lemma nameFallback_confidence (band : list DocumentSection) (r : FieldResult) :
  nameFallback band = Some r ->
  fconfidence r = 80%Z \/ fconfidence r = 70%Z \/ fconfidence r = 60%Z.
Proof.
  induction band as [|s band IH]; simpl; [discriminate|].
  destruct (capture 1 _); [|exact IH].
  intros [= <-]. simpl.
  destruct (isCustomerInfoSection s); [auto|].
  destruct (Qle_bool _ _); auto.
Qed.

Lemma amountFallback_confidence (band : list DocumentSection) (r : FieldResult) :
  amountFallback band = Some r -> fconfidence r = 60%Z \/ fconfidence r = 40%Z.
Proof.
  induction band as [|s band IH]; simpl; [discriminate|].
  destruct (capture 1 _); [|exact IH].
  intros [= <-]. simpl.
  match goal with |- context [if ?b then _ else _] => destruct b end; auto.
Qed.

Lemma ibanFallback_confidence (band : list DocumentSection) (r : FieldResult) :
  ibanFallback band = Some r -> fconfidence r = 60%Z.
Proof.
  induction band as [|s band IH]; simpl; [discriminate|].
  destruct (capture 1 _); [|exact IH].
  now intros [= <-].
Qed.

Lemma serviceFallback_confidence (band : list DocumentSection) (r : FieldResult) :
  serviceFallback band = Some r -> fconfidence r = 85%Z \/ fconfidence r = 70%Z.
Proof.
  induction band as [|s band IH]; simpl; [discriminate|].
  destruct (capture 1 _); [|exact IH].
  intros [= <-]. simpl. destruct (isCustomerInfoSection s); auto.
Qed.

(** The adjusted confidence of a name: never above 100; a name of the
    signature band loses 50, any other keeps at least what the search
    gave. *)
Lemma adjustNameConfidence_bounds (result : SearchResult) (name : jsstring) :
  (adjustNameConfidence result name <= 100)%Z
  /\ (sectionType result = Some signature ->
      (Z.min (confidence result - 50) 40 <= adjustNameConfidence result name
       <= Z.min (confidence result - 32) 40)%Z)
  /\ (sectionType result <> Some signature ->
      (Z.min (confidence result) 100 <= adjustNameConfidence result name)%Z).
Proof.
  unfold adjustNameConfidence.
  destruct (sectionType result) as [[]|];
    destruct (_ && _); destruct (test capitalizedWords name);
    destruct (test alElWord name);
    repeat split; intros; try congruence; lia.
Qed.

Lemma extractCustomerName_range (svc : TrainingService) (sections : list DocumentSection) :
  let patterns := getPatterns svc (js "customerName") ++ defaultNamePatterns in
  (nameFloor (length patterns) <= fconfidence (extractCustomerName svc sections) <= 100)%Z.
Proof.
  intros patterns.
  assert (Hlen : (10 <= length patterns)%nat).
  { unfold patterns. rewrite length_app. simpl. lia. }
  unfold nameFloor. unfold extractCustomerName. fold patterns.
  destruct (match List.find isCustomerInfoSection sections with
            | Some s => fromCustomerInfo s patterns | None => None end) as [r|] eqn:H1.
  { destruct (List.find isCustomerInfoSection sections); [|discriminate].
    apply fromCustomerInfo_confidence in H1. lia. }
  destruct (scanTop _ patterns 95 90) as [r|] eqn:H2.
  { apply scanTop_confidence in H2. lia. }
  destruct (scanTop _ patterns 85 80) as [r|] eqn:H3.
  { apply scanTop_confidence in H3. lia. }
  pose proof (findPatternInSections_bounds sections patterns) as Hb. cbv zeta in Hb.
  destruct (truthy (matched (findPatternInSections sections patterns))) as [m|] eqn:Hm.
  { simpl.
    pose proof (adjustNameConfidence_bounds
                  (findPatternInSections sections patterns) (trim m)) as (Hu & Hs & Ho).
    destruct Hb as [(Hnone & _) | (_ & [[Ht Hc] | [Ht Hc]])].
    - rewrite Hnone in Hm. discriminate.
    - specialize (Hs Ht). lia.
    - specialize (Ho Ht). lia. }
  destruct (nameFallback _) as [r|] eqn:H4.
  { apply nameFallback_confidence in H4. lia. }
  simpl. lia.
Qed.

Lemma extractRefundAmount_range (svc : TrainingService) (sections : list DocumentSection) :
  let patterns := getPatterns svc (js "refundAmount") ++ defaultAmountPatterns in
  (Z.min 0 (searchFloor (length patterns))
   <= fconfidence (extractRefundAmount svc sections) <= 100)%Z.
Proof.
  intros patterns. unfold searchFloor, extractRefundAmount. fold patterns.
  pose proof (findPatternInSections_bounds sections patterns) as Hb. cbv zeta in Hb.
  destruct (truthy (matched (findPatternInSections sections patterns))) as [m|] eqn:Hm.
  { simpl. destruct Hb as [(Hnone & _) | (_ & Hc)].
    - rewrite Hnone in Hm. discriminate.
    - destruct (sectionMentions _ _ _); destruct (test canonicalAmount _); lia. }
  destruct (amountFallback sections) as [r|] eqn:H4.
  { apply amountFallback_confidence in H4. lia. }
  simpl. lia.
Qed.

Lemma extractIBAN_range (svc : TrainingService) (sections : list DocumentSection) :
  let patterns := getPatterns svc (js "ibanNumber") ++ defaultIbanPatterns in
  (Z.min 0 (searchFloor (length patterns))
   <= fconfidence (extractIBAN svc sections) <= 100)%Z.
Proof.
  intros patterns. unfold searchFloor, extractIBAN. fold patterns.
  pose proof (findPatternInSections_bounds sections patterns) as Hb. cbv zeta in Hb.
  destruct (truthy (matched (findPatternInSections sections patterns))) as [m|] eqn:Hm.
  { simpl. destruct Hb as [(Hnone & _) | (_ & Hc)].
    - rewrite Hnone in Hm. discriminate.
    - destruct (sectionMentions _ _ _); destruct (test _ _); lia. }
  destruct (ibanFallback sections) as [r|] eqn:H4.
  { apply ibanFallback_confidence in H4. lia. }
  simpl. lia.
Qed.

Lemma extractServiceNumber_range (svc : TrainingService)
      (sections : list DocumentSection) :
  let patterns := getPatterns svc (js "customerServiceNumber") ++ defaultServicePatterns in
  (Z.min 0 (searchFloor (length patterns))
   <= fconfidence (extractServiceNumber svc sections) <= 100)%Z.
Proof.
  intros patterns. unfold searchFloor, extractServiceNumber. fold patterns.
  pose proof (findPatternInSections_bounds sections patterns) as Hb. cbv zeta in Hb.
  destruct (truthy (matched (findPatternInSections sections patterns))) as [m|] eqn:Hm.
  { simpl. destruct Hb as [(Hnone & _) | (_ & Hc)].
    - rewrite Hnone in Hm. discriminate.
    - destruct (sectionMentions _ _ _); destruct (test _ _);
        destruct (sectionType _) as [[]|]; lia. }
  destruct (serviceFallback sections) as [r|] eqn:H4.
  { apply serviceFallback_confidence in H4. lia. }
  simpl. lia.
Qed.

(** [C5] (amended) For every section list and every state of the
    registry, the confidence each of the four extractors returns is at
    most 100, the only clamp applied being [Math.min(confidence, 100)].
    It is not bounded below by 0: with [n] patterns tried (those of the
    registry followed by the built-in ones) it is at least
    [min(0, 75 - 7(n-1), 30 - 5(n-1))] for the amount, the IBAN and the
    service number, and at least [min(75 - 7(n-1), -20 - 5(n-1))] for the
    customer name. *)
Theorem C5_confidence_range (svc : TrainingService) (sections : list DocumentSection) :
  let n field builtin := length (getPatterns svc (js field) ++ builtin) in
  (nameFloor (n "customerName"%string defaultNamePatterns)
   <= fconfidence (extractCustomerName svc sections) <= 100)%Z
  /\ (Z.min 0 (searchFloor (n "refundAmount"%string defaultAmountPatterns))
      <= fconfidence (extractRefundAmount svc sections) <= 100)%Z
  /\ (Z.min 0 (searchFloor (n "ibanNumber"%string defaultIbanPatterns))
      <= fconfidence (extractIBAN svc sections) <= 100)%Z
  /\ (Z.min 0 (searchFloor (n "customerServiceNumber"%string defaultServicePatterns))
      <= fconfidence (extractServiceNumber svc sections) <= 100)%Z.
Proof.
  intros n. unfold n. split; [|split; [|split]].
  - apply extractCustomerName_range.
  - apply extractRefundAmount_range.
  - apply extractIBAN_range.
  - apply extractServiceNumber_range.
Qed.

(** ** Learning new patterns *)

Lemma jseqb_eq (a b : jsstring) : jseqb a b = true <-> a = b.
Proof. unfold jseqb. apply bool_decide_eq_true. Qed.

Lemma knownSource_In (known : list jsstring) (c : jsstring) :
  knownSource known c = true <-> In c known.
Proof.
  unfold knownSource. rewrite existsb_exists. split.
  - intros (k & Hin & Hk). apply jseqb_eq in Hk. now subst.
  - intros Hin. exists c. split; [exact Hin | now apply jseqb_eq].
Qed.

Lemma freshSources_In (known candidates : list jsstring) (c : jsstring) :
  In c (freshSources known candidates) <-> In c candidates /\ ~ In c known.
Proof.
  revert known. induction candidates as [|x rest IH]; intros known; simpl.
  - tauto.
  - destruct (knownSource known x) eqn:Hk.
    + apply knownSource_In in Hk. rewrite IH. split.
      * intros [H1 H2]. auto.
      * intros [[<- | H1] H2]; [contradiction | auto].
    + assert (Hx : ~ In x known).
      { intros H. apply knownSource_In in H. congruence. }
      simpl. rewrite IH, in_app_iff. simpl. split.
      * intros [<- | [H1 H2]]; [auto|]. split; [auto|]. intros H. apply H2. auto.
      * intros [[<- | H1] H2]; [auto|].
        destruct (list_eq_dec N.eq_dec x c) as [-> | Hne]; [auto|].
        right. split; [exact H1|]. intros [H | [H | []]]; auto.
Qed.

Lemma freshSources_NoDup (known candidates : list jsstring) :
  List.NoDup (freshSources known candidates).
Proof.
  revert known. induction candidates as [|x rest IH]; intros known; simpl.
  - constructor.
  - destruct (knownSource known x); [apply IH|].
    constructor; [|apply IH].
    rewrite freshSources_In, in_app_iff. simpl. tauto.
Qed.

Lemma freshSources_length (known candidates : list jsstring) :
  (length (freshSources known candidates) <= length candidates)%nat.
Proof.
  revert known. induction candidates as [|x rest IH]; intros known; simpl; [lia|].
  destruct (knownSource known x); simpl; [specialize (IH known) | specialize (IH (known ++ [x]))]; lia.
Qed.

Lemma freshSources_all_known (known candidates : list jsstring) :
  (forall c, In c candidates -> In c known) -> freshSources known candidates = [].
Proof.
  revert known. induction candidates as [|x rest IH]; intros known Hall; simpl.
  - reflexivity.
  - replace (knownSource known x) with true
      by (symmetry; apply knownSource_In, Hall; now left).
    apply IH. intros c Hc. apply Hall. now right.
Qed.

Section Learning.

Variable RegExp_new : jsstring -> option RegExp.
Variable clock : nat -> jsstring.

Local Abbreviation learnFromLine := (Training.learnFromLine RegExp_new clock).
Local Abbreviation learnNewPattern := (Training.learnNewPattern RegExp_new clock).
Local Abbreviation loadPatternRegistry := (Training.loadPatternRegistry RegExp_new).

Lemma storedPatterns_load (svc : TrainingService) :
  storedPatterns (loadPatternRegistry svc) = storedPatterns svc.
Proof. reflexivity. Qed.

Lemma count_zero_known (c : jsstring) (t : Table ExtractionPattern) :
  Nat.eqb (length (tableWhere (fun p => jseqb (patternRegex p) c) t)) 0
  = negb (knownSource (map regexOf (rows t)) c).
Proof.
  unfold tableWhere, knownSource. induction (rows t) as [|r l IH]; simpl.
  - reflexivity.
  - unfold regexOf at 1. destruct (jseqb (patternRegex (snd r)) c); simpl; [reflexivity|].
    exact IH.
Qed.

(** One line of the context: nothing changes, or one row is added for the
    candidate of the line. *)
Lemma learnFromLine_rows (f : FieldType) (v : jsstring) (svc : TrainingService)
      (line : jsstring) :
  let known := map regexOf (storedPatterns svc) in
  match candidatePattern f v line with
  | Some c =>
      if knownSource known c then learnFromLine f v svc line = svc
      else exists r, storedPatterns (learnFromLine f v svc line)
                     = storedPatterns svc ++ [r]
                     /\ regexOf r = c /\ learnedRow f r
  | None => learnFromLine f v svc line = svc
  end.
Proof.
  intros known. unfold Training.learnFromLine.
  destruct (candidatePattern f v line) as [c|]; [|reflexivity].
  rewrite count_zero_known. fold (storedPatterns svc). fold known.
  destruct (knownSource known c); simpl; [reflexivity|].
  eexists. split; [reflexivity|]. repeat split.
Qed.

(** A call of [learnNewPattern]: the rows stored before, followed by one
    learned row for each fresh source. *)
Lemma learnNewPattern_rows (f : FieldType) (context v : jsstring)
      (svc : TrainingService) :
  exists new,
    storedPatterns (learnNewPattern f context v svc) = storedPatterns svc ++ new
    /\ map regexOf new
       = freshSources (map regexOf (storedPatterns svc)) (candidatesOf f context v)
    /\ Forall (learnedRow f) new.
Proof.
  unfold Training.learnNewPattern, candidatesOf.
  revert svc. induction (splitLines context) as [|line lines IH]; intros svc; simpl.
  - exists []. rewrite app_nil_r. repeat split. constructor.
  - pose proof (learnFromLine_rows f v svc line) as Hline. cbv zeta in Hline.
    destruct (IH (learnFromLine f v svc line)) as (new & Hrows & Hsrc & Hall).
    destruct (candidatePattern f v line) as [c|] eqn:Hc; simpl.
    + destruct (knownSource _ c) eqn:Hk.
      * rewrite Hline in Hrows, Hsrc. exists new. rewrite Hline. auto.
      * destruct Hline as (r & Hr & Hrc & Hlr).
        exists (r :: new). rewrite Hrows, Hr, <- app_assoc. split; [reflexivity|].
        split.
        -- simpl. rewrite Hrc. f_equal. rewrite Hsrc, Hr, map_app. simpl.
           now rewrite Hrc.
        -- constructor; assumption.
    + rewrite Hline in Hrows, Hsrc. exists new. rewrite Hline. auto.
Qed.

(** A call that adds no row leaves the whole service as it was. *)
Lemma learnNewPattern_known (f : FieldType) (context v : jsstring)
      (svc : TrainingService) :
  (forall c, In c (candidatesOf f context v) ->
             In c (map regexOf (storedPatterns svc))) ->
  learnNewPattern f context v svc = svc.
Proof.
  unfold Training.learnNewPattern, candidatesOf.
  induction (splitLines context) as [|line lines IH]; intros Hall; simpl.
  - reflexivity.
  - pose proof (learnFromLine_rows f v svc line) as Hline. cbv zeta in Hline.
    simpl in Hall.
    destruct (candidatePattern f v line) as [c|] eqn:Hc.
    + replace (knownSource (map regexOf (storedPatterns svc)) c) with true in Hline
        by (symmetry; apply knownSource_In, Hall; now left).
      rewrite Hline. apply IH. intros c' Hc'. apply Hall. now right.
    + rewrite Hline. apply IH. exact Hall.
Qed.

Lemma candidatesOf_length (f : FieldType) (context v : jsstring) :
  (length (candidatesOf f context v)
   <= length (List.filter (fun line => includes (toLowerCase line) (toLowerCase v))
                          (splitLines context)))%nat.
Proof.
  unfold candidatesOf. induction (splitLines context) as [|line lines IH]; simpl.
  - lia.
  - unfold candidatePattern at 1.
    destruct (includes (toLowerCase line) (toLowerCase v)); simpl; [|exact IH].
    destruct (trim _); simpl; unfold omap in IH; lia.

Qed.

(** [C6] (amended) Calling [learnNewPattern] twice with identical
    arguments: the second call inserts nothing and leaves the service as
    the first call left it.  The first call goes through every line of
    the context and inserts exactly one pattern for each distinct source
    synthesized from a line that contains the value after some non-blank
    text, unless the source is stored already: the sources inserted are
    the synthesized sources that were not stored, each once and in the
    order of their first lines, under the field type of the call, with at
    most one pattern per line that contains the value. *)
Theorem C6_learning_idempotent (f : FieldType) (context v : jsstring)
        (svc : TrainingService) :
  let once := learnNewPattern f context v svc in
  learnNewPattern f context v once = once
  /\ exists new,
      storedPatterns once = storedPatterns svc ++ new
      /\ (forall c, In c (map regexOf new)
                    <-> In c (candidatesOf f context v)
                        /\ ~ In c (map regexOf (storedPatterns svc)))
      /\ map regexOf new
         = freshSources (map regexOf (storedPatterns svc)) (candidatesOf f context v)
      /\ List.NoDup (map regexOf new)
      /\ Forall (learnedRow f) new
      /\ (length new
          <= length (List.filter
                       (fun line => includes (toLowerCase line) (toLowerCase v))
                       (splitLines context)))%nat.
Proof.
  intros once.
  destruct (learnNewPattern_rows f context v svc) as (new & Hrows & Hsrc & Hall).
  fold once in Hrows. split.
  - apply learnNewPattern_known. intros c Hc.
    rewrite Hrows, map_app, in_app_iff, Hsrc, freshSources_In.
    destruct (in_dec (list_eq_dec N.eq_dec) c (map regexOf (storedPatterns svc))); auto.
  - exists new. split; [exact Hrows|]. split; [|split; [exact Hsrc|split; [|split]]].
    + intros c. rewrite Hsrc. apply freshSources_In.
    + rewrite Hsrc. apply freshSources_NoDup.
    + exact Hall.
    + rewrite <- (length_map regexOf), Hsrc.
      etransitivity; [apply freshSources_length | apply candidatesOf_length].
Qed.

(** [C7] (amended) [learnNewPattern] inserts a synthesized pattern if and
    only if no row of the registry, whatever its field type, holds an
    identical [patternRegex]; every pattern it inserts is stored under the
    field type of the call with priority 5, success rate 60 and usage
    count 1. *)
Theorem C7_insert_unless_stored (f : FieldType) (context v : jsstring)
        (svc : TrainingService) :
  exists new,
    storedPatterns (learnNewPattern f context v svc) = storedPatterns svc ++ new
    /\ (forall c, In c (map regexOf new)
                  <-> In c (candidatesOf f context v)
                      /\ ~ In c (map regexOf (storedPatterns svc)))
    /\ forall r, In r new ->
         fieldType (snd r) = f /\ priority (snd r) = 5%Z
         /\ successRate (snd r) = 60%Q /\ usageCount (snd r) = 1%Z.
Proof.
  destruct (learnNewPattern_rows f context v svc) as (new & Hrows & Hsrc & Hall).
  exists new. split; [exact Hrows|]. split.
  - intros c. rewrite Hsrc. apply freshSources_In.
  - intros r Hr. rewrite List.Forall_forall in Hall. exact (Hall r Hr).
Qed.

End Learning.

(** ** Success rates *)

Lemma rowOf_Some_In (k : nat) (l : list (nat * ExtractionPattern)) (p : ExtractionPattern) :
  rowOf k l = Some p -> In (k, p) l.
Proof.
  unfold rowOf. destruct (List.find _ l) as [[k' q]|] eqn:F; [|discriminate].
  intros [= <-]. apply find_some in F as [Hin Hk].
  simpl in Hk. apply Nat.eqb_eq in Hk. now subst.
Qed.

Lemma rowOf_In (k : nat) (l : list (nat * ExtractionPattern)) (p : ExtractionPattern) :
  List.NoDup (map fst l) -> In (k, p) l -> rowOf k l = Some p.
Proof.
  unfold rowOf. induction l as [|[k' q] l IH]; intros Hnd Hin; [destruct Hin|].
  simpl in *. inversion Hnd as [|? ? Hnot Hnd']; subst.
  destruct (Nat.eqb_spec k' k) as [-> | Hne].
  - destruct Hin as [[= ->] | Hin]; [reflexivity|].
    exfalso. apply Hnot. now apply (in_map fst) in Hin.
  - destruct Hin as [[= -> _] | Hin]; [congruence|]. now apply IH.
Qed.

Lemma rowOf_None (k : nat) (l : list (nat * ExtractionPattern)) :
  ~ In k (map fst l) -> rowOf k l = None.
Proof.
  intros Hnot. destruct (rowOf k l) as [p|] eqn:E; [|reflexivity].
  apply rowOf_Some_In in E. exfalso. apply Hnot. now apply (in_map fst) in E.
Qed.

Lemma keys_tableUpdate (t : Table ExtractionPattern) (key : nat)
      (change : ExtractionPattern -> ExtractionPattern) :
  map fst (rows (tableUpdate t key change)) = map fst (rows t).
Proof.
  unfold tableUpdate. simpl. rewrite map_map. apply map_ext.
  intros r. now destruct (Nat.eqb (fst r) key).
Qed.

Lemma rowOf_tableUpdate (t : Table ExtractionPattern) (key k : nat)
      (change : ExtractionPattern -> ExtractionPattern) :
  rowOf k (rows (tableUpdate t key change))
  = if Nat.eqb k key then option_map change (rowOf k (rows t)) else rowOf k (rows t).
Proof.
  unfold tableUpdate, rowOf. simpl. induction (rows t) as [|[k' q] l IH]; simpl.
  - now destruct (Nat.eqb k key).
  - destruct (Nat.eqb_spec k' key) as [-> | Hne]; simpl.
    + destruct (Nat.eqb_spec key k) as [<- | Hne'].
      * now rewrite Nat.eqb_refl.
      * rewrite IH. reflexivity.
    + destruct (Nat.eqb_spec k' k) as [-> | Hne'].
      * destruct (Nat.eqb_spec k key); [congruence | reflexivity].
      * exact IH.
Qed.

Lemma rowOf_filter (P : ExtractionPattern -> bool) (k : nat)
      (l : list (nat * ExtractionPattern)) :
  List.NoDup (map fst l) ->
  rowOf k (List.filter (fun r => P (snd r)) l)
  = match rowOf k l with
    | Some p => if P p then Some p else None
    | None => None
    end.
Proof.
  induction l as [|[k' q] l IH]; intros Hnd; [reflexivity|].
  simpl in Hnd. inversion Hnd as [|? ? Hnot Hnd']; subst.
  specialize (IH Hnd').
  unfold rowOf in *. simpl.
  destruct (Nat.eqb_spec k' k) as [-> | Hne]; simpl.
  - destruct (P q) eqn:HP; simpl.
    + now rewrite Nat.eqb_refl.
    + fold (rowOf k (List.filter (fun r => P (snd r)) l)).
      apply rowOf_None. intros Hin. apply Hnot.
      apply in_map_iff in Hin as ([k1 q1] & <- & Hin).
      apply filter_In in Hin as [Hin _]. now apply (in_map fst) in Hin.
  - destruct (P q) eqn:HP; simpl.
    + destruct (Nat.eqb_spec k' k); [congruence | exact IH].
    + exact IH.
Qed.

Lemma NoDup_keys_filter (P : nat * ExtractionPattern -> bool)
      (l : list (nat * ExtractionPattern)) :
  List.NoDup (map fst l) -> List.NoDup (map fst (List.filter P l)).
Proof.
  induction l as [|r l IH]; intros Hnd; [constructor|].
  simpl in *. inversion Hnd as [|? ? Hnot Hnd']; subst.
  destruct (P r); simpl; [|now apply IH].
  constructor; [|now apply IH].
  intros Hin. apply Hnot. apply in_map_iff in Hin as (r' & <- & Hin).
  apply filter_In in Hin as [Hin _]. now apply in_map.
Qed.

Lemma NoDup_snoc {A} (l : list A) (x : A) :
  List.NoDup l -> ~ In x l -> List.NoDup (l ++ [x]).
Proof.
  induction l as [|y l IH]; simpl; intros Hnd Hnot.
  - constructor; [intros [] | constructor].
  - inversion Hnd as [|? ? Hy Hnd']; subst. constructor.
    + rewrite in_app_iff. simpl. intros [H | [H | []]]; [contradiction|].
      apply Hnot. now left.
    + apply IH; [exact Hnd'|]. intros H. apply Hnot. now right.
Qed.

Lemma keysFresh_add {A} (t : Table A) (a : A) : keysFresh t -> keysFresh (tableAdd t a).
Proof.
  intros [Hnd Hlt]. unfold keysFresh, tableAdd. simpl. rewrite map_app. simpl. split.
  - apply NoDup_snoc; [exact Hnd|]. intros Hin. specialize (Hlt _ Hin). lia.
  - intros k Hk. apply in_app_or in Hk as [Hk | [<- | []]]; [|lia].
    specialize (Hlt _ Hk). lia.
Qed.

Lemma keysFresh_bulkAdd {A} (l : list A) (t : Table A) :
  keysFresh t -> keysFresh (tableBulkAdd t l).
Proof.
  unfold tableBulkAdd. revert t. induction l as [|a l IH]; intros t H; simpl.
  - exact H.
  - apply IH. now apply keysFresh_add.
Qed.

Lemma grows_refl (P : ExtractionPattern -> Prop) (t : Table ExtractionPattern) :
  grows P t t.
Proof.
  split; [|auto]. exists []. rewrite app_nil_r. split; [reflexivity | constructor].
Qed.

Lemma grows_trans (P : ExtractionPattern -> Prop) (a b c : Table ExtractionPattern) :
  grows P a b -> grows P b c -> grows P a c.
Proof.
  intros [(n1 & E1 & F1) K1] [(n2 & E2 & F2) K2]. split; [|auto].
  exists (n1 ++ n2). rewrite E2, E1, app_assoc. split; [reflexivity|].
  apply Forall_app. auto.
Qed.

Lemma grows_add (P : ExtractionPattern -> Prop) (t : Table ExtractionPattern)
      (p : ExtractionPattern) :
  P p -> grows P t (tableAdd t p).
Proof.
  intros Hp. split; [|apply keysFresh_add].
  exists [(nextKey t, p)]. split; [reflexivity|]. now constructor.
Qed.

Lemma grows_bulkAdd (P : ExtractionPattern -> Prop) (l : list ExtractionPattern)
      (t : Table ExtractionPattern) :
  Forall P l -> grows P t (tableBulkAdd t l).
Proof.
  unfold tableBulkAdd. revert t. induction l as [|p l IH]; intros t Hl; simpl.
  - apply grows_refl.
  - inversion Hl; subst. eapply grows_trans; [apply grows_add | apply IH]; assumption.
Qed.

Lemma rate_60 (f : FieldType) (c ts : jsstring) : rateInRange (mkPattern f c 5 60 1 ts).
Proof. split; discriminate. Qed.

Section Rates.

Variable RegExp_new : jsstring -> option RegExp.
Variable clock : nat -> jsstring.
Variable loadTime : jsstring.

Local Abbreviation initialize := (Training.initialize RegExp_new loadTime).
Local Abbreviation learnFromLine := (Training.learnFromLine RegExp_new clock).
Local Abbreviation learnNewPattern := (Training.learnNewPattern RegExp_new clock).
Local Abbreviation learnFromContext := (Training.learnFromContext RegExp_new clock).
Local Abbreviation addTrainingExample :=
  (Training.addTrainingExample RegExp_new clock loadTime).
Local Abbreviation storeCorrection := (Training.storeCorrection RegExp_new clock loadTime).
Local Abbreviation updateOne := (Training.updateOne RegExp_new clock).
Local Abbreviation updatePatternSuccessRates :=
  (Training.updatePatternSuccessRates RegExp_new clock).
Local Abbreviation recordCorrection := (Training.recordCorrection RegExp_new clock loadTime).
Local Abbreviation patternMatches := (Training.patternMatches RegExp_new).

Lemma initialize_grows (svc : TrainingService) :
  grows rateInRange (patternsOf svc) (patternsOf (initialize svc)).
Proof.
  unfold Training.initialize, patternsOf.
  destruct (initialized svc); [apply grows_refl|].
  destruct (Nat.eqb (tableCount (trainingExamples (db svc))) 0);
    destruct (Nat.eqb (tableCount (extractionPatterns (db svc))) 0);
    try apply grows_refl;
    apply (grows_bulkAdd rateInRange (Training.initialExtractionPatterns loadTime)
                         (extractionPatterns (db svc)));
    repeat constructor; discriminate.
Qed.

Lemma learnFromLine_grows (f : FieldType) (v : jsstring) (svc : TrainingService)
      (line : jsstring) :
  grows rateInRange (patternsOf svc) (patternsOf (learnFromLine f v svc line)).
Proof.
  unfold Training.learnFromLine, patternsOf.
  destruct (candidatePattern f v line) as [c|]; [|apply grows_refl].
  destruct (Nat.eqb _ 0); [|apply grows_refl].
  simpl. apply grows_add, rate_60.
Qed.

Lemma learnNewPattern_grows (f : FieldType) (context v : jsstring)
      (svc : TrainingService) :
  grows rateInRange (patternsOf svc) (patternsOf (learnNewPattern f context v svc)).
Proof.
  unfold Training.learnNewPattern. revert svc.
  induction (splitLines context) as [|line lines IH]; intros svc; simpl.
  - apply grows_refl.
  - eapply grows_trans; [apply learnFromLine_grows | apply IH].
Qed.

Lemma learnFromContext_grows (f : FieldType) (context : option jsstring)
      (v : jsstring) (svc : TrainingService) :
  grows rateInRange (patternsOf svc) (patternsOf (learnFromContext f context v svc)).
Proof.
  unfold Training.learnFromContext.
  destruct (truthy context); [apply learnNewPattern_grows | apply grows_refl].
Qed.

Lemma addTrainingExample_grows (f : FieldType) (pattern v : jsstring)
      (context : option jsstring) (conf : Z) (svc : TrainingService) :
  grows rateInRange (patternsOf svc)
        (patternsOf (snd (addTrainingExample f pattern v context conf svc))).
Proof.
  cbv beta iota zeta delta [Training.addTrainingExample Training.readClock snd].
  eapply grows_trans; [|apply learnFromContext_grows].
  exact (initialize_grows svc).
Qed.

(** The stored patterns before the success rates are updated: those stored
    at the call, followed by the seeds and the patterns learned, all with a
    success rate within [0, 100]. *)
Lemma storeCorrection_grows (f : FieldType) (original corrected docId : jsstring)
      (context : option jsstring) (svc : TrainingService) :
  grows rateInRange (patternsOf svc)
        (patternsOf (storeCorrection f original corrected docId context svc)).
Proof.
  cbv beta iota zeta delta [Training.storeCorrection Training.readClock].
  eapply grows_trans; [|apply learnFromContext_grows].
  eapply grows_trans; [|apply addTrainingExample_grows].
  exact (initialize_grows svc).
Qed.

Lemma updateOne_keys (o c : jsstring) (svc : TrainingService)
      (r : nat * ExtractionPattern) :
  map fst (storedPatterns (updateOne o c svc r)) = map fst (storedPatterns svc).
Proof.
  unfold Training.updateOne, storedPatterns.
  destruct (patternMatches (snd r) o); [|reflexivity].
  cbv beta iota zeta delta [Training.readClock setDb setPatterns db extractionPatterns].
  apply keys_tableUpdate.
Qed.

Lemma updateOne_rowOf (o c : jsstring) (svc : TrainingService)
      (r : nat * ExtractionPattern) (k : nat) :
  (k <> fst r \/ patternMatches (snd r) o = false ->
   rowOf k (storedPatterns (updateOne o c svc r)) = rowOf k (storedPatterns svc))
  /\ (k = fst r -> patternMatches (snd r) o = true ->
      rowOf k (storedPatterns svc) = Some (snd r) ->
      exists p', rowOf k (storedPatterns (updateOne o c svc r)) = Some p'
                 /\ bumped o c (snd r) p').
Proof.
  unfold Training.updateOne, storedPatterns. split.
  - intros H. destruct (patternMatches (snd r) o) eqn:Hm; [|reflexivity].
    destruct H as [H | H]; [|discriminate].
    cbv beta iota zeta delta [Training.readClock setDb setPatterns db extractionPatterns].
    rewrite rowOf_tableUpdate.
    destruct (Nat.eqb_spec k (fst r)); [contradiction | reflexivity].
  - intros -> Hm Hrow. rewrite Hm.
    cbv beta iota zeta delta [Training.readClock setDb setPatterns db extractionPatterns].
    rewrite rowOf_tableUpdate, Nat.eqb_refl.
    unfold storedPatterns in Hrow.
    cbv beta iota zeta delta [db extractionPatterns] in Hrow.
    rewrite Hrow. simpl.
    eexists. split; [reflexivity|]. repeat split.
Qed.

(** The loop of [updatePatternSuccessRates] over a snapshot whose keys are
    distinct: the row of a snapshot pattern that matches is bumped, every
    other row is kept. *)
Lemma update_fold (o c : jsstring) (todo : list (nat * ExtractionPattern))
      (svc : TrainingService) :
  List.NoDup (map fst todo) ->
  (forall k p, In (k, p) todo -> rowOf k (storedPatterns svc) = Some p) ->
  let fin := fold_left (updateOne o c) todo svc in
  map fst (storedPatterns fin) = map fst (storedPatterns svc)
  /\ forall k,
       match rowOf k todo with
       | Some p =>
           if patternMatches p o
           then exists p', rowOf k (storedPatterns fin) = Some p' /\ bumped o c p p'
           else rowOf k (storedPatterns fin) = rowOf k (storedPatterns svc)
       | None => rowOf k (storedPatterns fin) = rowOf k (storedPatterns svc)
       end.
Proof.
  revert svc. induction todo as [|[k0 p0] todo IH]; intros svc Hnd Hsnap;
    cbv zeta; cbn [fold_left].
  - split; [reflexivity|]. intros k. reflexivity.
  - cbn [map fst] in Hnd. inversion Hnd as [|? ? Hnot Hnd']; subst.
    pose proof (updateOne_rowOf o c svc (k0, p0)) as Hone. cbn [fst snd] in Hone.
    assert (Hsnap' : forall k p, In (k, p) todo ->
              rowOf k (storedPatterns (updateOne o c svc (k0, p0))) = Some p).
    { intros k p Hin. destruct (Hone k) as [Hkeep _]. rewrite Hkeep.
      - apply Hsnap. now right.
      - left. intros ->. apply Hnot. now apply (in_map fst) in Hin. }
    destruct (IH (updateOne o c svc (k0, p0)) Hnd' Hsnap') as [Hkeys Hrows].
    split; [now rewrite Hkeys, updateOne_keys|].
    intros k. specialize (Hrows k).
    unfold rowOf at 1. cbn [List.find fst snd].
    destruct (Nat.eqb_spec k0 k) as [-> | Hne]; cbn [fst snd].
    + rewrite (rowOf_None k todo Hnot) in Hrows. rewrite Hrows.
      destruct (Hone k) as [Hkeep Hbump].
      destruct (patternMatches p0 o) eqn:Hm.
      * apply Hbump; auto. apply Hsnap. now left.
      * apply Hkeep. now right.
    + fold (rowOf k todo).
      destruct (Hone k) as [Hkeep _].
      rewrite Hkeep in Hrows by (left; congruence). exact Hrows.
Qed.

Lemma updatePatternSuccessRates_rows (f : FieldType) (o c : jsstring)
      (svc : TrainingService) :
  List.NoDup (map fst (storedPatterns svc)) ->
  let fin := updatePatternSuccessRates f o c svc in
  map fst (storedPatterns fin) = map fst (storedPatterns svc)
  /\ forall k p, In (k, p) (storedPatterns svc) ->
       exists p', In (k, p') (storedPatterns fin)
                  /\ if FieldType_eqb (fieldType p) f && patternMatches p o
                     then bumped o c p p' else p' = p.
Proof.
  intros Hnd fin. unfold fin, Training.updatePatternSuccessRates.
  set (todo := tableWhere _ _).
  assert (Htodo : todo = List.filter (fun r => FieldType_eqb (fieldType (snd r)) f)
                                     (storedPatterns svc)) by reflexivity.
  assert (Hsnap : forall k p, In (k, p) todo ->
                    rowOf k (storedPatterns svc) = Some p).
  { intros k p Hin. rewrite Htodo in Hin. apply filter_In in Hin as [Hin _].
    now apply rowOf_In. }
  assert (Hnd' : List.NoDup (map fst todo))
    by (rewrite Htodo; now apply NoDup_keys_filter).
  destruct (update_fold o c todo svc Hnd' Hsnap) as [Hkeys Hrows].
  change (storedPatterns (Training.loadPatternRegistry RegExp_new ?s))
    with (storedPatterns s).
  split; [exact Hkeys|].
  intros k p Hin. specialize (Hrows k).
  rewrite Htodo, (rowOf_filter (fun q => FieldType_eqb (fieldType q) f)) in Hrows
    by exact Hnd.
  rewrite (rowOf_In k _ p Hnd Hin) in Hrows.
  destruct (FieldType_eqb (fieldType p) f); simpl.
  - destruct (patternMatches p o).
    + destruct Hrows as (p' & Hp' & Hb). exists p'. split; [|exact Hb].
      now apply rowOf_Some_In.
    + exists p. split; [|reflexivity]. now apply rowOf_Some_In.
  - exists p. split; [|reflexivity]. now apply rowOf_Some_In.
Qed.

Lemma newSuccessRate_range (rate : Q) (o c : jsstring) :
  (0 <= rate /\ rate <= 100)%Q ->
  (0 <= newSuccessRate rate o c /\ newSuccessRate rate o c <= 100)%Q.
Proof.
  intros [H0 H1]. unfold newSuccessRate, learningRate.
  destruct (jseqb o c); split; lra.
Qed.

(** [C8] After [recordCorrection], every stored pattern of the field type
    whose source compiles (case-insensitively) to a pattern that matches
    the original value has the success rate
    [old * (1 - 0.1) + (original == corrected ? 100 : 0) * 0.1] and one
    more use; every other pattern is as it was; and every success rate is
    within [0, 100] if those stored at the call were.  [old] is the rate
    the pattern has when the rates are updated: that of the call for a
    pattern stored then, the initial rate for a pattern seeded or learned
    by this call. *)
Theorem C8_success_rates (f : FieldType) (original corrected docId : jsstring)
        (context : option jsstring) (svc : TrainingService) :
  keysFresh (patternsOf svc) ->
  let before := storeCorrection f original corrected docId context svc in
  let after := recordCorrection f original corrected docId context svc in
  (forall k p, In (k, p) (storedPatterns svc) -> In (k, p) (storedPatterns before))
  /\ map fst (storedPatterns after) = map fst (storedPatterns before)
  /\ (forall k p, In (k, p) (storedPatterns before) ->
        exists p', In (k, p') (storedPatterns after)
          /\ if FieldType_eqb (fieldType p) f && patternMatches p original
             then (successRate p'
                   = successRate p * (1 - (1 # 10))
                     + (if jseqb original corrected then 100 else 0) * (1 # 10))%Q
                  /\ usageCount p' = (usageCount p + 1)%Z
                  /\ fieldType p' = fieldType p /\ patternRegex p' = patternRegex p
                  /\ priority p' = priority p
             else p' = p)
  /\ ((forall k p, In (k, p) (storedPatterns svc) -> rateInRange p) ->
      forall k p, In (k, p) (storedPatterns after) -> rateInRange p).
Proof.
  intros Hfresh before after.
  destruct (storeCorrection_grows f original corrected docId context svc)
    as [(new & Hnew & Hgood) Hkeep].
  fold before in Hnew, Hkeep. unfold patternsOf in Hnew, Hkeep.
  fold (storedPatterns before) in Hnew. fold (storedPatterns svc) in Hnew.
  destruct (Hkeep Hfresh) as [Hnd _]. fold (storedPatterns before) in Hnd.
  destruct (updatePatternSuccessRates_rows f original corrected before Hnd)
    as [Hkeys Hrows].
  change (updatePatternSuccessRates f original corrected before) with after
    in Hkeys, Hrows.
  split; [|split; [|split]].
  - intros k p Hin. rewrite Hnew. apply in_or_app. now left.
  - exact Hkeys.
  - intros k p Hin. destruct (Hrows k p Hin) as (p' & Hp' & Hrel).
    exists p'. split; [exact Hp'|].
    destruct (FieldType_eqb (fieldType p) f && patternMatches p original);
      [|exact Hrel].
    destruct Hrel as (H1 & H2 & H3 & H4 & H5). repeat split; assumption.
  - intros Hsvc k p' Hin.
    assert (Hbefore : forall k p, In (k, p) (storedPatterns before) -> rateInRange p).
    { intros k0 p0 H0. rewrite Hnew in H0. apply in_app_or in H0 as [H0 | H0].
      - now apply (Hsvc k0).
      - rewrite List.Forall_forall in Hgood. exact (Hgood _ H0). }
    assert (Hk : In k (map fst (storedPatterns before))).
    { rewrite <- Hkeys. now apply (in_map fst) in Hin. }
    apply in_map_iff in Hk as ([k0 p] & Hk0 & Hp). simpl in Hk0. subst k0.
    destruct (Hrows k p Hp) as (p'' & Hp'' & Hrel).
    assert (p'' = p') as ->.
    { assert (Hnd' : List.NoDup (map fst (storedPatterns after)))
        by (now rewrite Hkeys).
      pose proof (rowOf_In k _ p' Hnd' Hin) as E1.
      pose proof (rowOf_In k _ p'' Hnd' Hp'') as E2. congruence. }
    destruct (FieldType_eqb (fieldType p) f && patternMatches p original).
    + destruct Hrel as (_ & _ & _ & Hrate & _). unfold rateInRange. rewrite Hrate.
      apply newSuccessRate_range. exact (Hbefore k p Hp).
    + subst p'. exact (Hbefore k p Hp).
Qed.

End Rates.

(** ** The customer name *)

Lemma percentageOf_lt (i n : Z) :
  (1 <= n)%Z -> (percentageOf i n < percentageOf (i + 1) n)%Q.
Proof.
  intros Hn. unfold percentageOf.
  assert (Hpos : (0 < inject_Z n)%Q) by (unfold Qlt; simpl; lia).
  apply Qmult_lt_compat_r; [reflexivity|].
  unfold Qdiv. apply Qmult_lt_compat_r; [now apply Qinv_lt_0_compat|].
  rewrite <- Zlt_Qlt. lia.
Qed.

Lemma divide_Returns_positive (text : jsstring) (n : Z) (sections : list DocumentSection) :
  divideDocumentIntoSections text n = Returns sections -> (1 <= n)%Z.
Proof.
  intros H. destruct (Z_lt_le_dec n 1) as [Hlt | Hle]; [|exact Hle].
  exfalso. unfold divideDocumentIntoSections, createSections in H.
  replace (Z.to_nat n) with 0%nat in H by lia. simpl in H. discriminate.
Qed.








(** ** The samples, evaluated *)

Example treasury_sections :
  map (fun s => (isCustomerInfoSection s, isSignatureSection s))
      (sectionsOf treasuryDocument)
  = [ (true, false); (false, false); (false, false); (false, false);
      (false, false); (false, false); (false, false); (false, false);
      (false, false); (false, true) ].
Proof. vm_compute. reflexivity. Qed.

Example treasury_name :
  let r := extractCustomerName unlearned (sectionsOf treasuryDocument) in
  value r = js "MR. Mohammed Al Motaeri" /\ fconfidence r = 98%Z
  /\ (fposition r == 5)%Q.
Proof. vm_compute. repeat split; reflexivity. Qed.

Example treasury_service_number :
  value (extractServiceNumber unlearned (sectionsOf treasuryDocument))
  = js "FTTH00516134"
  /\ fconfidence (extractServiceNumber unlearned (sectionsOf treasuryDocument)) = 95%Z.
Proof. vm_compute. split; reflexivity. Qed.

Example treasury_amount :
  value (extractRefundAmount unlearned (sectionsOf treasuryDocument)) = js "379.50"
  /\ fconfidence (extractRefundAmount unlearned (sectionsOf treasuryDocument)) = 100%Z.
Proof. vm_compute. split; reflexivity. Qed.

Example treasury_iban :
  value (extractIBAN unlearned (sectionsOf treasuryDocument))
  = js "SA0380000000608010167519"
  /\ fconfidence (extractIBAN unlearned (sectionsOf treasuryDocument)) = 85%Z.
Proof. vm_compute. split; reflexivity. Qed.

Example signature_only_name :
  let r := extractCustomerName unlearned (sectionsOf signatureOnlyDocument) in
  value r = js "Karim Abu Taha" /\ fconfidence r = (-35)%Z
  /\ (fposition r == 95)%Q.
Proof. vm_compute. repeat split; reflexivity. Qed.

(** ** The properties at the samples *)

Lemma C4_witness :
  (1 <= 10)%Z
  /\ exists sections,
       divideDocumentIntoSections treasuryDocument 10 = Returns sections
       /\ length sections = Z.to_nat 10
       /\ (exists s, sections !! 0%nat = Some s /\ (startPercentage s == 0)%Q)
       /\ (exists s, sections !! (Z.to_nat 10 - 1)%nat = Some s
                     /\ (endPercentage s == 100)%Q)
       /\ (forall i s t, sections !! i = Some s -> sections !! S i = Some t ->
                         endPercentage s = startPercentage t).
Proof.
  split; [lia|]. apply (C4_section_coverage treasuryDocument 10). lia.
Defined.

Lemma C9_witness :
  (1 <= 10)%Z
  /\ exists sections ci,
       divideDocumentIntoSections signatureOnlyDocument 10 = Returns sections
       /\ (exists s, sections !! ci = Some s /\ isCustomerInfoSection s = true)
       /\ (forall k s, sections !! k = Some s -> isCustomerInfoSection s = true -> k = ci)
       /\ (forall s, sections !! ci = Some s ->
             inTopPart s = true /\ customerInfoHit s = true
             \/ ci = 0%nat /\ forall k t, sections !! k = Some t ->
                                 inTopPart t = true -> customerInfoHit t = false)
       /\ (forall k k' s s', sections !! k = Some s -> sections !! k' = Some s' ->
             isSignatureSection s = true -> isSignatureSection s' = true -> k = k')
       /\ (forall k s, sections !! k = Some s -> isSignatureSection s = true ->
             inBottomHalf s = true /\ signatureHit s = true)
       /\ ((forall k s, sections !! k = Some s -> inBottomHalf s = true ->
              signatureHit s = false) ->
           forall k s, sections !! k = Some s -> isSignatureSection s = false).
Proof.
  split; [lia|]. apply (C9_section_tags signatureOnlyDocument 10). lia.
Defined.

(** With a section count of 0 nothing is returned, and no section is
    tagged as customer information. *)
Lemma C9_counterexample :
  ~ exists sections,
      divideDocumentIntoSections signatureOnlyDocument 0 = Returns sections.
Proof. intros [sections H]. vm_compute in H. discriminate H. Qed.

Lemma C3_witness :
  (is_nan 15 = false /\ is_nan 35 = false /\ is_nan 25 = false /\ is_nan 85 = false
   /\ layout (detectFormLayout 15 35 25 85) = customLayout
   /\ layoutConfidence (detectFormLayout 15 35 25 85) = 0x1.f400000000001p+5%float
   /\ calculateLayoutMatchScore 15 35 25 85 standardLayout = 62.5%float
   /\ (calculateLayoutMatchScore 15 35 25 85 standardLayout
       <? calculateLayoutMatchScore 15 35 25 85 customLayout)%float = true)
  /\ ((-1 <? 0)%float = true
      /\ layoutConfidence (detectFormLayout 18 (-1) 65 18) = 0%float
      /\ layout (detectFormLayout 18 (-1) 65 18) = standardLayout).
Proof.
  destruct (C3_layout_detection 15 35 25 85) as (_ & Hbest & _).
  destruct (Hbest eq_refl eq_refl eq_refl eq_refl)
    as (Hconf & _).
  destruct (C3_layout_detection 18 (-1) 65 18) as (_ & _ & Hmissing & _).
  assert (Hl : layout (detectFormLayout 15 35 25 85) = customLayout)
    by (vm_compute; reflexivity).
  split.
  - do 4 (split; [reflexivity|]). split; [exact Hl|].
    split; [rewrite Hconf, Hl; vm_compute; reflexivity|].
    split; [vm_compute; reflexivity|].
    vm_compute. reflexivity.
  - split; [reflexivity|].
    destruct (Hmissing (or_intror (or_introl eq_refl))) as (_ & Hc & Hlay & _).
    split; assumption.
Defined.

Lemma C10_witness :
  initialized unlearned = false
  /\ patternRegistry unlearned !! js "customerName" = None
  /\ getPatterns unlearned (js "customerName") = [].
Proof.
  destruct (C10_getPatterns_total unlearned (js "customerName")) as (Hinit & Hnone & _).
  split; [reflexivity|]. split; [reflexivity|]. apply Hinit. reflexivity.
Defined.



(** A name found only in the section tagged as signature section comes
    with a negative confidence. *)
Lemma C5_counterexample :
  ~ (0 <= fconfidence (extractCustomerName unlearned (sectionsOf signatureOnlyDocument))
     <= 100)%Z.
Proof.
  assert (E : fconfidence (extractCustomerName unlearned
                             (sectionsOf signatureOnlyDocument)) = (-35)%Z)
    by (vm_compute; reflexivity).
  rewrite E. lia.
Qed.

(** One call with a context that holds the value behind two labels stores
    two patterns. *)
Lemma C6_counterexample :
  let once := Training.learnNewPattern compileIgnoreCase fixedClock customerName
                twoLabelContext (js "John Smith") unlearned in
  let twice := Training.learnNewPattern compileIgnoreCase fixedClock customerName
                 twoLabelContext (js "John Smith") once in
  storedPatterns unlearned = []
  /\ map regexOf (storedPatterns twice)
     = [ js "Name:\s*([A-Za-z\s.'-]+)"; js "Customer:\s*([A-Za-z\s.'-]+)" ]
  /\ ~ (length (storedPatterns twice) <= length (storedPatterns unlearned) + 1)%nat.
Proof.
  intros once twice.
  assert (E : map regexOf (storedPatterns twice)
              = [ js "Name:\s*([A-Za-z\s.'-]+)"; js "Customer:\s*([A-Za-z\s.'-]+)" ])
    by (vm_compute; reflexivity).
  split; [reflexivity|]. split; [exact E|].
  rewrite <- (length_map regexOf (storedPatterns twice)), E. simpl. lia.
Qed.

(** The source synthesized for a name is not stored for the customer name,
    yet it is not inserted: a row of another field type holds it. *)
Lemma C7_counterexample :
  let source := js "Name:\s*([A-Za-z\s.'-]+)" in
  let after := Training.learnNewPattern compileIgnoreCase fixedClock customerName
                 (js "Name: John Smith") (js "John Smith") crossFieldService in
  candidatesOf customerName (js "Name: John Smith") (js "John Smith") = [source]
  /\ (forall r, In r (storedPatterns crossFieldService) ->
                fieldType (snd r) = customerName -> patternRegex (snd r) <> source)
  /\ storedPatterns after = storedPatterns crossFieldService.
Proof.
  intros source after. split; [vm_compute; reflexivity|]. split.
  - intros r [<- | []] Hf. simpl in Hf. discriminate Hf.
  - vm_compute. reflexivity.
Qed.

Lemma C8_witness :
  let before := Training.storeCorrection compileIgnoreCase fixedClock fixedLoadTime
                  customerServiceNumber (js "FTTH123") (js "FTTH1234") (js "doc-1")
                  None serviceNumberService in
  let after := Training.recordCorrection compileIgnoreCase fixedClock fixedLoadTime
                 customerServiceNumber (js "FTTH123") (js "FTTH1234") (js "doc-1")
                 None serviceNumberService in
  keysFresh (patternsOf serviceNumberService)
  /\ map fst (storedPatterns after) = map fst (storedPatterns before)
  /\ forall k p, In (k, p) (storedPatterns after) -> rateInRange p.
Proof.
  intros before after.
  assert (Hfresh : keysFresh (patternsOf serviceNumberService)).
  { split; simpl.
    - repeat constructor. intros [].
    - intros k [<- | []]. lia. }
  destruct (C8_success_rates compileIgnoreCase fixedClock fixedLoadTime
              customerServiceNumber (js "FTTH123") (js "FTTH1234") (js "doc-1")
              None serviceNumberService Hfresh) as (_ & Hkeys & _ & Hrange).
  split; [exact Hfresh|]. split; [exact Hkeys|].
  apply Hrange. intros k p [[= <- <-] | []]. split; discriminate.
Defined.

(** The correction of a service number the stored pattern matched: the
    rate of the pattern goes from 80 to 72 and its use count from 4 to 5. *)
Example corrected_service_number :
  let after := Training.recordCorrection compileIgnoreCase fixedClock fixedLoadTime
                 customerServiceNumber (js "FTTH123") (js "FTTH1234") (js "doc-1")
                 None serviceNumberService in
  map (fun r => (Qred (successRate (snd r)), usageCount (snd r))) (storedPatterns after)
  = [(72%Q, 5%Z)].
Proof. vm_compute. reflexivity. Qed.

(** * Further properties of the code *)

Local Open Scope Z_scope.

(** ** The indexes of the tagged sections *)


Lemma findIndex_spec {A} (p : A -> bool) (l : list A) :
  (findIndex p l = (-1)%Z /\ forall k x, l !! k = Some x -> p x = false)
  \/ exists i x, findIndex p l = Z.of_nat i /\ l !! i = Some x /\ p x = true.
Proof.
  induction l as [|y l IH]; simpl.
  - left. split; [reflexivity|]. intros k x H. now rewrite lookup_nil in H.
  - destruct (p y) eqn:Hy.
    + right. exists 0%nat, y. auto.
    + destruct IH as [[-> Hall] | (i & x & -> & Hx & Hp)].
      * left. split; [reflexivity|]. intros [|k] x; simpl.
        -- now intros [= <-].
        -- apply Hall.
      * right. exists (S i), x. split; [|auto].
        destruct i; simpl; [reflexivity|]. lia.
Qed.

Lemma percentageOf_10 (i : Z) : (percentageOf i 10 == inject_Z (10 * i))%Q.
Proof. unfold percentageOf, Qeq, Qdiv, Qmult, Qinv, inject_Z. simpl. lia. Qed.

(** [X1] In the default division into ten sections the tags fall where the
    detectors look: the customer information section is one of the first
    four sections and is found at its index, the signature section, when
    there is one, one of the last five. *)
Theorem analyzeDocumentSections_indexes (text : jsstring) :
  exists a,
    analyzeDocumentSections text = Returns a
    /\ totalSections a = 10%nat
    /\ length (sections a) = 10%nat
    /\ (0 <= customerInfoSectionIndex a <= 3)%Z
    /\ (signatureSectionIndex a = (-1)%Z \/ (5 <= signatureSectionIndex a <= 9)%Z)
    /\ (forall k s, sections a !! k = Some s ->
          (isCustomerInfoSection s = true <-> Z.of_nat k = customerInfoSectionIndex a)
          /\ (isSignatureSection s = true <-> Z.of_nat k = signatureSectionIndex a)).
Proof.
  destruct (divide_tags text 10 ltac:(lia))
    as (secs & ci & sg & Hd & Hlt & Htags & Hwhy & Hsg).
  destruct (divide_extent text 10 ltac:(lia)) as (secs' & Hd' & Hlen & _).
  rewrite Hd in Hd'. injection Hd' as <-.
  change (Z.to_nat 10) with 10%nat in Hlen.
  unfold analyzeDocumentSections, divideDocument. rewrite Hd.
  eexists. split; [reflexivity|]. simpl.
  assert (Eci : findIndex isCustomerInfoSection secs = Z.of_nat ci).
  { destruct (findIndex_spec isCustomerInfoSection secs)
      as [[_ Hall] | (i & x & -> & Hx & Hp)].
    - destruct (lookup_lt_is_Some_2 secs ci Hlt) as [s Hs].
      pose proof (Hall ci s Hs) as Hf.
      destruct (Htags ci s Hs) as [[_ Ht] _]. rewrite Ht in Hf; [discriminate | reflexivity].
    - destruct (Htags i x Hx) as [[Ht _] _]. now rewrite (Ht Hp). }
  assert (Esg : findIndex isSignatureSection secs
                = match sg with Some j => Z.of_nat j | None => (-1)%Z end).
  { destruct (findIndex_spec isSignatureSection secs)
      as [[-> Hall] | (i & x & -> & Hx & Hp)].
    - destruct sg as [j|]; [|reflexivity].
      destruct Hsg as (s & Hs & _).
      pose proof (Hall j s Hs) as Hf.
      destruct (Htags j s Hs) as (_ & [_ Ht] & _). rewrite Ht in Hf; [discriminate | reflexivity].
    - destruct (Htags i x Hx) as (_ & [Ht _] & _). now rewrite (Ht Hp). }
  rewrite Eci, Esg. split; [exact Hlen|]. split; [exact Hlen|]. split; [|split].
  - destruct (lookup_lt_is_Some_2 secs ci Hlt) as [s Hs].
    destruct (Hwhy s Hs) as [[Htop _] | [-> _]]; [|lia].
    destruct (Htags ci s Hs) as (_ & _ & (_ & He & _)).
    unfold inTopPart in Htop. rewrite He in Htop. simpl in Htop.
    apply Qle_bool_iff in Htop. rewrite percentageOf_10 in Htop.
    change 40%Q with (inject_Z 40) in Htop. rewrite <- Zle_Qle in Htop. lia.
  - destruct sg as [j|]; [right | now left].
    destruct Hsg as (s & Hs & Hbot & _).
    destruct (Htags j s Hs) as (_ & _ & (Hst & _ & _)).
    unfold inBottomHalf in Hbot. rewrite Hst in Hbot. simpl in Hbot.
    apply Qle_bool_iff in Hbot. rewrite percentageOf_10 in Hbot.
    change 50%Q with (inject_Z 50) in Hbot. rewrite <- Zle_Qle in Hbot.
    apply lookup_lt_Some in Hs. lia.
  - intros k s Hs. destruct (Htags k s Hs) as (Hc & Hg & _). split.
    + rewrite Hc. lia.
    + rewrite Hg. destruct sg as [j|].
      * split; [intros [= ->]; reflexivity | intros H; f_equal; lia].
      * split; [discriminate | lia].
Qed.

(** ** What the search returns *)

Lemma tryPatterns_None (patterns todo : list RegExp) (text : jsstring) (pos : Q)
      (base step : Z) (ty : option SectionType) :
  tryPatterns patterns todo text pos base step ty = None
  <-> forall p, In p todo -> capture 1 (str_match text p) = None.
Proof.
  induction todo as [|q todo IH]; simpl.
  - split; [intros _ p [] | reflexivity].
  - destruct (capture 1 (str_match text q)) eqn:Hq.
    + split; [discriminate|]. intros H. specialize (H q (or_introl eq_refl)). congruence.
    + rewrite IH. split.
      * intros H p [<- | Hp]; auto.
      * intros H p Hp. apply H. now right.
Qed.

Lemma tryPatterns_Some (patterns todo : list RegExp) (text : jsstring) (pos : Q)
      (base step : Z) (ty : option SectionType) (r : SearchResult) :
  tryPatterns patterns todo text pos base step ty = Some r ->
  position r = pos /\ sectionType r = ty
  /\ exists p m, In p todo /\ capture 1 (str_match text p) = Some m
                 /\ matched r = Some m.
Proof.
  induction todo as [|q todo IH]; simpl; [discriminate|].
  destruct (capture 1 (str_match text q)) as [m|] eqn:Hq.
  - intros [= <-]. simpl. repeat split. exists q, m. auto.
  - intros H. destruct (IH H) as (Hp & Ht & p & m & Hin & Hc & Hm).
    repeat split; auto. exists p, m. auto.
Qed.

Lemma trySections_None (band : list DocumentSection) (patterns : list RegExp)
      (base step : Z) (ty : option SectionType) :
  trySections band patterns base step ty = None
  <-> forall s p, In s band -> In p patterns ->
                  capture 1 (str_match (content s) p) = None.
Proof.
  induction band as [|x band IH]; simpl.
  - split; [intros _ s p [] | reflexivity].
  - destruct (tryPatterns patterns patterns (content x) (midpoint x) base step ty)
      as [r|] eqn:Hx.
    + split; [discriminate|]. intros H.
      assert (Hn : tryPatterns patterns patterns (content x) (midpoint x) base step ty
                   = None).
      { apply tryPatterns_None. intros p Hp. apply H; auto. }
      congruence.
    + rewrite IH. rewrite tryPatterns_None in Hx. split.
      * intros H s p [<- | Hs] Hp; auto.
      * intros H s p Hs Hp. apply H; auto.
Qed.

Lemma trySections_Some (band : list DocumentSection) (patterns : list RegExp)
      (base step : Z) (ty : option SectionType) (r : SearchResult) :
  trySections band patterns base step ty = Some r ->
  sectionType r = ty
  /\ exists s p m, In s band /\ In p patterns
                   /\ capture 1 (str_match (content s) p) = Some m
                   /\ matched r = Some m /\ position r = midpoint s.
Proof.
  induction band as [|x band IH]; simpl; [discriminate|].
  destruct (tryPatterns patterns patterns (content x) (midpoint x) base step ty)
    as [r'|] eqn:Hx.
  - intros [= <-]. apply tryPatterns_Some in Hx as (Hp & Ht & p & m & Hin & Hc & Hm).
    split; [exact Ht|]. exists x, p, m. auto.
  - intros H. destruct (IH H) as (Ht & s & p & m & Hs & Hp & Hc & Hm & Hpos).
    split; [exact Ht|]. exists s, p, m. auto.
Qed.

Lemma findPatternInSections_cases (sections : list DocumentSection)
      (patterns : list RegExp) :
  SearchCase sections patterns (findPatternInSections sections patterns).
Proof.
  unfold findPatternInSections. cbv zeta.
  match goal with
  | |- SearchCase _ _ (match ?first with Some r => r | None => ?rest end) =>
      set (R := rest); assert (HR : SearchCase sections patterns R)
  end.
  { subst R.
    destruct (trySections (List.filter isTop sections) patterns 90 5 (Some top))
      as [r|] eqn:H2.
    { apply trySections_Some in H2 as (Ht & s & p & m & Hs & Hp & Hc & Hm & Hpos).
      apply filter_In in Hs as [Hs _].
      eapply InSection; eauto. rewrite Ht. discriminate. }
    destruct (trySections (List.filter isMiddle sections) patterns 80 5 (Some middle))
      as [r|] eqn:H3.
    { apply trySections_Some in H3 as (Ht & s & p & m & Hs & Hp & Hc & Hm & Hpos).
      apply filter_In in Hs as [Hs _].
      eapply InSection; eauto. rewrite Ht. discriminate. }
    destruct (trySections (List.filter (fun s => negb (isSignatureSection s)) sections)
                          patterns 75 7 None) as [r|] eqn:H4.
    { apply trySections_Some in H4 as (Ht & s & p & m & Hs & Hp & Hc & Hm & Hpos).
      apply filter_In in Hs as [Hs _].
      eapply InSection; eauto. rewrite Ht. discriminate. }
    rewrite trySections_None in H4.
    assert (Hnon : forall s' p', In s' sections -> isSignatureSection s' = false ->
                     In p' patterns -> capture 1 (str_match (content s') p') = None).
    { intros s' p' Hs' Hf Hp'. apply H4; [|exact Hp'].
      apply filter_In. split; [exact Hs' | now rewrite Hf]. }
    destruct (trySections (List.filter isSignatureSection sections) patterns 30 5
                          (Some signature)) as [r|] eqn:H5.
    { apply trySections_Some in H5 as (Ht & s & p & m & Hs & Hp & Hc & Hm & Hpos).
      apply filter_In in Hs as [Hs Hsig].
      eapply InSection; eauto. }
    rewrite trySections_None in H5.
    assert (Hall : forall s' p', In s' sections -> In p' patterns ->
                     capture 1 (str_match (content s') p') = None).
    { intros s' p' Hs' Hp'. destruct (isSignatureSection s') eqn:Hsig.
      - apply H5; [|exact Hp']. apply filter_In. auto.
      - now apply Hnon. }
    destruct (tryPatterns patterns patterns (joinLines (map content sections)) 50 45 5
                          None) as [r|] eqn:H6.
    { apply tryPatterns_Some in H6 as (Hpos & Ht & p & m & Hp & Hc & Hm).
      eapply InWholeDocument; eauto. }
    rewrite tryPatterns_None in H6.
    now apply NotFound. }
  destruct (List.find isCustomerInfoSection sections) as [ci|] eqn:Hci; [|exact HR].
  destruct (tryPatterns patterns patterns (content ci) (midpoint ci) 95 5
                        (Some customerInfo)) as [r|] eqn:H1; [|exact HR].
  apply tryPatterns_Some in H1 as (Hp & Ht & p & m & Hin & Hc & Hm).
  apply find_some in Hci as [Hci _].
  eapply InSection; eauto. rewrite Ht. discriminate.
Qed.

(** [X2] A match the search returns is the first group of one of the
    patterns, captured in a section of the list and reported at the
    midpoint of that section, or captured in the whole document only, no
    section holding a capture of any pattern, and reported at 50. *)
Theorem findPatternInSections_sound (sections : list DocumentSection)
        (patterns : list RegExp) (m : jsstring) :
  let r := findPatternInSections sections patterns in
  matched r = Some m ->
  m <> []
  /\ ((exists s p, In s sections /\ In p patterns
                   /\ capture 1 (str_match (content s) p) = Some m
                   /\ position r = midpoint s)
      \/ (position r = 50%Q
          /\ (exists p, In p patterns
                /\ capture 1 (str_match (joinLines (map content sections)) p) = Some m)
          /\ forall s p, In s sections -> In p patterns ->
                         capture 1 (str_match (content s) p) = None)).
Proof.
  intros r Hm.
  assert (Hne : forall (a : option MatchArray), capture 1 a = Some m -> m <> []).
  { intros [a|]; unfold capture; [|discriminate].
    destruct (group 1 a) as [[|c v]|]; simpl; try discriminate.
    intros [= E]. rewrite <- E. discriminate. }
  destruct (findPatternInSections_cases sections patterns)
    as [s p m' Hs Hp Hc Hm' Hpos _ | p m' Hp Hc Hm' Hpos _ Hall | Hr _ _].
  - assert (m' = m) by (unfold r in Hm; congruence). subst m'.
    split; [eapply Hne; eauto|]. left. exists s, p. auto.
  - assert (m' = m) by (unfold r in Hm; congruence). subst m'.
    split; [eapply Hne; eauto|]. right. split; [exact Hpos|]. split; [|exact Hall].
    exists p. auto.
  - unfold r in Hm. rewrite Hr in Hm. discriminate.
Qed.

(** [X3] The search returns no match exactly when no pattern captures a
    non-empty first group in any section nor in the whole document; the
    result is then position -1 with confidence 0. *)
Theorem findPatternInSections_null (sections : list DocumentSection)
        (patterns : list RegExp) :
  let r := findPatternInSections sections patterns in
  (matched r = None
   <-> (forall s p, In s sections -> In p patterns ->
                    capture 1 (str_match (content s) p) = None)
       /\ (forall p, In p patterns ->
                     capture 1 (str_match (joinLines (map content sections)) p) = None))
  /\ (matched r = None -> r = mkSearch (-1) None 0 None).
Proof.
  intros r. subst r.
  destruct (findPatternInSections_cases sections patterns)
    as [s p m Hs Hp Hc Hm Hpos _ | p m Hp Hc Hm Hpos _ Hall | Hr Hall Hwhole].
  - split; [split|]; [congruence | | congruence].
    intros [H _]. rewrite (H s p Hs Hp) in Hc. discriminate.
  - split; [split|]; [congruence | | congruence].
    intros [_ H]. rewrite (H p Hp) in Hc. discriminate.
  - split; [split|]; [auto | | auto].
    intros _. now rewrite Hr.
Qed.

(** [X4] The signature sections are a last resort: a result of section
    type [signature] comes from a section tagged as signature section,
    and then no pattern captures anything in any section without the
    tag. *)
Theorem findPatternInSections_signature_last (sections : list DocumentSection)
        (patterns : list RegExp) :
  let r := findPatternInSections sections patterns in
  sectionType r = Some signature ->
  (exists s p m, In s sections /\ isSignatureSection s = true /\ In p patterns
                 /\ capture 1 (str_match (content s) p) = Some m
                 /\ matched r = Some m /\ position r = midpoint s)
  /\ forall s p, In s sections -> isSignatureSection s = false -> In p patterns ->
                 capture 1 (str_match (content s) p) = None.
Proof.
  intros r Hty. subst r.
  destruct (findPatternInSections_cases sections patterns)
    as [s p m Hs Hp Hc Hm Hpos Hsig | p m Hp Hc Hm Hpos Hnone Hall | Hr _ _].
  - destruct (Hsig Hty) as [Hs' Hnon]. split; [|exact Hnon].
    exists s, p, m. repeat split; assumption.
  - congruence.
  - rewrite Hr in Hty. discriminate.
Qed.

(** ** Where the extractors find their values *)

Lemma search_placed (sections : list DocumentSection) (patterns : list RegExp)
      (m : jsstring) (v : jsstring) (c : Z) :
  truthy (matched (findPatternInSections sections patterns)) = Some m ->
  placedIn sections (mkField v c (position (findPatternInSections sections patterns))).
Proof.
  intros Hm.
  assert (Hm' : matched (findPatternInSections sections patterns) = Some m).
  { destruct (matched _) as [[|x y]|]; simpl in Hm; congruence. }
  destruct (findPatternInSections_cases sections patterns)
    as [s p m' Hs _ _ _ Hpos _ | p m' _ _ _ Hpos _ _ | Hr _ _].
  - left. exists s. auto.
  - now right.
  - rewrite Hr in Hm'. discriminate.
Qed.

Lemma fromCustomerInfo_placed (s : DocumentSection) (patterns : list RegExp)
      (r : FieldResult) :
  fromCustomerInfo s patterns = Some r -> fposition r = midpoint s.
Proof.
  unfold fromCustomerInfo.
  destruct (capture 1 _); [now intros [= <-]|].
  destruct (capture 2 _); [now intros [= <-]|].
  destruct (firstCapture _ _); [now intros [= <-] | discriminate].
Qed.

Lemma scanTop_placed (band : list DocumentSection) (patterns : list RegExp)
      (a b : Z) (r : FieldResult) :
  scanTop band patterns a b = Some r -> exists s, In s band /\ fposition r = midpoint s.
Proof.
  induction band as [|x band IH]; simpl; [discriminate|].
  destruct (capture 2 _); [intros [= <-]; exists x; auto|].
  destruct (firstCapture _ _); [intros [= <-]; exists x; auto|].
  intros H. destruct (IH H) as (s & Hs & Hp). exists s. auto.
Qed.

Lemma nameFallback_placed (band : list DocumentSection) (r : FieldResult) :
  nameFallback band = Some r -> exists s, In s band /\ fposition r = midpoint s.
Proof.
  induction band as [|x band IH]; simpl; [discriminate|].
  destruct (capture 1 _); [intros [= <-]; exists x; auto|].
  intros H. destruct (IH H) as (s & Hs & Hp). exists s. auto.
Qed.

Lemma amountFallback_placed (band : list DocumentSection) (r : FieldResult) :
  amountFallback band = Some r -> exists s, In s band /\ fposition r = midpoint s.
Proof.
  induction band as [|x band IH]; simpl; [discriminate|].
  destruct (capture 1 _); [intros [= <-]; exists x; auto|].
  intros H. destruct (IH H) as (s & Hs & Hp). exists s. auto.
Qed.

Lemma ibanFallback_placed (band : list DocumentSection) (r : FieldResult) :
  ibanFallback band = Some r -> exists s, In s band /\ fposition r = midpoint s.
Proof.
  induction band as [|x band IH]; simpl; [discriminate|].
  destruct (capture 1 _); [intros [= <-]; exists x; auto|].
  intros H. destruct (IH H) as (s & Hs & Hp). exists s. auto.
Qed.

Lemma serviceFallback_placed (band : list DocumentSection) (r : FieldResult) :
  serviceFallback band = Some r -> exists s, In s band /\ fposition r = midpoint s.
Proof.
  induction band as [|x band IH]; simpl; [discriminate|].
  destruct (capture 1 _); [intros [= <-]; exists x; auto|].
  intros H. destruct (IH H) as (s & Hs & Hp). exists s. auto.
Qed.

Lemma extractCustomerName_placed (svc : TrainingService) (sections : list DocumentSection) :
  extractCustomerName svc sections = notFound "Unknown"
  \/ placedIn sections (extractCustomerName svc sections).
Proof.
  unfold extractCustomerName. cbv zeta.
  set (patterns := getPatterns svc (js "customerName") ++ defaultNamePatterns).
  destruct (List.find isCustomerInfoSection sections) as [ci|] eqn:Hci.
  - destruct (fromCustomerInfo ci patterns) as [r|] eqn:H1.
    { right. left. exists ci. split; [now apply find_some in Hci|].
      now apply fromCustomerInfo_placed in H1. }
    destruct (scanTop _ patterns 95 90) as [r|] eqn:H2.
    { right. left. apply scanTop_placed in H2 as (s & Hs & Hp).
      apply filter_In in Hs as [Hs _]. apply filter_In in Hs as [Hs _]. eauto. }
    destruct (scanTop _ patterns 85 80) as [r|] eqn:H3.
    { right. left. apply scanTop_placed in H3 as (s & Hs & Hp).
      apply filter_In in Hs as [Hs _]. eauto. }
    destruct (truthy (matched (findPatternInSections sections patterns))) as [m|] eqn:H4.
    { right. eapply search_placed; eauto. }
    destruct (nameFallback _) as [r|] eqn:H5; [|now left].
    right. left. apply nameFallback_placed in H5 as (s & Hs & Hp).
    apply filter_In in Hs as [Hs _]. eauto.
  - destruct (scanTop _ patterns 95 90) as [r|] eqn:H2.
    { right. left. apply scanTop_placed in H2 as (s & Hs & Hp).
      apply filter_In in Hs as [Hs _]. apply filter_In in Hs as [Hs _]. eauto. }
    destruct (scanTop _ patterns 85 80) as [r|] eqn:H3.
    { right. left. apply scanTop_placed in H3 as (s & Hs & Hp).
      apply filter_In in Hs as [Hs _]. eauto. }
    destruct (truthy (matched (findPatternInSections sections patterns))) as [m|] eqn:H4.
    { right. eapply search_placed; eauto. }
    destruct (nameFallback _) as [r|] eqn:H5; [|now left].
    right. left. apply nameFallback_placed in H5 as (s & Hs & Hp).
    apply filter_In in Hs as [Hs _]. eauto.
Qed.

Lemma extractRefundAmount_placed (svc : TrainingService) (sections : list DocumentSection) :
  extractRefundAmount svc sections = notFound "0.00"
  \/ placedIn sections (extractRefundAmount svc sections).
Proof.
  unfold extractRefundAmount. cbv zeta.
  set (patterns := getPatterns svc (js "refundAmount") ++ defaultAmountPatterns).
  destruct (truthy (matched (findPatternInSections sections patterns))) as [m|] eqn:H4.
  { right. eapply search_placed; eauto. }
  destruct (amountFallback _) as [r|] eqn:H5; [|now left].
  right. left. now apply amountFallback_placed in H5.
Qed.

Lemma extractIBAN_placed (svc : TrainingService) (sections : list DocumentSection) :
  extractIBAN svc sections = notFound "Unknown"
  \/ placedIn sections (extractIBAN svc sections).
Proof.
  unfold extractIBAN. cbv zeta.
  set (patterns := getPatterns svc (js "ibanNumber") ++ defaultIbanPatterns).
  destruct (truthy (matched (findPatternInSections sections patterns))) as [m|] eqn:H4.
  { right. eapply search_placed; eauto. }
  destruct (ibanFallback _) as [r|] eqn:H5; [|now left].
  right. left. now apply ibanFallback_placed in H5.
Qed.

Lemma extractServiceNumber_placed (svc : TrainingService)
      (sections : list DocumentSection) :
  extractServiceNumber svc sections = notFound "Unknown"
  \/ placedIn sections (extractServiceNumber svc sections).
Proof.
  unfold extractServiceNumber. cbv zeta.
  set (patterns := getPatterns svc (js "customerServiceNumber") ++ defaultServicePatterns).
  destruct (truthy (matched (findPatternInSections sections patterns))) as [m|] eqn:H4.
  { right. eapply search_placed; eauto. }
  destruct (serviceFallback _) as [r|] eqn:H5; [|now left].
  right. left. now apply serviceFallback_placed in H5.
Qed.

Local Open Scope Q_scope.

Lemma percentageOf_nonneg (i n : Z) : (0 <= i)%Z -> (1 <= n)%Z -> 0 <= percentageOf i n.
Proof.
  intros Hi Hn. unfold percentageOf.
  apply Qmult_le_0_compat; [|discriminate].
  apply Qle_shift_div_l; [unfold Qlt; simpl; lia|]. rewrite Qmult_0_l.
  unfold Qle. simpl. lia.
Qed.

Lemma percentageOf_le_100 (i n : Z) : (i <= n)%Z -> (1 <= n)%Z -> percentageOf i n <= 100.
Proof.
  intros Hi Hn. unfold percentageOf.
  apply Qle_trans with (1 * 100); [|discriminate].
  apply Qmult_le_compat_r; [|discriminate].
  apply Qle_shift_div_r; [unfold Qlt; simpl; lia|]. rewrite Qmult_1_l.
  now rewrite <- Zle_Qle.
Qed.

Lemma divided_midpoint (text : jsstring) (n : Z) (sections : list DocumentSection)
      (s : DocumentSection) :
  divideDocumentIntoSections text n = Returns sections ->
  In s sections -> 0 < midpoint s < 100.
Proof.
  intros Hd Hs.
  pose proof (divide_Returns_positive text n sections Hd) as Hn.
  destruct (divide_extent text n Hn) as (secs & Hd' & Hlen & Hext).
  rewrite Hd in Hd'. injection Hd' as <-.
  apply list_elem_of_In, list_elem_of_lookup in Hs as [k Hk].
  destruct (Hext k s Hk) as (Hst & Hen & _). simpl in Hst, Hen.
  apply lookup_lt_Some in Hk. rewrite Hlen in Hk.
  unfold midpoint. rewrite Hst, Hen.
  pose proof (percentageOf_nonneg (Z.of_nat k) n ltac:(lia) Hn) as H0.
  pose proof (percentageOf_le_100 (Z.of_nat k + 1) n ltac:(lia) Hn) as H1.
  pose proof (percentageOf_lt (Z.of_nat k) n Hn) as H2.
  split.
  - apply Qlt_shift_div_l; [reflexivity|]. lra.
  - apply Qlt_shift_div_r; [reflexivity|]. lra.
Qed.

(** [X5] On the sections of a divided document every extractor reports a
    position strictly between 0 and 100, unless it returns its result
    for a field that was not found, whose position is -1. *)
Theorem extractors_position (svc : TrainingService) (text : jsstring) (n : Z)
        (sections : list DocumentSection) :
  divideDocumentIntoSections text n = Returns sections ->
  (extractCustomerName svc sections = notFound "Unknown"
   \/ 0 < fposition (extractCustomerName svc sections) < 100)
  /\ (extractRefundAmount svc sections = notFound "0.00"
      \/ 0 < fposition (extractRefundAmount svc sections) < 100)
  /\ (extractIBAN svc sections = notFound "Unknown"
      \/ 0 < fposition (extractIBAN svc sections) < 100)
  /\ (extractServiceNumber svc sections = notFound "Unknown"
      \/ 0 < fposition (extractServiceNumber svc sections) < 100).
Proof.
  intros Hd.
  assert (Hin : forall r, placedIn sections r -> 0 < fposition r < 100).
  { intros r [(s & Hs & ->) | ->].
    - eapply divided_midpoint; eauto.
    - split; reflexivity. }
  split; [|split; [|split]].
  - destruct (extractCustomerName_placed svc sections); auto.
  - destruct (extractRefundAmount_placed svc sections); auto.
  - destruct (extractIBAN_placed svc sections); auto.
  - destruct (extractServiceNumber_placed svc sections); auto.
Qed.

Local Open Scope Z_scope.

(** ** Sorting *)

Section StableSort.

Context {A : Type} (le : A -> A -> bool).
Hypothesis le_total : forall a b, le a b = true \/ le b a = true.

Lemma insertSorted_perm (x : A) (l : list A) :
  Permutation (insertSorted le x l) (x :: l).
Proof.
  induction l as [|y l IH]; simpl; [reflexivity|].
  destruct (le x y); [reflexivity|].
  rewrite IH. apply perm_swap.
Qed.

Lemma stableSort_perm (l : list A) : Permutation (stableSort le l) l.
Proof.
  induction l as [|x l IH]; simpl; [reflexivity|].
  rewrite insertSorted_perm. now apply perm_skip.
Qed.

Lemma insertSorted_sorted (x : A) (l : list A) :
  Sorted (fun a b => le a b = true) l ->
  Sorted (fun a b => le a b = true) (insertSorted le x l).
Proof.
  induction l as [|y l IH]; intros Hs; simpl.
  - repeat constructor.
  - destruct (le x y) eqn:Hxy.
    + constructor; [exact Hs | now constructor].
    + inversion Hs as [|? ? Hs' Hhd]; subst.
      constructor; [now apply IH|].
      destruct l as [|z l]; simpl.
      * constructor. destruct (le_total x y); congruence.
      * destruct (le x z).
        -- constructor. destruct (le_total x y); congruence.
        -- inversion Hhd; subst. now constructor.
Qed.

Lemma stableSort_sorted (l : list A) :
  Sorted (fun a b => le a b = true) (stableSort le l).
Proof.
  induction l as [|x l IH]; simpl; [constructor | now apply insertSorted_sorted].
Qed.

End StableSort.

Lemma jsleb_total (a b : jsstring) : jsleb a b = true \/ jsleb b a = true.
Proof.
  revert b. induction a as [|x a IH]; intros [|y b]; simpl; auto.
  destruct (N.compare_spec x y) as [-> | H | H].
  - rewrite N.ltb_irrefl, N.eqb_refl. simpl. apply IH.
  - left. apply N.ltb_lt in H. now rewrite H.
  - right. apply N.ltb_lt in H. now rewrite H.
Qed.

Lemma jsleb_trans (a b c : jsstring) :
  jsleb a b = true -> jsleb b c = true -> jsleb a c = true.
Proof.
  revert b c. induction a as [|x a IH]; intros [|y b] [|z c]; simpl; auto;
    try discriminate.
  intros H1 H2.
  apply orb_true_iff in H1 as [H1 | H1]; apply orb_true_iff in H2 as [H2 | H2].
  - apply N.ltb_lt in H1, H2. apply orb_true_iff. left. apply N.ltb_lt. lia.
  - apply andb_true_iff in H2 as [E H2]. apply N.eqb_eq in E. subst z.
    now rewrite H1.
  - apply andb_true_iff in H1 as [E H1]. apply N.eqb_eq in E. subst y.
    now rewrite H2.
  - apply andb_true_iff in H1 as [E1 H1]. apply andb_true_iff in H2 as [E2 H2].
    apply N.eqb_eq in E1, E2. subst y z. rewrite N.eqb_refl. simpl.
    apply orb_true_iff. right. eapply IH; eauto.
Qed.

(** *** The order of the registry *)

Lemma insertByPriority_perm (x : nat * ExtractionPattern) l :
  Permutation (insertByPriority x l) (x :: l).
Proof.
  induction l as [|y l IH]; simpl; [reflexivity|].
  destruct (_ <? _)%Z; [reflexivity|]. rewrite IH. apply perm_swap.
Qed.

Lemma sortByPriority_perm l : Permutation (sortByPriority l) l.
Proof.
  induction l as [|x l IH]; simpl; [reflexivity|].
  rewrite insertByPriority_perm. now apply perm_skip.
Qed.

Lemma insertByPriority_sorted x l :
  StronglySorted priorityLe l -> StronglySorted priorityLe (insertByPriority x l).
Proof.
  induction l as [|y l IH]; intros Hs; simpl.
  - repeat constructor.
  - inversion Hs as [|? ? Hs' Hall]; subst.
    destruct (priority (snd x) <? priority (snd y))%Z eqn:Hxy.
    + apply Z.ltb_lt in Hxy. constructor; [exact Hs|].
      constructor; [unfold priorityLe; lia|].
      eapply List.Forall_impl; [|exact Hall]. unfold priorityLe. intros; simpl in *; lia.
    + apply Z.ltb_ge in Hxy. constructor; [now apply IH|].
      eapply Permutation_Forall; [symmetry; apply insertByPriority_perm|].
      constructor; [exact Hxy | exact Hall].
Qed.

Lemma sortByPriority_sorted l : StronglySorted priorityLe (sortByPriority l).
Proof.
  induction l as [|x l IH]; simpl; [constructor | now apply insertByPriority_sorted].
Qed.

(** A row is inserted behind the rows of its own priority. *)
Lemma insertByPriority_filter (p : Z) x l :
  StronglySorted priorityLe l ->
  List.filter (hasPriority p) (insertByPriority x l)
  = List.filter (hasPriority p) l ++ (if hasPriority p x then [x] else []).
Proof.
  induction l as [|y l IH]; intros Hs; simpl.
  - destruct (hasPriority p x); reflexivity.
  - inversion Hs as [|? ? Hs' Hall]; subst.
    destruct (priority (snd x) <? priority (snd y))%Z eqn:Hxy.
    + apply Z.ltb_lt in Hxy. simpl.
      destruct (hasPriority p x) eqn:Hx.
      * (* nothing of priority [p] in [y :: l] *)
        unfold hasPriority in Hx. apply Z.eqb_eq in Hx.
        assert (Hy : hasPriority p y = false).
        { unfold hasPriority. apply Z.eqb_neq. lia. }
        assert (Hl : List.filter (hasPriority p) l = []).
        { clear -Hall Hxy Hx. induction Hall as [|z l Hz Hall IH]; simpl; [reflexivity|].
          unfold hasPriority at 1. unfold priorityLe in Hz.
          destruct (Z.eqb_spec (priority (snd z)) p); [lia | exact IH]. }
        rewrite Hy, Hl. reflexivity.
      * rewrite app_nil_r. reflexivity.
    + simpl. rewrite (IH Hs'). destruct (hasPriority p y); reflexivity.
Qed.

Lemma sortByPriority_filter (p : Z) l :
  List.filter (hasPriority p) (sortByPriority l) = rev (List.filter (hasPriority p) l).
Proof.
  induction l as [|x l IH]; simpl; [reflexivity|].
  rewrite insertByPriority_filter by apply sortByPriority_sorted.
  rewrite IH. destruct (hasPriority p x); simpl; [reflexivity | apply app_nil_r].
Qed.

Lemma filter_perm {A} (p : A -> bool) (l l' : list A) :
  Permutation l l' -> Permutation (List.filter p l) (List.filter p l').
Proof.
  induction 1 as [|x l l' _ IH|x y l|l l' l'' _ IH1 _ IH2]; simpl.
  - reflexivity.
  - destruct (p x); [now apply perm_skip | exact IH].
  - destruct (p x), (p y); try reflexivity. apply perm_swap.
  - now rewrite IH1.
Qed.

Lemma filter_comm {A} (p q : A -> bool) (l : list A) :
  List.filter p (List.filter q l) = List.filter q (List.filter p l).
Proof.
  induction l as [|x l IH]; simpl; [reflexivity|].
  destruct (p x) eqn:Hp, (q x) eqn:Hq; simpl; rewrite ?Hp, ?Hq, IH; reflexivity.
Qed.

Lemma registry_order (f : FieldType) (stored : list (nat * ExtractionPattern)) :
  inRegistryOrder f stored (sortByPriority (fieldRows f (sortByPriority stored))).
Proof.
  split; [|split].
  - rewrite sortByPriority_perm. apply filter_perm, sortByPriority_perm.
  - apply sortByPriority_sorted.
  - intros p. unfold fieldRows.
    rewrite sortByPriority_filter, filter_comm, sortByPriority_filter.
    rewrite List.filter_rev, rev_involutive. apply filter_comm.
Qed.

Section Registry.

Variable RegExp_new : jsstring -> option RegExp.
Variable clock : nat -> jsstring.
Variable loadTime : jsstring.

Local Abbreviation initialize := (Training.initialize RegExp_new loadTime).
Local Abbreviation loadPatternRegistry := (Training.loadPatternRegistry RegExp_new).
Local Abbreviation compileAll := (Training.compileAll RegExp_new).
Local Abbreviation recordCorrection := (Training.recordCorrection RegExp_new clock loadTime).
Local Abbreviation clearAllTrainingData :=
  (TrainingData.clearAllTrainingData RegExp_new loadTime).

Lemma registry_lookup (svc : TrainingService) (f : FieldType) :
  patternRegistry (loadPatternRegistry svc) !! fieldTypeName f
  = Some (compileAll (sortByPriority (fieldRows f (sortByPriority (storedPatterns svc))))).
Proof.
  unfold Training.loadPatternRegistry. cbv zeta. cbn [patternRegistry].
  unfold allFieldTypes. cbn [fold_left].
  destruct f; cbn [fieldTypeName];
    repeat first [ rewrite lookup_insert_eq; reflexivity
                 | rewrite lookup_insert_ne by (vm_compute; discriminate) ].
Qed.

Lemma loaded_follows (svc : TrainingService) :
  initialized svc = true ->
  registryFollowsStore RegExp_new (loadPatternRegistry svc).
Proof.
  intros Hi f. eexists. split; [|apply registry_order].
  unfold getPatterns. cbn [initialized Training.loadPatternRegistry].
  rewrite Hi. cbn [negb]. now rewrite registry_lookup.
Qed.

Lemma initialize_initialized (svc : TrainingService) :
  initialized (initialize svc) = true.
Proof.
  unfold Training.initialize. destruct (initialized svc) eqn:Hi; [exact Hi | reflexivity].
Qed.

Lemma initialize_done (svc : TrainingService) :
  initialized svc = true -> initialize svc = svc.
Proof. intros Hi. unfold Training.initialize. now rewrite Hi. Qed.

Lemma learnFromLine_initialized (f : FieldType) (v : jsstring) (svc : TrainingService)
      (line : jsstring) :
  initialized (Training.learnFromLine RegExp_new clock f v svc line) = initialized svc.
Proof.
  unfold Training.learnFromLine.
  destruct (candidatePattern f v line); [|reflexivity].
  destruct (Nat.eqb _ 0); reflexivity.
Qed.

Lemma learnNewPattern_initialized (f : FieldType) (context v : jsstring)
      (svc : TrainingService) :
  initialized (Training.learnNewPattern RegExp_new clock f context v svc)
  = initialized svc.
Proof.
  unfold Training.learnNewPattern. revert svc.
  induction (splitLines context) as [|line lines IH]; intros svc; simpl; [reflexivity|].
  rewrite IH. apply learnFromLine_initialized.
Qed.

Lemma learnFromContext_initialized (f : FieldType) (context : option jsstring)
      (v : jsstring) (svc : TrainingService) :
  initialized (Training.learnFromContext RegExp_new clock f context v svc)
  = initialized svc.
Proof.
  unfold Training.learnFromContext. destruct (truthy context); [|reflexivity].
  apply learnNewPattern_initialized.
Qed.

Lemma addTrainingExample_initialized (f : FieldType) (pattern v : jsstring)
      (context : option jsstring) (conf : Z) (svc : TrainingService) :
  initialized (snd (Training.addTrainingExample RegExp_new clock loadTime
                      f pattern v context conf svc)) = true.
Proof.
  unfold Training.addTrainingExample. cbv zeta. cbn [Training.readClock snd].
  rewrite learnFromContext_initialized. cbn [initialized Training.initializeFuseSearch setDb].
  apply initialize_initialized.
Qed.

Lemma storeCorrection_initialized (f : FieldType) (o c d : jsstring)
      (context : option jsstring) (svc : TrainingService) :
  initialized (Training.storeCorrection RegExp_new clock loadTime f o c d context svc)
  = true.
Proof.
  unfold Training.storeCorrection. cbv zeta. cbn [Training.readClock].
  rewrite learnFromContext_initialized. apply addTrainingExample_initialized.
Qed.

Lemma updateOne_initialized (o c : jsstring) (svc : TrainingService)
      (r : nat * ExtractionPattern) :
  initialized (Training.updateOne RegExp_new clock o c svc r) = initialized svc.
Proof.
  unfold Training.updateOne. cbv zeta.
  destruct (Training.patternMatches _ _ _); reflexivity.
Qed.

Lemma recordCorrection_initialized (f : FieldType) (o c d : jsstring)
      (context : option jsstring) (svc : TrainingService) :
  initialized (recordCorrection f o c d context svc) = true.
Proof.
  unfold Training.recordCorrection, Training.updatePatternSuccessRates. cbv zeta.
  cbn [initialized Training.loadPatternRegistry].
  generalize (tableWhere (fun p => FieldType_eqb (fieldType p) f)
                (extractionPatterns
                   (db (Training.storeCorrection RegExp_new clock loadTime f o c d context
                          svc)))).
  pose proof (storeCorrection_initialized f o c d context svc) as H.
  revert H.
  generalize (Training.storeCorrection RegExp_new clock loadTime f o c d context svc).
  intros s Hs l. revert s Hs.
  induction l as [|r l IH]; intros s Hs; simpl; [exact Hs|].
  apply IH. now rewrite updateOne_initialized.
Qed.

(** [X6] Whenever the registry is loaded it follows the store: for each
    field type it lists the compiled stored patterns of that type by
    priority, patterns of equal priority in the order of their keys.  It
    is loaded by the first [initialize], by every [recordCorrection] and
    by [clearAllTrainingData]. *)
Theorem registry_follows_store (f : FieldType) (o c d : jsstring)
        (context : option jsstring) (svc : TrainingService) :
  (initialized svc = false -> registryFollowsStore RegExp_new (initialize svc))
  /\ registryFollowsStore RegExp_new (recordCorrection f o c d context svc)
  /\ (initialized svc = true ->
      registryFollowsStore RegExp_new (clearAllTrainingData svc)).
Proof.
  split; [|split].
  - intros Hi g. eexists. split; [|apply registry_order].
    unfold Training.initialize. rewrite Hi. cbv zeta.
    unfold getPatterns. cbn [initialized negb patternRegistry].
    rewrite registry_lookup. reflexivity.
  - pose proof (recordCorrection_initialized f o c d context svc) as Hi.
    unfold Training.recordCorrection, Training.updatePatternSuccessRates in *.
    cbv zeta in *. apply loaded_follows. exact Hi.
  - intros Hi. unfold TrainingData.clearAllTrainingData. cbv zeta.
    apply loaded_follows. exact Hi.
Qed.

End Registry.

(** ** The tables *)

Lemma tableBulkAdd_values {A} (l : list A) (t : Table A) :
  map snd (rows (tableBulkAdd t l)) = map snd (rows t) ++ l.
Proof.
  unfold tableBulkAdd. revert t.
  induction l as [|a l IH]; intros t; simpl; [now rewrite app_nil_r|].
  rewrite IH. simpl. rewrite map_app, <- app_assoc. reflexivity.
Qed.

Lemma tableBulkAdd_rows {A} (l : list A) (t : Table A) :
  exists new, rows (tableBulkAdd t l) = rows t ++ new /\ map snd new = l.
Proof.
  unfold tableBulkAdd. revert t.
  induction l as [|a l IH]; intros t; simpl.
  - exists []. now rewrite app_nil_r.
  - destruct (IH (tableAdd t a)) as (new & Hr & Hv).
    exists ((nextKey t, a) :: new). simpl in Hr. rewrite Hr, <- app_assoc.
    split; [reflexivity|]. simpl. now rewrite Hv.
Qed.

Lemma tableGet_add {A} (t : Table A) (a : A) :
  keysFresh t -> tableGet (tableAdd t a) (nextKey t) = Some a.
Proof.
  intros [_ Hlt]. unfold tableGet, tableAdd. cbn [rows].
  induction (rows t) as [|[k x] l IH]; simpl.
  - now rewrite Nat.eqb_refl.
  - destruct (Nat.eqb_spec k (nextKey t)) as [E | _].
    + specialize (Hlt k (or_introl eq_refl)). lia.
    + apply IH. intros k' Hk'. apply Hlt. now right.
Qed.

Lemma tableGet_update {A} (t : Table A) (key k : nat) (change : A -> A) :
  tableGet (tableUpdate t key change) k
  = if Nat.eqb k key then option_map change (tableGet t k) else tableGet t k.
Proof.
  unfold tableGet, tableUpdate. cbn [rows].
  induction (rows t) as [|[k' x] l IH]; simpl.
  - now destruct (Nat.eqb k key).
  - destruct (Nat.eqb_spec k' key) as [-> | Hne]; simpl.
    + destruct (Nat.eqb_spec key k) as [<- | Hk].
      * now rewrite Nat.eqb_refl.
      * rewrite IH. destruct (Nat.eqb_spec k key); [congruence | reflexivity].
    + destruct (Nat.eqb_spec k' k) as [<- | Hk].
      * destruct (Nat.eqb_spec k' key); [congruence | reflexivity].
      * exact IH.
Qed.

Lemma tableGet_In {A} (t : Table A) (k : nat) (a : A) :
  tableGet t k = Some a -> In (k, a) (rows t).
Proof.
  unfold tableGet. destruct (List.find _ _) as [[k' x]|] eqn:Hf; [|discriminate].
  intros [= <-]. apply find_some in Hf as [Hin Hk]. simpl in Hk.
  apply Nat.eqb_eq in Hk. now subst k'.
Qed.

Lemma tableGet_None {A} (t : Table A) (k : nat) :
  tableGet t k = None <-> ~ In k (map fst (rows t)).
Proof.
  unfold tableGet. split.
  - destruct (List.find _ _) eqn:Hf; [discriminate|]. intros _ Hin.
    apply in_map_iff in Hin as ([k' x] & <- & Hin).
    pose proof (find_none _ _ Hf _ Hin) as H. simpl in H.
    now rewrite Nat.eqb_refl in H.
  - intros Hn. destruct (List.find _ _) as [[k' x]|] eqn:Hf; [|reflexivity].
    apply find_some in Hf as [Hin Hk]. simpl in Hk. apply Nat.eqb_eq in Hk. subst k'.
    exfalso. apply Hn. apply in_map_iff. now exists (k, x).
Qed.

Section Bookkeeping.

Variable RegExp_new : jsstring -> option RegExp.
Variable clock : nat -> jsstring.
Variable loadTime : jsstring.

Local Abbreviation initialize := (Training.initialize RegExp_new loadTime).
Local Abbreviation learnNewPattern := (Training.learnNewPattern RegExp_new clock).
Local Abbreviation learnFromContext := (Training.learnFromContext RegExp_new clock).
Local Abbreviation addTrainingExample :=
  (Training.addTrainingExample RegExp_new clock loadTime).
Local Abbreviation storeCorrection := (Training.storeCorrection RegExp_new clock loadTime).
Local Abbreviation recordCorrection := (Training.recordCorrection RegExp_new clock loadTime).
Local Abbreviation improveConfidence := (TrainingData.improveConfidence RegExp_new clock loadTime).
Local Abbreviation clearAllTrainingData :=
  (TrainingData.clearAllTrainingData RegExp_new loadTime).

Lemma keepsRecords_refl svc : keepsRecords svc svc.
Proof. repeat split. Qed.

Lemma keepsRecords_trans a b c : keepsRecords a b -> keepsRecords b c -> keepsRecords a c.
Proof. intros (H1 & H2 & H3) (H4 & H5 & H6). repeat split; congruence. Qed.

Lemma learnFromLine_keeps f v svc line :
  keepsRecords svc (Training.learnFromLine RegExp_new clock f v svc line).
Proof.
  unfold Training.learnFromLine.
  destruct (candidatePattern f v line); [|apply keepsRecords_refl].
  destruct (Nat.eqb _ 0); [|apply keepsRecords_refl]. repeat split.
Qed.

Lemma learnNewPattern_keeps f context v svc :
  keepsRecords svc (learnNewPattern f context v svc).
Proof.
  unfold Training.learnNewPattern. revert svc.
  induction (splitLines context) as [|line lines IH]; intros svc; simpl.
  - apply keepsRecords_refl.
  - eapply keepsRecords_trans; [apply learnFromLine_keeps | apply IH].
Qed.

Lemma learnFromContext_keeps f context v svc :
  keepsRecords svc (learnFromContext f context v svc).
Proof.
  unfold Training.learnFromContext. destruct (truthy context).
  - apply learnNewPattern_keeps.
  - apply keepsRecords_refl.
Qed.

Lemma updates_keep o c (l : list (nat * ExtractionPattern)) svc :
  keepsRecords svc (fold_left (Training.updateOne RegExp_new clock o c) l svc).
Proof.
  revert svc. induction l as [|r l IH]; intros svc; simpl.
  - apply keepsRecords_refl.
  - eapply keepsRecords_trans; [|apply IH].
    unfold Training.updateOne. cbv zeta.
    destruct (Training.patternMatches _ _ _); repeat split.
Qed.

Lemma initialize_corrections svc :
  correctionHistory (db (initialize svc)) = correctionHistory (db svc).
Proof.
  unfold Training.initialize. destruct (initialized svc); [reflexivity|]. cbv zeta.
  destruct (Nat.eqb _ 0), (Nat.eqb _ 0); reflexivity.
Qed.

Lemma initialize_ticks svc : ticks (initialize svc) = ticks svc.
Proof.
  unfold Training.initialize. destruct (initialized svc); [reflexivity|]. cbv zeta.
  destruct (Nat.eqb _ 0), (Nat.eqb _ 0); reflexivity.
Qed.

Lemma initialize_examples_fresh svc :
  keysFresh (trainingExamples (db svc)) ->
  keysFresh (trainingExamples (db (initialize svc))).
Proof.
  intros Hk. unfold Training.initialize. destruct (initialized svc); [exact Hk|].
  cbv zeta.
  destruct (Nat.eqb (tableCount (trainingExamples (db svc))) 0);
    destruct (Nat.eqb (tableCount (extractionPatterns (db svc))) 0);
    cbn [db setDb setExamples setPatterns trainingExamples extractionPatterns
         Training.loadPatternRegistry Training.initializeFuseSearch];
    try exact Hk; now apply keysFresh_bulkAdd.
Qed.

(** [X7] [initialize] seeds a table only when it is empty and never
    touches a stored row: after the first call the service is
    initialized and holds at least one pattern and one example, a table
    that held rows holds the same rows, the correction history is as it
    was, and every further call changes nothing. *)
Theorem initialize_seeds (svc : TrainingService) :
  let svc' := initialize svc in
  initialized svc' = true
  /\ initialize svc' = svc'
  /\ (initialized svc = true -> svc' = svc)
  /\ correctionHistory (db svc') = correctionHistory (db svc)
  /\ (rows (extractionPatterns (db svc)) <> [] ->
      extractionPatterns (db svc') = extractionPatterns (db svc))
  /\ (rows (trainingExamples (db svc)) <> [] ->
      trainingExamples (db svc') = trainingExamples (db svc))
  /\ (initialized svc = false ->
      (rows (extractionPatterns (db svc)) = [] ->
       map snd (rows (extractionPatterns (db svc')))
       = Training.initialExtractionPatterns loadTime)
      /\ (rows (trainingExamples (db svc)) = [] ->
          map snd (rows (trainingExamples (db svc')))
          = Training.initialTrainingData loadTime)
      /\ rows (extractionPatterns (db svc')) <> []
      /\ rows (trainingExamples (db svc')) <> []).
Proof.
  intros svc'. subst svc'.
  split; [apply initialize_initialized|].
  split; [apply initialize_done, initialize_initialized|].
  split; [apply initialize_done|].
  split; [apply initialize_corrections|].
  unfold Training.initialize.
  destruct (initialized svc) eqn:Hi; [repeat split; discriminate|].
  cbv zeta. unfold tableCount.
  destruct (rows (trainingExamples (db svc))) as [|e es] eqn:He;
    destruct (rows (extractionPatterns (db svc))) as [|p ps] eqn:Hp;
    cbn [length Nat.eqb db setDb setExamples setPatterns extractionPatterns
         trainingExamples Training.loadPatternRegistry Training.initializeFuseSearch].
  all: split; [try congruence; reflexivity|].
  all: split; [try congruence; reflexivity|].
  all: intros _.
  all: split; [intros E; try discriminate E; now rewrite tableBulkAdd_values, Hp|].
  all: split; [intros E; try discriminate E; now rewrite tableBulkAdd_values, He|].
  all: split; intros E; try (rewrite E in *; discriminate).
  all: apply (f_equal (map snd)) in E; rewrite tableBulkAdd_values in E;
    rewrite ?He, ?Hp in E; discriminate E.
Qed.


Lemma addTrainingExample_parts (f : FieldType) (pattern v : jsstring)
      (context : option jsstring) (conf : Z) (svc : TrainingService) :
  let svc0 := initialize svc in
  let example := mkExample f pattern v context conf (clock (ticks svc0)) in
  let r := addTrainingExample f pattern v context conf svc in
  fst r = nextKey (trainingExamples (db svc0))
  /\ trainingExamples (db (snd r)) = tableAdd (trainingExamples (db svc0)) example
  /\ correctionHistory (db (snd r)) = correctionHistory (db svc0)
  /\ fuseSearch (snd r)
     = Some (map snd (rows (trainingExamples (db svc0))) ++ [example]).
Proof.
  intros svc0 example r. subst r. unfold Training.addTrainingExample.
  cbv zeta. cbn [Training.readClock fst snd]. fold svc0.
  match goal with
  | |- context [Training.learnFromContext _ _ f context v ?s] =>
      destruct (learnFromContext_keeps f context v s) as (He & Hc & Hf)
  end.
  rewrite He, Hc, Hf.
  cbn [db setDb setExamples trainingExamples correctionHistory fuseSearch
       Training.initializeFuseSearch tableAdd rows].
  repeat split. now rewrite map_app.
Qed.

(** [X8] [addTrainingExample] returns the key under which the example can
    be read back: a key no stored example had, holding the example as
    given with the time of the call, behind the examples stored before. *)
Theorem addTrainingExample_stored (f : FieldType) (pattern v : jsstring)
        (context : option jsstring) (conf : Z) (svc : TrainingService) :
  keysFresh (trainingExamples (db svc)) ->
  let before := trainingExamples (db (initialize svc)) in
  let example := mkExample f pattern v context conf (clock (ticks svc)) in
  let r := addTrainingExample f pattern v context conf svc in
  tableGet (trainingExamples (db (snd r))) (fst r) = Some example
  /\ tableGet before (fst r) = None
  /\ rows (trainingExamples (db (snd r))) = rows before ++ [(fst r, example)]
  /\ keysFresh (trainingExamples (db (snd r))).
Proof.
  intros Hk before example r.
  destruct (addTrainingExample_parts f pattern v context conf svc)
    as (Hid & He & _ & _).
  fold r in Hid, He. rewrite initialize_ticks in He. fold example before in He, Hid.
  pose proof (initialize_examples_fresh svc Hk) as Hk'. fold before in Hk'.
  rewrite He, Hid. split; [now apply tableGet_add|]. split; [|split].
  - apply tableGet_None. intros Hin. destruct Hk' as [_ Hlt].
    specialize (Hlt _ Hin). lia.
  - reflexivity.
  - now apply keysFresh_add.
Qed.

(** [X9] [recordCorrection] appends exactly one record to the correction
    history, holding the field type, the two values and the document
    with confidence 100 and the time of the call, and exactly one
    training example, holding the corrected value under the name of the
    field type with confidence 90; the records and the examples stored
    before stay as they are. *)
Theorem recordCorrection_records (f : FieldType) (original corrected docId : jsstring)
        (context : option jsstring) (svc : TrainingService) :
  let svc0 := initialize svc in
  let svc' := recordCorrection f original corrected docId context svc in
  rows (correctionHistory (db svc'))
  = rows (correctionHistory (db svc))
    ++ [(nextKey (correctionHistory (db svc)),
         mkCorrection f original corrected docId 100 (clock (ticks svc)))]
  /\ rows (trainingExamples (db svc'))
     = rows (trainingExamples (db svc0))
       ++ [(nextKey (trainingExamples (db svc0)),
            mkExample f (fieldTypeName f) corrected context 90
                      (clock (S (ticks svc))))]
  /\ initialized svc' = true.
Proof.
  intros svc0 svc'. subst svc'.
  split; [|split; [|apply recordCorrection_initialized]].
  - unfold Training.recordCorrection, Training.updatePatternSuccessRates. cbv zeta.
    cbn [db Training.loadPatternRegistry].
    match goal with
    | |- context [fold_left _ ?l ?s] => destruct (updates_keep original corrected l s)
                                          as (_ & -> & _)
    end.
    unfold Training.storeCorrection. cbv zeta. cbn [Training.readClock].
    match goal with
    | |- context [Training.learnFromContext _ _ f context corrected ?s] =>
        destruct (learnFromContext_keeps f context corrected s) as (_ & -> & _)
    end.
    match goal with
    | |- context [Training.addTrainingExample _ _ _ f ?p corrected context 90 ?s] =>
        destruct (addTrainingExample_parts f p corrected context 90 s) as (_ & _ & -> & _)
    end.
    rewrite initialize_done by apply initialize_initialized.
    cbn [db setDb setCorrections correctionHistory tableAdd rows].
    now rewrite initialize_corrections, initialize_ticks.
  - unfold Training.recordCorrection, Training.updatePatternSuccessRates. cbv zeta.
    cbn [db Training.loadPatternRegistry].
    match goal with
    | |- context [fold_left _ ?l ?s] => destruct (updates_keep original corrected l s)
                                          as (-> & _ & _)
    end.
    unfold Training.storeCorrection. cbv zeta. cbn [Training.readClock].
    match goal with
    | |- context [Training.learnFromContext _ _ f context corrected ?s] =>
        destruct (learnFromContext_keeps f context corrected s) as (-> & _ & _)
    end.
    match goal with
    | |- context [Training.addTrainingExample _ _ _ f ?p corrected context 90 ?s] =>
        destruct (addTrainingExample_parts f p corrected context 90 s) as (_ & -> & _ & _)
    end.
    rewrite initialize_done by apply initialize_initialized.
    cbn [db setDb setCorrections trainingExamples tableAdd rows ticks].
    now rewrite initialize_ticks.
Qed.


(** [X10] [improveConfidence] changes one example at most: an [id] that is
    the key of no example, and every negative one, leaves all the data
    as it is; the example under a stored key gets the confidence
    [min(100, confidence + increment)], never more than 100, and the time
    of the call, and every other example, every pattern and every
    correction stays as it is. *)
Theorem improveConfidence_example (id increment : Z) (svc : TrainingService) :
  let svc0 := initialize svc in
  let svc' := improveConfidence id increment svc in
  let examples := trainingExamples (db svc0) in
  extractionPatterns (db svc') = extractionPatterns (db svc0)
  /\ correctionHistory (db svc') = correctionHistory (db svc0)
  /\ patternRegistry svc' = patternRegistry svc0
  /\ ((id < 0)%Z \/ tableGet examples (Z.to_nat id) = None -> svc' = svc0)
  /\ (forall e, (0 <= id)%Z -> tableGet examples (Z.to_nat id) = Some e ->
        tableGet (trainingExamples (db svc')) (Z.to_nat id)
        = Some (mkExample (te_fieldType e) (te_pattern e) (te_value e) (te_context e)
                          (Z.min 100 (te_confidence e + increment))
                          (clock (ticks svc)))
        /\ (Z.min 100 (te_confidence e + increment) <= 100)%Z
        /\ forall k, k <> Z.to_nat id ->
             tableGet (trainingExamples (db svc')) k = tableGet examples k).
Proof.
  intros svc0 svc' examples. subst svc'. unfold TrainingData.improveConfidence.
  cbv zeta. fold svc0. fold examples.
  destruct (Z.ltb_spec id 0) as [Hneg | Hpos].
  { repeat split; auto; intros; lia. }
  destruct (tableGet examples (Z.to_nat id)) as [e|] eqn:Hget.
  - cbn [Training.readClock]. cbn [db setDb setExamples extractionPatterns
         correctionHistory patternRegistry trainingExamples
         Training.initializeFuseSearch].
    split; [reflexivity|]. split; [reflexivity|]. split; [reflexivity|].
    split; [intros [H | H]; [lia | discriminate]|].
    intros e' _ [= <-]. split; [|split; [lia|]].
    + fold examples. rewrite tableGet_update, Nat.eqb_refl, Hget. simpl.
      unfold svc0. now rewrite initialize_ticks.
    + intros k Hk. fold examples. rewrite tableGet_update.
      destruct (Nat.eqb_spec k (Z.to_nat id)); [contradiction | reflexivity].
  - repeat split; auto; intros; discriminate.
Qed.

(** [X11] [clearAllTrainingData] puts the store back to the seeds whatever
    it held: the examples and the patterns are the initial ones, the
    correction history is empty, and initializing afterwards adds
    nothing.  It does not mark the service as initialized: on a service
    that never was, [getPatterns] still returns the empty list. *)
Theorem clearAllTrainingData_resets (svc : TrainingService) (fieldType : jsstring) :
  let svc' := clearAllTrainingData svc in
  map snd (rows (trainingExamples (db svc'))) = Training.initialTrainingData loadTime
  /\ map snd (rows (extractionPatterns (db svc')))
     = Training.initialExtractionPatterns loadTime
  /\ rows (correctionHistory (db svc')) = []
  /\ db (initialize svc') = db svc'
  /\ initialized svc' = initialized svc
  /\ (initialized svc = false -> getPatterns svc' fieldType = []).
Proof.
  intros svc'. subst svc'. unfold TrainingData.clearAllTrainingData. cbv zeta.
  cbn [db setDb setExamples setPatterns trainingExamples extractionPatterns
       correctionHistory Training.loadPatternRegistry Training.initializeFuseSearch
       initialized].
  split; [now rewrite tableBulkAdd_values|].
  split; [now rewrite tableBulkAdd_values|].
  split; [reflexivity|]. split; [|split; [reflexivity|]].
  - unfold Training.initialize.
    cbn [initialized db setDb setExamples setPatterns trainingExamples
         extractionPatterns Training.loadPatternRegistry
         Training.initializeFuseSearch].
    destruct (initialized svc); [reflexivity|]. cbv zeta.
    assert (E1 : forall t, tableCount (tableBulkAdd (@tableClear TrainingExample t)
                                         (Training.initialTrainingData loadTime))
                           = 4%nat).
    { intros t. unfold tableCount.
      rewrite <- (length_map snd), tableBulkAdd_values. reflexivity. }
    assert (E2 : forall t, tableCount (tableBulkAdd (@tableClear ExtractionPattern t)
                                         (Training.initialExtractionPatterns loadTime))
                           = 5%nat).
    { intros t. unfold tableCount.
      rewrite <- (length_map snd), tableBulkAdd_values. reflexivity. }
    cbn [db setDb setExamples setPatterns trainingExamples extractionPatterns].
    rewrite E1, E2. reflexivity.
  - intros Hi. unfold getPatterns.
    cbn [initialized Training.loadPatternRegistry Training.initializeFuseSearch setDb].
    now rewrite Hi.
Qed.

End Bookkeeping.

(** ** The history of the corrections *)

Lemma StronglySorted_app_inv {A} (R : A -> A -> Prop) (l1 l2 : list A) :
  StronglySorted R (l1 ++ l2) ->
  StronglySorted R l1 /\ StronglySorted R l2
  /\ forall x y, In x l1 -> In y l2 -> R x y.
Proof.
  induction l1 as [|a l1 IH]; simpl; intros H.
  - split; [constructor|]. split; [exact H|]. intros x y [].
  - inversion H as [|? ? Hs Hall]; subst. destruct (IH Hs) as (H1 & H2 & H12).
    rewrite List.Forall_app in Hall. destruct Hall as [Ha1 Ha2].
    split; [now constructor|]. split; [exact H2|].
    intros x y [<- | Hx] Hy.
    + rewrite List.Forall_forall in Ha2. now apply Ha2.
    + now apply H12.
Qed.

Lemma StronglySorted_snoc {A} (R : A -> A -> Prop) (l : list A) (a : A) :
  StronglySorted R l -> (forall x, In x l -> R x a) -> StronglySorted R (l ++ [a]).
Proof.
  induction 1 as [|b l Hs IH Hall]; intros Ha; simpl.
  - repeat constructor.
  - constructor.
    + apply IH. intros x Hx. apply Ha. now right.
    + rewrite List.Forall_app. split; [exact Hall|].
      constructor; [|constructor]. apply Ha. now left.
Qed.

Lemma StronglySorted_rev {A} (R : A -> A -> Prop) (l : list A) :
  StronglySorted R l -> StronglySorted (fun a b => R b a) (rev l).
Proof.
  induction 1 as [|a l Hs IH Hall]; simpl; [constructor|].
  apply StronglySorted_snoc; [exact IH|].
  intros x Hx. apply in_rev in Hx. rewrite List.Forall_forall in Hall. now apply Hall.
Qed.

Lemma StronglySorted_weaken {A} (R R' : A -> A -> Prop) (l : list A) :
  (forall a b, R a b -> R' a b) -> StronglySorted R l -> StronglySorted R' l.
Proof.
  intros Himp. induction 1 as [|a l Hs IH Hall]; constructor; [exact IH|].
  eapply List.Forall_impl; [|exact Hall]. intros b. apply Himp.
Qed.

Lemma stableSort_strongly {A} (le : A -> A -> bool) (l : list A) :
  (forall a b, le a b = true \/ le b a = true) ->
  (forall a b c, le a b = true -> le b c = true -> le a c = true) ->
  StronglySorted (fun a b => le a b = true) (stableSort le l).
Proof.
  intros Htot Htr. apply Sorted_StronglySorted.
  - intros a b c. apply Htr.
  - now apply stableSort_sorted.
Qed.

Lemma newestFirst_sorted (l : list (nat * CorrectionRecord)) :
  StronglySorted newerFirst (newestFirst l).
Proof.
  unfold newestFirst.
  apply (StronglySorted_rev
           (fun a b => jsleb (cr_timestamp (snd a)) (cr_timestamp (snd b)) = true)).
  apply (stableSort_strongly
           (fun a b => jsleb (cr_timestamp (snd a)) (cr_timestamp (snd b)))).
  - intros a b. apply jsleb_total.
  - intros a b c. apply jsleb_trans.
Qed.

Lemma newestFirst_perm (l : list (nat * CorrectionRecord)) :
  Permutation (newestFirst l) l.
Proof.
  unfold newestFirst. rewrite <- Permutation_rev. apply stableSort_perm.
Qed.

Section History.

Variable RegExp_new : jsstring -> option RegExp.
Variable clock : nat -> jsstring.
Variable loadTime : jsstring.
Variable Date_getTime : jsstring -> Z.

Local Abbreviation initialize := (Training.initialize RegExp_new loadTime).
Local Abbreviation getCorrectionHistory :=
  (TrainingData.getCorrectionHistory RegExp_new loadTime).
Local Abbreviation getExtractionPatterns :=
  (TrainingData.getExtractionPatterns RegExp_new loadTime).
Local Abbreviation generateInsights :=
  (TrainingData.generateInsights RegExp_new loadTime Date_getTime).

(** [X12] [getCorrectionHistory(limit)] returns the [limit] newest
    corrections, newest first: as many records as are stored, up to the
    limit, each of them stored, in the descending order of their
    timestamps, and no record left out is newer than one returned. *)
Theorem getCorrectionHistory_newest (limit : nat) (svc : TrainingService) :
  let stored := rows (correctionHistory (db svc)) in
  let r := getCorrectionHistory limit svc in
  snd r = initialize svc
  /\ length (fst r) = Nat.min limit (length stored)
  /\ (forall x, In x (fst r) -> In x stored)
  /\ StronglySorted newerFirst (fst r)
  /\ (forall x y, In x (fst r) -> In y stored -> ~ In y (fst r) -> newerFirst x y).
Proof.
  intros stored r. subst r. unfold TrainingData.getCorrectionHistory. cbv zeta.
  cbn [fst snd]. rewrite (initialize_corrections RegExp_new loadTime svc).
  fold stored.
  pose proof (newestFirst_sorted stored) as Hs.
  pose proof (newestFirst_perm stored) as Hp.
  rewrite <- (firstn_skipn limit (newestFirst stored)) in Hs.
  apply StronglySorted_app_inv in Hs as (H1 & _ & H12).
  split; [reflexivity|]. split; [|split; [|split]].
  - rewrite length_firstn. now rewrite (Permutation_length Hp).
  - intros x Hx. apply (Permutation_in _ Hp).
    rewrite <- (firstn_skipn limit (newestFirst stored)). apply in_or_app. now left.
  - exact H1.
  - intros x y Hx Hy Hny. apply H12; [exact Hx|].
    apply (Permutation_in _ (Permutation_sym Hp)) in Hy.
    rewrite <- (firstn_skipn limit (newestFirst stored)) in Hy.
    apply in_app_or in Hy as [Hy | Hy]; [contradiction | exact Hy].
Qed.


Lemma noChangeRate_range (l : list (nat * CorrectionRecord)) :
  (0 <= noChangeRate l <= 1)%Q.
Proof.
  unfold noChangeRate. destruct l as [|x l]; [split; discriminate|].
  set (n := length (x :: l)).
  assert (Hn : (0 < n)%nat) by (unfold n; simpl; lia).
  assert (Hc : (noChangeCount (x :: l) <= n)%nat).
  { unfold noChangeCount, n. apply filter_length_le || apply List.filter_length_le. }
  split.
  - apply Qle_shift_div_l; [unfold Qlt; simpl; lia|]. rewrite Qmult_0_l.
    unfold Qle. simpl. lia.
  - apply Qle_shift_div_r; [unfold Qlt; simpl; lia|]. rewrite Qmult_1_l.
    rewrite <- Zle_Qle. lia.
Qed.

Lemma countByField_sum (l : list (nat * CorrectionRecord)) :
  list_sum (map snd (countByField l)) = length l.
Proof.
  unfold countByField, allFieldTypes. cbn [map snd list_sum].
  induction l as [|[k c] l IH]; [reflexivity|].
  cbn [List.filter snd length].
  destruct (cr_fieldType c); cbn [FieldType_eqb length];
    unfold list_sum in *; cbn [fold_right] in *; lia.
Qed.

(** [X13] The insights summarize the 1000 newest corrections: the four
    counters add up to their number, the improvement rate lies between
    -100 and 100, the problem fields are the four field types ranked by
    their counters, and the recent patterns are at most five stored
    patterns, the latest first. *)
Theorem generateInsights_summary (svc : TrainingService) :
  let svc0 := initialize svc in
  let r := fst (generateInsights svc) in
  totalCorrections r = Nat.min 1000 (length (rows (correctionHistory (db svc))))
  /\ map fst (fieldCorrections r) = allFieldTypes
  /\ list_sum (map snd (fieldCorrections r)) = totalCorrections r
  /\ (- (100) <= improvementRate r <= 100)%Q
  /\ (exists ranked, problemFields r = map fst ranked
        /\ Permutation ranked (fieldCorrections r)
        /\ StronglySorted moreCorrections ranked)
  /\ Permutation (problemFields r) allFieldTypes
  /\ (length (recentPatterns r) <= 5)%nat
  /\ (forall p, In p (recentPatterns r) -> In p (storedPatterns svc0))
  /\ StronglySorted (laterFirst Date_getTime) (recentPatterns r)
  /\ snd (generateInsights svc) = svc0.
Proof.
  intros svc0 r. subst r. unfold TrainingData.generateInsights.
  cbv zeta. fold svc0.
  assert (Hinit : initialize svc0 = svc0).
  { apply initialize_done, initialize_initialized. }
  unfold TrainingData.getCorrectionHistory, TrainingData.getExtractionPatterns.
  cbv zeta. rewrite !Hinit. cbn [truthy fst snd].
  cbn [totalCorrections fieldCorrections improvementRate problemFields recentPatterns].
  set (corrections := firstn 1000 (newestFirst (rows (correctionHistory (db svc0))))).
  assert (Hlen : length corrections
                 = Nat.min 1000 (length (rows (correctionHistory (db svc))))).
  { unfold corrections. rewrite length_firstn.
    rewrite (Permutation_length (newestFirst_perm _)).
    unfold svc0. now rewrite (initialize_corrections RegExp_new loadTime svc). }
  set (ranked := stableSort (fun a b : FieldType * nat => (snd b <=? snd a)%nat)
                            (countByField corrections)).
  assert (Hranked : Permutation ranked (countByField corrections))
    by apply stableSort_perm.
  set (recent := stableSort
                   (fun a b : nat * ExtractionPattern =>
                      (Date_getTime (timestamp (snd b))
                       <=? Date_getTime (timestamp (snd a)))%Z)
                   (rows (extractionPatterns (db svc0)))).
  assert (Hrecent : StronglySorted (laterFirst Date_getTime) recent).
  { unfold recent, laterFirst.
    eapply StronglySorted_weaken.
    2:{ apply (stableSort_strongly
                 (fun a b : nat * ExtractionPattern =>
                    (Date_getTime (timestamp (snd b))
                     <=? Date_getTime (timestamp (snd a)))%Z)).
        - intros a b. rewrite !Z.leb_le. lia.
        - intros a b c. rewrite !Z.leb_le. lia. }
    intros a b. cbv beta. now rewrite Z.leb_le. }
  split; [exact Hlen|]. split; [reflexivity|].
  split; [apply countByField_sum|]. split; [|split; [|split; [|split; [|split; [|split]]]]].
  - pose proof (noChangeRate_range (firstn (length corrections / 2) corrections)) as H1.
    pose proof (noChangeRate_range (skipn (length corrections / 2) corrections)) as H2.
    split; nra.
  - exists ranked. split; [reflexivity|]. split; [exact Hranked|].
    unfold ranked, moreCorrections.
    eapply StronglySorted_weaken.
    2:{ apply (stableSort_strongly
                 (fun a b : FieldType * nat => (snd b <=? snd a)%nat)).
        - intros a b. rewrite !Nat.leb_le. lia.
        - intros a b c. rewrite !Nat.leb_le. lia. }
    intros a b. cbv beta. now rewrite Nat.leb_le.
  - change allFieldTypes with (map fst (countByField corrections)).
    now apply Permutation_map.
  - rewrite length_firstn. lia.
  - intros p Hp. unfold storedPatterns.
    assert (Hperm : Permutation recent (rows (extractionPatterns (db svc0))))
      by apply stableSort_perm.
    apply (Permutation_in _ Hperm).
    rewrite <- (firstn_skipn 5 recent). apply in_or_app. now left.
  - fold recent. rewrite <- (firstn_skipn 5 recent) in Hrecent.
    now apply StronglySorted_app_inv in Hrecent as (H & _).
  - reflexivity.
Qed.

End History.

(** ** The treasury patterns *)

Lemma extractors_registry (a b : TrainingService) (sections : list DocumentSection) :
  (forall fieldType, getPatterns a fieldType = getPatterns b fieldType) ->
  extractCustomerName a sections = extractCustomerName b sections
  /\ extractRefundAmount a sections = extractRefundAmount b sections
  /\ extractIBAN a sections = extractIBAN b sections
  /\ extractServiceNumber a sections = extractServiceNumber b sections.
Proof.
  intros H. unfold extractCustomerName, extractRefundAmount, extractIBAN,
    extractServiceNumber. now rewrite !H.
Qed.

Section Documents.

Variable RegExp_new : jsstring -> option RegExp.
Variable clock : nat -> jsstring.
Variable loadTime : jsstring.
Variable Date_now : nat -> jsstring.

Local Abbreviation initialize := (Training.initialize RegExp_new loadTime).
Local Abbreviation ensureTreasuryPatterns :=
  (Pipeline.ensureTreasuryPatterns RegExp_new clock loadTime).
Local Abbreviation processDocumentText :=
  (Pipeline.processDocumentText RegExp_new clock loadTime Date_now).

Lemma count_zero_iff (c : jsstring) (t : Table ExtractionPattern) :
  Nat.eqb (length (tableWhere (fun p => jseqb (patternRegex p) c) t)) 0 = true
  <-> ~ In c (map regexOf (rows t)).
Proof.
  rewrite count_zero_known, negb_true_iff, <- knownSource_In.
  destruct (knownSource _ c); split; congruence.
Qed.

Lemma ensure_added (svc : TrainingService) :
  let svc1 := fold_left (Pipeline.addPattern clock) treasuryRows svc in
  rows (extractionPatterns (db svc1))
  = rows (extractionPatterns (db svc))
    ++ combine (seq (nextKey (extractionPatterns (db svc))) 4)
               (treasuryRowsAt clock (ticks svc))
  /\ trainingExamples (db svc1) = trainingExamples (db svc)
  /\ correctionHistory (db svc1) = correctionHistory (db svc)
  /\ initialized svc1 = initialized svc
  /\ patternRegistry svc1 = patternRegistry svc
  /\ ticks svc1 = (ticks svc + 4)%nat.
Proof.
  cbv zeta. unfold treasuryRowsAt.
  change (combine (seq 0 4) treasuryRows)
    with [(0%nat, nth 0 treasuryRows (mkPattern customerName [] 0 0 0));
          (1%nat, nth 1 treasuryRows (mkPattern customerName [] 0 0 0));
          (2%nat, nth 2 treasuryRows (mkPattern customerName [] 0 0 0));
          (3%nat, nth 3 treasuryRows (mkPattern customerName [] 0 0 0))].
  cbn [map fst snd seq combine].
  rewrite Nat.add_0_r, Nat.add_1_r.
  replace (ticks svc + 2)%nat with (S (S (ticks svc))) by lia.
  replace (ticks svc + 3)%nat with (S (S (S (ticks svc)))) by lia.
  replace (ticks svc + 4)%nat with (S (S (S (S (ticks svc))))) by lia.
  unfold treasuryRows, Pipeline.addPattern.
  cbn [fold_left Training.readClock db setDb setPatterns extractionPatterns
       trainingExamples correctionHistory initialized patternRegistry ticks
       tableAdd rows nextKey nth].
  rewrite <- !app_assoc. cbn [app].
  repeat split.
Qed.

Lemma initialize_patterns_kept (svc : TrainingService) :
  rows (extractionPatterns (db svc)) <> [] ->
  extractionPatterns (db (initialize svc)) = extractionPatterns (db svc).
Proof.
  intros Hne. unfold Training.initialize.
  destruct (initialized svc); [reflexivity|]. cbv zeta. unfold tableCount.
  destruct (rows (extractionPatterns (db svc))) as [|p ps]; [congruence|].
  cbn [length Nat.eqb].
  destruct (Nat.eqb (length (rows (trainingExamples (db svc)))) 0); reflexivity.
Qed.

Lemma treasuryProbe_not_added (t : nat) :
  ~ In treasuryProbe (map patternRegex (treasuryRowsAt clock t)).
Proof.
  unfold treasuryRowsAt, treasuryRows. cbn [combine seq map fst snd patternRegex].
  intros [H | [H | [H | [H | []]]]]; vm_compute in H; discriminate H.
Qed.

Lemma regexOf_combine (keys : list nat) (l : list ExtractionPattern) :
  length keys = length l -> map regexOf (combine keys l) = map patternRegex l.
Proof.
  revert l. induction keys as [|k keys IH]; intros [|p l]; simpl; try discriminate.
  - reflexivity.
  - intros [= H]. unfold regexOf at 1. simpl. now rewrite IH.
Qed.

Lemma ensure_stored (svc : TrainingService) :
  ~ In treasuryProbe (map regexOf (storedPatterns svc)) ->
  storedPatterns (ensureTreasuryPatterns svc)
  = storedPatterns svc
    ++ combine (seq (nextKey (extractionPatterns (db svc))) 4)
               (treasuryRowsAt clock (ticks svc)).
Proof.
  intros Hn. unfold Pipeline.ensureTreasuryPatterns. cbv zeta.
  apply count_zero_iff in Hn. rewrite Hn.
  destruct (ensure_added svc) as (Hrows & _).
  unfold storedPatterns. rewrite initialize_patterns_kept; [exact Hrows|].
  rewrite Hrows. intros E. apply app_eq_nil in E as [_ E].
  unfold treasuryRowsAt, treasuryRows in E. discriminate E.
Qed.

(** [X14] [ensureTreasuryPatterns] never finds what it looks for: the
    source it searches the store for is not one of the four sources it
    adds.  As long as no pattern with that very source is stored, every
    call appends the four treasury patterns once more, and the source is
    as absent after the call as before. *)
Theorem ensureTreasuryPatterns_repeats (svc : TrainingService) :
  ~ In treasuryProbe (map regexOf (storedPatterns svc)) ->
  let once := ensureTreasuryPatterns svc in
  let twice := ensureTreasuryPatterns once in
  storedPatterns once
  = storedPatterns svc
    ++ combine (seq (nextKey (extractionPatterns (db svc))) 4)
               (treasuryRowsAt clock (ticks svc))
  /\ ~ In treasuryProbe (map regexOf (storedPatterns once))
  /\ map patternRegex (map snd (storedPatterns twice))
     = map patternRegex (map snd (storedPatterns svc))
       ++ map patternRegex (treasuryRowsAt clock 0)
       ++ map patternRegex (treasuryRowsAt clock 0).
Proof.
  intros Hn once twice.
  pose proof (ensure_stored svc Hn) as H1. fold once in H1.
  assert (Hn1 : ~ In treasuryProbe (map regexOf (storedPatterns once))).
  { rewrite H1, map_app, in_app_iff. intros [H | H]; [now apply Hn|].
    rewrite regexOf_combine in H by reflexivity.
    now apply treasuryProbe_not_added in H. }
  pose proof (ensure_stored once Hn1) as H2. fold twice in H2.
  split; [exact H1|]. split; [exact Hn1|].
  rewrite H2, H1. rewrite !map_app.
  rewrite <- app_assoc. reflexivity.
Qed.

Lemma ensure_registry (svc : TrainingService) (fieldType : jsstring) :
  initialized svc = true ->
  getPatterns (ensureTreasuryPatterns svc) fieldType = getPatterns svc fieldType.
Proof.
  intros Hi. unfold Pipeline.ensureTreasuryPatterns. cbv zeta.
  destruct (Nat.eqb _ 0); [|reflexivity].
  destruct (ensure_added svc) as (_ & _ & _ & Hi' & Hr & _).
  rewrite initialize_done by now rewrite Hi'.
  unfold getPatterns. now rewrite Hi', Hr.
Qed.

Lemma ensure_initialized (svc : TrainingService) :
  initialized svc = true -> initialized (ensureTreasuryPatterns svc) = true.
Proof.
  intros Hi. unfold Pipeline.ensureTreasuryPatterns. cbv zeta.
  destruct (Nat.eqb _ 0); [apply initialize_initialized | exact Hi].
Qed.

(** [X15] On a service that is initialized already, the patterns
    [ensureTreasuryPatterns] stores stay out of the registry: its final
    [initialize] returns at once, so [getPatterns] answers after the
    call what it answered before, and the four extractors return on any
    sections what they returned before. *)
Theorem ensureTreasuryPatterns_unseen (svc : TrainingService)
        (sections : list DocumentSection) :
  initialized svc = true ->
  let svc' := ensureTreasuryPatterns svc in
  (forall fieldType, getPatterns svc' fieldType = getPatterns svc fieldType)
  /\ extractCustomerName svc' sections = extractCustomerName svc sections
  /\ extractRefundAmount svc' sections = extractRefundAmount svc sections
  /\ extractIBAN svc' sections = extractIBAN svc sections
  /\ extractServiceNumber svc' sections = extractServiceNumber svc sections.
Proof.
  intros Hi svc'.
  assert (H : forall fieldType, getPatterns svc' fieldType = getPatterns svc fieldType)
    by (intros ft; now apply ensure_registry).
  split; [exact H|]. now apply extractors_registry.
Qed.

(** ** A whole document *)


Lemma processDocumentText_data (text fileName : jsstring) (svc : TrainingService) :
  exists sections data svc',
    divideDocumentIntoSections text 10 = Returns sections
    /\ processDocumentText text fileName svc = Returns (data, svc')
    /\ documentData (initialize svc) sections data
    /\ Pipeline.fileName data = fileName
    /\ initialized svc' = true.
Proof.
  destruct (divide_extent text 10 ltac:(lia)) as (sections & Hd & _).
  unfold Pipeline.processDocumentText. cbv zeta. unfold divideDocument. rewrite Hd.
  cbn [Pipeline.readNow Training.readClock].
  exists sections. eexists. eexists. split; [reflexivity|]. split; [reflexivity|].
  pose proof (initialize_initialized RegExp_new loadTime svc) as Hi.
  destruct (extractors_registry (ensureTreasuryPatterns (initialize svc)) (initialize svc)
              sections) as (E1 & E2 & E3 & E4).
  { intros ft. now apply ensure_registry. }
  split; [|split; [reflexivity|]].
  - unfold documentData. cbv zeta. cbn [ed_customerName ed_refundAmount ed_ibanNumber
      ed_customerServiceNumber detectedLayout ed_layoutConfidence].
    rewrite E1, E2, E3, E4. repeat split.
  - cbn [initialized]. now apply ensure_initialized.
Qed.




Lemma positionNumber_missing (v : string) :
  PrimFloat.ltb (positionNumber (fposition (notFound v))) 0 = true.
Proof. vm_compute. reflexivity. Qed.

(** [X17] A field that is not found leaves the document without layout:
    when one of the four extractors returns its result for a missing
    field, the layout confidence is 0, the layout named is the first
    template of the catalog, and no confidence is raised. *)
Theorem processDocumentText_missing_field (text fileName : jsstring)
        (svc : TrainingService) (sections : list DocumentSection)
        (data : ExtractedData) (svc' : TrainingService) :
  let svc0 := initialize svc in
  divideDocumentIntoSections text 10 = Returns sections ->
  processDocumentText text fileName svc = Returns (data, svc') ->
  extractCustomerName svc0 sections = notFound "Unknown"
  \/ extractRefundAmount svc0 sections = notFound "0.00"
  \/ extractIBAN svc0 sections = notFound "Unknown"
  \/ extractServiceNumber svc0 sections = notFound "Unknown" ->
  ed_layoutConfidence data = 0%float
  /\ detectedLayout data = js "Standard Layout"
  /\ fv_confidence (ed_customerName data)
     = Z.min (fconfidence (extractCustomerName svc0 sections)) 100
  /\ fv_confidence (ed_refundAmount data)
     = Z.min (fconfidence (extractRefundAmount svc0 sections)) 100
  /\ fv_confidence (ed_ibanNumber data)
     = Z.min (fconfidence (extractIBAN svc0 sections)) 100
  /\ fv_confidence (ed_customerServiceNumber data)
     = Z.min (fconfidence (extractServiceNumber svc0 sections)) 100.
Proof.
  intros svc0 Hd Hp Hmiss.
  destruct (processDocumentText_data text fileName svc)
    as (sections' & data' & svc'' & Hd' & Hp' & Hdata & _).
  rewrite Hd in Hd'. injection Hd' as <-.
  rewrite Hp in Hp'. injection Hp' as <- <-.
  fold svc0 in Hdata. unfold documentData in Hdata. cbv zeta in Hdata.
  set (np := positionNumber (fposition (extractCustomerName svc0 sections))) in *.
  set (ap := positionNumber (fposition (extractRefundAmount svc0 sections))) in *.
  set (ip := positionNumber (fposition (extractIBAN svc0 sections))) in *.
  set (sp := positionNumber (fposition (extractServiceNumber svc0 sections))) in *.
  assert (Hneg : PrimFloat.ltb np 0 = true \/ PrimFloat.ltb ap 0 = true
                 \/ PrimFloat.ltb ip 0 = true \/ PrimFloat.ltb sp 0 = true).
  { destruct Hmiss as [H | [H | [H | H]]];
      [left | right; left | right; right; left | right; right; right];
      [unfold np | unfold ap | unfold ip | unfold sp]; rewrite H;
      apply positionNumber_missing. }
  assert (Hdet : detectFormLayout np ap ip sp = mkDetection standardLayout 0).
  { unfold detectFormLayout. apply detectIn_all_zero.
    intros l. now apply score_missing. }
  rewrite Hdet in Hdata. cbn [layoutConfidence layout name] in Hdata.
  change (PrimFloat.ltb 70 0) with false in Hdata. cbv iota in Hdata.
  destruct Hdata as (-> & -> & -> & -> & -> & ->).
  unfold boosted. cbn [fv_confidence]. rewrite !Z.add_0_r. repeat split.
Qed.

End Documents.

(** ** The matcher and the language of a pattern *)

Lemma matchRe_repeat (ic : bool) (lo : nat) (hi : option nat) (a : regex)
      (s : MState) (k : MState -> option MState) :
  matchRe ic (RRepeat lo hi a) s k
  = loopOf ic a k (lo + length (ms_rest s) + 1)%nat lo hi s.
Proof. reflexivity. Qed.

Lemma consumed_nil (s : MState) : consumed s s [].
Proof. split; simpl; [reflexivity | lia]. Qed.

Lemma consumed_app (s s1 s2 : MState) (u v : jsstring) :
  consumed s s1 u -> consumed s1 s2 v -> consumed s s2 (u ++ v).
Proof.
  intros [H1 H2] [H3 H4]. split.
  - rewrite H1, H3. now rewrite app_assoc.
  - rewrite H4, H2, length_app. lia.
Qed.

Lemma consumed_advance (s : MState) (c : N) (r : jsstring) :
  ms_rest s = c :: r -> consumed s (advance s) [c].
Proof.
  intros H. unfold advance, consumed. rewrite H. simpl. split; [reflexivity | lia].
Qed.

Lemma advance_caps (s : MState) : ms_caps (advance s) = ms_caps s.
Proof. unfold advance. now destruct (ms_rest s). Qed.

Section Soundness.

Variable ic : bool.
Variable bodies : list (nat * regex).

Local Abbreviation good := (goodCaps ic bodies).

Lemma good_clear (ns : list nat) (s : MState) :
  good (ms_caps s) -> good (ms_caps (clearCaps ns s)).
Proof.
  intros H n v Hin. apply H. unfold clearCaps in Hin. simpl in Hin.
  now apply filter_In in Hin as [Hin _].
Qed.

Lemma good_set (n : nat) (a : regex) (v : jsstring) (s : MState) :
  In (n, a) bodies -> Lang ic a v ->
  good (ms_caps s) -> good (ms_caps (setCap n v s)).
Proof.
  intros Hb Hl H m u Hin. unfold setCap in Hin. simpl in Hin.
  destruct Hin as [[= <- <-] | Hin]; [eauto|].
  apply filter_In in Hin as [Hin _]. now apply H.
Qed.

Lemma loop_sound (a : regex) (k : MState -> option MState) :
  soundFor ic bodies a ->
  forall fuel lo hi s res,
    match hi with Some h => (lo <= h)%nat | None => True end ->
    loopOf ic a k fuel lo hi s = Some res ->
    exists s' ws, k s' = Some res /\ consumed s s' (concat ws)
                  /\ List.Forall (Lang ic a) ws
                  /\ (lo <= length ws)%nat
                  /\ match hi with Some h => (length ws <= h)%nat | None => True end
                  /\ (good (ms_caps s) -> good (ms_caps s')).
Proof.
  intros Ha. induction fuel as [|fuel IH]; intros lo hi s res Hb H; [discriminate|].
  cbn [loopOf] in H. fold (loopOf ic a k) in H.
  assert (Hstop : k s = Some res -> lo = 0%nat ->
                  exists s' ws, k s' = Some res /\ consumed s s' (concat ws)
                    /\ List.Forall (Lang ic a) ws /\ (lo <= length ws)%nat
                    /\ match hi with Some h => (length ws <= h)%nat | None => True end
                    /\ (good (ms_caps s) -> good (ms_caps s'))).
  { intros Hk ->. exists s, []. split; [exact Hk|]. split; [apply consumed_nil|].
    split; [constructor|]. split; [simpl; lia|]. split; [|auto].
    destruct hi; simpl; [lia | exact I]. }
  assert (Hround : forall res',
            matchRe ic a (clearCaps (groupsOf a) s)
              (fun s' => if Nat.eqb lo 0 && Nat.eqb (ms_pos s') (ms_pos s) then None
                         else loopOf ic a k fuel (Nat.pred lo) (predOpt hi) s')
            = Some res' ->
            hi <> Some 0%nat ->
            exists s' ws, k s' = Some res' /\ consumed s s' (concat ws)
              /\ List.Forall (Lang ic a) ws /\ (lo <= length ws)%nat
              /\ match hi with Some h => (length ws <= h)%nat | None => True end
              /\ (good (ms_caps s) -> good (ms_caps s'))).
  { intros res' Hm Hhi.
    apply Ha in Hm as (s1 & w & Hd & Hc & Hl & Hg).
    destruct (Nat.eqb lo 0 && Nat.eqb (ms_pos s1) (ms_pos s)); [discriminate|].
    apply IH in Hd as (s' & ws & Hk & Hc' & Hall & Hlo & Hhi' & Hg').
    2:{ destruct hi as [h|]; simpl; [lia | exact I]. }
    exists s', (w :: ws). split; [exact Hk|]. split.
    { simpl. eapply consumed_app; [|exact Hc'].
      destruct Hc as [Hr Hp]. split; [exact Hr | exact Hp]. }
    split; [now constructor|]. split; [simpl; lia|]. split.
    { destruct hi as [h|]; simpl in *; [|exact I].
      destruct h; [congruence | lia]. }
    intros Hgood. apply Hg', Hg. now apply good_clear. }
  destruct hi as [[|h]|].
  - apply Hstop; [exact H | lia].
  - destruct (Nat.eqb lo 0) eqn:Hlo.
    + destruct (matchRe ic a _ _) as [res'|] eqn:Hm.
      * injection H as <-. now apply Hround.
      * apply Hstop; [exact H | now apply Nat.eqb_eq].
    + now apply Hround.
  - destruct (Nat.eqb lo 0) eqn:Hlo.
    + destruct (matchRe ic a _ _) as [res'|] eqn:Hm.
      * injection H as <-. now apply Hround.
      * apply Hstop; [exact H | now apply Nat.eqb_eq].
    + now apply Hround.
Qed.

Lemma matchRe_sound (r : regex) :
  incl (groupBodies r) bodies -> wellFormed r = true -> soundFor ic bodies r.
Proof.
  induction r as [|a| |neg items|a IHa b IHb|a IHa b IHb|lo hi a IHa|n a IHa| | |];
    intros Hin Hwf s k res H; cbn [matchRe] in H.
  - (* empty *)
    exists s, []. split; [exact H|]. split; [apply consumed_nil|]. split; [reflexivity | auto].
  - (* one character *)
    destruct (ms_rest s) as [|c rest] eqn:Hr; [discriminate|].
    destruct (charEq ic a c) eqn:Hc; [|discriminate].
    exists (advance s), [c]. split; [exact H|].
    split; [eapply consumed_advance; eauto|]. split; [simpl; eauto|].
    now rewrite advance_caps.
  - (* any character *)
    destruct (ms_rest s) as [|c rest] eqn:Hr; [discriminate|].
    destruct (isLineTerminator c) eqn:Hc; [discriminate|].
    exists (advance s), [c]. split; [exact H|].
    split; [eapply consumed_advance; eauto|]. split; [simpl; eauto|].
    now rewrite advance_caps.
  - (* class *)
    destruct (ms_rest s) as [|c rest] eqn:Hr; [discriminate|].
    destruct (xorb neg (inClass ic items c)) eqn:Hc; [|discriminate].
    exists (advance s), [c]. split; [exact H|].
    split; [eapply consumed_advance; eauto|]. split; [simpl; eauto|].
    now rewrite advance_caps.
  - (* sequence *)
    simpl in Hin, Hwf. apply andb_true_iff in Hwf as [Hwa Hwb].
    apply IHa in H as (s1 & u & H1 & Hc1 & Hl1 & Hg1);
      [|intros x Hx; apply Hin, in_or_app; now left | exact Hwa].
    apply IHb in H1 as (s2 & v & H2 & Hc2 & Hl2 & Hg2);
      [|intros x Hx; apply Hin, in_or_app; now right | exact Hwb].
    exists s2, (u ++ v). split; [exact H2|].
    split; [eapply consumed_app; eauto|]. split; [simpl; eauto|]. auto.
  - (* alternative *)
    simpl in Hin, Hwf. apply andb_true_iff in Hwf as [Hwa Hwb].
    destruct (matchRe ic a s k) as [res'|] eqn:Ha.
    + injection H as <-.
      apply IHa in Ha as (s1 & u & H1 & Hc1 & Hl1 & Hg1);
        [|intros x Hx; apply Hin, in_or_app; now left | exact Hwa].
      exists s1, u. simpl. auto.
    + apply IHb in H as (s1 & u & H1 & Hc1 & Hl1 & Hg1);
        [|intros x Hx; apply Hin, in_or_app; now right | exact Hwb].
      exists s1, u. simpl. auto.
  - (* quantifier *)
    simpl in Hin, Hwf. apply andb_true_iff in Hwf as [Hb Hwa].
    change (loopOf ic a k (lo + length (ms_rest s) + 1)%nat lo hi s = Some res) in H.
    apply loop_sound in H as (s' & ws & Hk & Hc & Hall & Hlo & Hhi & Hg).
    + exists s', (concat ws). split; [exact Hk|]. split; [exact Hc|].
      split; [|exact Hg]. simpl. exists ws. auto.
    + apply IHa; assumption.
    + destruct hi as [h|]; [now apply Nat.leb_le in Hb | exact I].
  - (* group *)
    simpl in Hin, Hwf.
    apply IHa in H as (s1 & w & H1 & Hc1 & Hl1 & Hg1);
      [|intros x Hx; apply Hin; now right | exact Hwf].
    assert (Ew : firstn (ms_pos s1 - ms_pos s) (ms_rest s) = w).
    { destruct Hc1 as [Hr Hp]. rewrite Hr, Hp.
      replace (ms_pos s + length w - ms_pos s)%nat with (length w + 0)%nat by lia.
      rewrite firstn_app_2. simpl. apply app_nil_r. }
    rewrite Ew in H1.
    exists (setCap n w s1), w. split; [exact H1|]. split.
    { destruct Hc1 as [Hr Hp]. split; [exact Hr | exact Hp]. }
    split; [exact Hl1|].
    intros Hgood. eapply good_set; eauto. apply Hin. now left.
  - (* start of input *)
    destruct (Nat.eqb (ms_pos s) 0); [|discriminate].
    exists s, []. split; [exact H|]. split; [apply consumed_nil|]. split; [reflexivity | auto].
  - (* end of input *)
    destruct (ms_rest s) eqn:Hr; [|discriminate].
    exists s, []. split; [exact H|]. split; [apply consumed_nil|]. split; [reflexivity | auto].
  - (* word boundary *)
    destruct (xorb _ _); [|discriminate].
    exists s, []. split; [exact H|]. split; [apply consumed_nil|]. split; [reflexivity | auto].
Qed.

End Soundness.

Lemma matchFrom_caps (ic : bool) (r : regex) (pos : nat) (prev : option N)
      (rest : jsstring) (m : MatchArray) :
  wellFormed r = true ->
  matchFrom ic r pos prev rest = Some m ->
  goodCaps ic (groupBodies r) (m_caps m).
Proof.
  intros Hwf. revert pos prev. induction rest as [|c rest IH]; intros pos prev H;
    cbn [matchFrom] in H.
  - destruct (matchRe ic r _ Some) as [s'|] eqn:Hm; [|discriminate].
    injection H as <-. cbn [m_caps].
    apply (matchRe_sound ic (groupBodies r) r (incl_refl _) Hwf) in Hm
      as (s1 & w & [= <-] & _ & _ & Hg).
    apply Hg. intros n v [].
  - destruct (matchRe ic r _ Some) as [s'|] eqn:Hm.
    + injection H as <-. cbn [m_caps].
      apply (matchRe_sound ic (groupBodies r) r (incl_refl _) Hwf) in Hm
        as (s1 & w & [= <-] & _ & _ & Hg).
      apply Hg. intros n v [].
    + eapply IH; eauto.
Qed.

(** A captured group is a word of the body of a group of that number. *)
Lemma capture_Lang (n : nat) (text : jsstring) (re : RegExp) (v : jsstring) :
  wellFormed (re_pattern re) = true ->
  capture (S n) (str_match text re) = Some v ->
  exists a, In (S n, a) (groupBodies (re_pattern re))
            /\ Lang (re_ignoreCase re) a v.
Proof.
  intros Hwf H. unfold capture in H.
  destruct (str_match text re) as [m|] eqn:Hm; [|discriminate].
  unfold str_match in Hm. apply matchFrom_caps in Hm; [|exact Hwf].
  cbn [group] in H. unfold getCap in H.
  destruct (List.find _ (m_caps m)) as [[k u]|] eqn:Hf; [|discriminate].
  apply find_some in Hf as [Hin Hk]. simpl in Hk. apply Nat.eqb_eq in Hk. subst k.
  simpl in H. destruct u as [|c u]; [discriminate|]. injection H as <-.
  now apply Hm.
Qed.

Lemma Lang_accepts (ic : bool) (r : regex) (w : jsstring) :
  Lang ic r w -> List.Forall (fun c => accepts ic r c = true) w.
Proof.
  revert w.
  induction r as [|a| |neg items|a IHa b IHb|a IHa b IHb|lo hi a IHa|n a IHa| | |];
    intros w H; simpl in H.
  - subst. constructor.
  - destruct H as (c & -> & Hc). repeat constructor. exact Hc.
  - destruct H as (c & -> & Hc). repeat constructor. simpl. now rewrite Hc.
  - destruct H as (c & -> & Hc). repeat constructor. exact Hc.
  - destruct H as (u & v & -> & Hu & Hv). apply List.Forall_app. split.
    + eapply List.Forall_impl; [|apply IHa, Hu]. intros c Hc. simpl. now rewrite Hc.
    + eapply List.Forall_impl; [|apply IHb, Hv]. intros c Hc. simpl.
      rewrite Hc. apply orb_true_r.
  - destruct H as [H | H].
    + eapply List.Forall_impl; [|apply IHa, H]. intros c Hc. simpl. now rewrite Hc.
    + eapply List.Forall_impl; [|apply IHb, H]. intros c Hc. simpl.
      rewrite Hc. apply orb_true_r.
  - destruct H as (ws & -> & Hall & _). simpl.
    induction Hall as [|x ws Hx Hall IH]; simpl; [constructor|].
    apply List.Forall_app. split; [now apply IHa | exact IH].
  - simpl. now apply IHa.
  - subst. constructor.
  - subst. constructor.
  - subst. constructor.
Qed.

(** ** Characters under the [i] flag *)

Ltac caseN :=
  repeat match goal with
         | H : context [(?a <=? ?b)%N] |- _ => destruct (N.leb_spec a b); try lia
         | |- context [(?a <=? ?b)%N] => destruct (N.leb_spec a b); try lia
         | H : context [(?a =? ?b)%N] |- _ => destruct (N.eqb_spec a b); try lia
         | |- context [(?a =? ?b)%N] => destruct (N.eqb_spec a b); try lia
         end;
  simpl in *; try discriminate; try reflexivity; try lia.

Lemma toggleCase_cases (c : N) :
  (isUpper c = true /\ toggleCase c = (c + 32)%N)
  \/ (isLower c = true /\ toggleCase c = (c - 32)%N)
  \/ (isUpper c = false /\ isLower c = false /\ toggleCase c = c).
Proof.
  unfold toggleCase. destruct (isUpper c); [auto|].
  destruct (isLower c); auto.
Qed.

Lemma charEq_letter (ic : bool) (u c : N) :
  isUpper u = true -> charEq ic u c = true -> isLetterOf u c = true.
Proof.
  unfold charEq, isLetterOf. intros Hu H.
  destruct (toggleCase_cases c) as [[H1 E] | [[H1 E] | (H1 & H2 & E)]];
    rewrite E in H; unfold isUpper, isLower in *; destruct ic; caseN.
Qed.

Lemma digit_class (ic : bool) (c : N) :
  inClass ic [CDigit] c = true -> isDigit c = true.
Proof.
  unfold inClass. cbn [existsb itemMatches]. intros H.
  destruct (toggleCase_cases c) as [[H1 E] | [[H1 E] | (H1 & H2 & E)]];
    rewrite E in H; unfold isDigit, isUpper, isLower in *; destruct ic; caseN.
Qed.

Lemma single_chars (P : N -> bool) (Q : jsstring -> Prop) (ws : list jsstring) :
  (forall w, Q w -> exists c, w = [c] /\ P c = true) ->
  List.Forall Q ws ->
  forallb P (concat ws) = true /\ length (concat ws) = length ws.
Proof.
  intros HQ. induction 1 as [|w ws Hw Hall IH]; simpl; [auto|].
  destruct (HQ w Hw) as (c & -> & Hc). destruct IH as [IH1 IH2].
  simpl. rewrite Hc, IH1, IH2. auto.
Qed.

Lemma Lang_digits (ic : bool) (lo : nat) (hi : option nat) (w : jsstring) :
  Lang ic (RRepeat lo hi digit) w ->
  forallb isDigit w = true /\ (lo <= length w)%nat
  /\ match hi with Some h => (length w <= h)%nat | None => True end.
Proof.
  intros (ws & -> & Hall & Hlo & Hhi).
  assert (Hsc := single_chars isDigit (Lang ic digit) ws).
  destruct Hsc as [H1 H2]; [|exact Hall|].
  { intros w (c & -> & Hc). exists c. split; [reflexivity|]. now apply digit_class in Hc. }
  rewrite H2. auto.
Qed.

Lemma Lang_saudiIban (ic : bool) (lo : nat) (hi : option nat) (v : jsstring) :
  Lang ic (rseq [lit "SA"; RRepeat lo hi digit]) v ->
  ibanLike lo v = true
  /\ match hi with Some h => (length v <= 2 + h)%nat | None => True end.
Proof.
  intros H.
  change (rseq [lit "SA"; RRepeat lo hi digit])
    with (RSeq (RChar 83) (RSeq (RChar 65) (RRepeat lo hi digit))) in H.
  cbn [Lang] in H.
  destruct H as (u & v1 & -> & (s & -> & Hs) & (u2 & v2 & -> & (a & -> & Ha) & H)).
  change (Lang ic (RRepeat lo hi digit) v2) in H.
  apply Lang_digits in H as (Hd & Hlo & Hhi).
  apply charEq_letter in Hs; [|reflexivity]. apply charEq_letter in Ha; [|reflexivity].
  cbn [app ibanLike]. rewrite Hs, Ha, Hd. cbn [andb].
  split; [now apply Nat.leb_le|]. destruct hi; simpl; [lia | exact I].
Qed.

Lemma Lang_ftthNumber (ic : bool) (v : jsstring) :
  Lang ic ftthNumber v -> serviceNumberLike v = true.
Proof.
  intros H.
  change ftthNumber
    with (RSeq (RChar 70) (RSeq (RChar 84) (RSeq (RChar 84) (RSeq (RChar 72)
            (RRepeat 1 None digit))))) in H.
  cbn [Lang] in H.
  destruct H as (? & ? & -> & (f & -> & Hf) & (? & ? & -> & (t1 & -> & Ht1)
                 & (? & ? & -> & (t2 & -> & Ht2) & (? & v2 & -> & (h & -> & Hh) & H)))).
  change (Lang ic (RRepeat 1 None digit) v2) in H.
  apply Lang_digits in H as (Hd & Hlo & _).
  apply charEq_letter in Hf; [|reflexivity]. apply charEq_letter in Ht1; [|reflexivity].
  apply charEq_letter in Ht2; [|reflexivity]. apply charEq_letter in Hh; [|reflexivity].
  cbn [app serviceNumberLike]. rewrite Hf, Ht1, Ht2, Hh, Hd. cbn [andb].
  now apply Nat.leb_le.
Qed.

(** ** Values without white space *)

Lemma trimStart_id (v : jsstring) :
  forallb (fun c => negb (isWhiteSpace c)) v = true -> trimStart v = v.
Proof.
  destruct v as [|c r]; simpl; [reflexivity|].
  intros H. apply andb_true_iff in H as [Hc _]. apply negb_true_iff in Hc.
  now rewrite Hc.
Qed.

Lemma trim_id (v : jsstring) :
  forallb (fun c => negb (isWhiteSpace c)) v = true -> trim v = v.
Proof.
  intros H. unfold trim. rewrite (trimStart_id v H).
  rewrite trimStart_id; [apply rev_involutive|].
  rewrite forallb_forall in *. intros c Hc. apply H. now apply in_rev.
Qed.

Lemma letter_not_space (u c : N) :
  isUpper u = true -> isLetterOf u c = true -> isWhiteSpace c = false.
Proof. unfold isUpper, isLetterOf, isWhiteSpace. intros Hu H. caseN. Qed.

Lemma digit_not_space (c : N) : isDigit c = true -> isWhiteSpace c = false.
Proof. unfold isDigit, isWhiteSpace. intros H. caseN. Qed.

Lemma digits_not_space (ds : jsstring) :
  forallb isDigit ds = true -> forallb (fun c => negb (isWhiteSpace c)) ds = true.
Proof.
  rewrite !forallb_forall. intros H c Hc. apply negb_true_iff, digit_not_space. auto.
Qed.

Lemma ibanLike_trim (n : nat) (v : jsstring) : ibanLike n v = true -> trim v = v.
Proof.
  destruct v as [|s [|a ds]]; try discriminate. cbn [ibanLike]. intros H.
  apply andb_true_iff in H as [H _]. apply andb_true_iff in H as [H Hd].
  apply andb_true_iff in H as [Hs Ha].
  apply trim_id. cbn [forallb].
  rewrite (letter_not_space 83 s), (letter_not_space 65 a) by (reflexivity || assumption).
  cbn [negb andb]. now apply digits_not_space.
Qed.

Lemma ibanLike_weaken (n m : nat) (v : jsstring) :
  (m <= n)%nat -> ibanLike n v = true -> ibanLike m v = true.
Proof.
  intros Hle. destruct v as [|s [|a ds]]; try discriminate. cbn [ibanLike].
  intros H. apply andb_true_iff in H as [H Hn]. rewrite H. cbn [andb].
  apply Nat.leb_le in Hn. apply Nat.leb_le. lia.
Qed.

Lemma serviceNumberLike_trim (v : jsstring) : serviceNumberLike v = true -> trim v = v.
Proof.
  destruct v as [|f [|t1 [|t2 [|h ds]]]]; try discriminate. cbn [serviceNumberLike].
  intros H. apply andb_true_iff in H as [H _]. apply andb_true_iff in H as [H Hd].
  apply andb_true_iff in H as [H Hh]. apply andb_true_iff in H as [H Ht2].
  apply andb_true_iff in H as [Hf Ht1].
  apply trim_id. cbn [forallb].
  rewrite (letter_not_space 70 f), (letter_not_space 84 t1), (letter_not_space 84 t2),
    (letter_not_space 72 h) by (reflexivity || assumption).
  cbn [negb andb]. now apply digits_not_space.
Qed.

(** A match of the search is a capture of one of the patterns. *)
Lemma search_capture (sections : list DocumentSection) (patterns : list RegExp)
      (m : jsstring) :
  truthy (matched (findPatternInSections sections patterns)) = Some m ->
  exists p text, In p patterns /\ capture 1 (str_match text p) = Some m.
Proof.
  intros Hm.
  assert (Hm' : matched (findPatternInSections sections patterns) = Some m).
  { destruct (matched _) as [[|x y]|]; simpl in Hm; congruence. }
  destruct (findPatternInSections_cases sections patterns)
    as [s p m' Hs Hp Hc Hm'' _ _ | p m' Hp Hc Hm'' _ _ _ | Hr _ _].
  - exists p, (content s). split; [exact Hp|]. congruence.
  - exists p, (joinLines (map content sections)). split; [exact Hp|]. congruence.
  - rewrite Hr in Hm'. discriminate.
Qed.

Lemma capture_nonempty (n : nat) (a : option MatchArray) (m : jsstring) :
  capture n a = Some m -> m <> [].
Proof.
  destruct a as [a|]; unfold capture; [|discriminate].
  destruct (group n a) as [[|c v]|]; simpl; try discriminate.
  intros [= E]. rewrite <- E. discriminate.
Qed.

Lemma search_none (sections : list DocumentSection) (patterns : list RegExp) :
  truthy (matched (findPatternInSections sections patterns)) = None ->
  matched (findPatternInSections sections patterns) = None.
Proof.
  intros Hm.
  destruct (findPatternInSections_cases sections patterns)
    as [s p m' _ _ Hc Hm' _ _ | p m' _ Hc Hm' _ _ _ | Hr _ _].
  - apply capture_nonempty in Hc. rewrite Hm' in Hm.
    destruct m'; [congruence | discriminate].
  - apply capture_nonempty in Hc. rewrite Hm' in Hm.
    destruct m'; [congruence | discriminate].
  - now rewrite Hr.
Qed.

Lemma capturesOnly_app (shape : jsstring -> bool) (a b : list RegExp) :
  capturesOnly shape a -> capturesOnly shape b -> capturesOnly shape (a ++ b).
Proof.
  intros Ha Hb p text v Hin. apply in_app_or in Hin as [Hin | Hin]; eauto.
Qed.

Lemma defaultIbanPatterns_shape : capturesOnly (ibanLike 22) defaultIbanPatterns.
Proof.
  intros p text v Hin Hc.
  assert (Hp : wellFormed (re_pattern p) = true
               /\ groupBodies (re_pattern p) = [(1%nat, saudiIban)]).
  { repeat (destruct Hin as [<- | Hin]; [split; reflexivity|]). destruct Hin. }
  destruct Hp as [Hwf Hb].
  apply capture_Lang in Hc as (a & Ha & Hl); [|exact Hwf].
  rewrite Hb in Ha. destruct Ha as [[= <-] | []].
  now apply Lang_saudiIban in Hl as [Hl _].
Qed.

Lemma ibanFallback_shape (band : list DocumentSection) (r : FieldResult) :
  ibanFallback band = Some r -> ibanLike 10 (value r) = true.
Proof.
  induction band as [|x band IH]; simpl; [discriminate|].
  destruct (capture 1 _) as [v|] eqn:Hc; [|exact IH].
  intros [= <-]. cbn [value].
  apply capture_Lang in Hc as (a & Ha & Hl); [|reflexivity].
  destruct Ha as [[= <-] | []].
  now apply (Lang_saudiIban true 10 None) in Hl as [Hl _].
Qed.

(** [X18] The IBAN returned has the shape of an IBAN: when the patterns of
    the registry capture nothing but [SA] and digits, the value of
    [extractIBAN] is "Unknown" with confidence 0, or the letters [SA], in
    either case, followed by digits only, at least ten of them. *)
Theorem extractIBAN_shape (svc : TrainingService) (sections : list DocumentSection) :
  capturesOnly (ibanLike 10) (getPatterns svc (js "ibanNumber")) ->
  extractIBAN svc sections = notFound "Unknown"
  \/ ibanLike 10 (value (extractIBAN svc sections)) = true.
Proof.
  intros Hreg.
  assert (Hall : capturesOnly (ibanLike 10)
                   (getPatterns svc (js "ibanNumber") ++ defaultIbanPatterns)).
  { apply capturesOnly_app; [exact Hreg|].
    intros p text v Hin Hc. apply (ibanLike_weaken 22); [lia|].
    eapply defaultIbanPatterns_shape; eauto. }
  unfold extractIBAN. cbv zeta.
  destruct (truthy (matched (findPatternInSections sections _))) as [m|] eqn:Hm.
  - right. cbn [value].
    apply search_capture in Hm as (p & text & Hp & Hc).
    pose proof (Hall p text m Hp Hc) as Hs.
    now rewrite (ibanLike_trim 10 m Hs).
  - destruct (ibanFallback sections) as [r|] eqn:Hf; [|now left].
    right. now apply ibanFallback_shape in Hf.
Qed.

Lemma defaultServicePatterns_shape : capturesOnly serviceNumberLike defaultServicePatterns.
Proof.
  intros p text v Hin Hc.
  assert (Hp : wellFormed (re_pattern p) = true
               /\ groupBodies (re_pattern p) = [(1%nat, ftthNumber)]).
  { repeat (destruct Hin as [<- | Hin]; [split; reflexivity|]). destruct Hin. }
  destruct Hp as [Hwf Hb].
  apply capture_Lang in Hc as (a & Ha & Hl); [|exact Hwf].
  rewrite Hb in Ha. destruct Ha as [[= <-] | []].
  now apply Lang_ftthNumber in Hl.
Qed.

Lemma serviceFallback_none (band : list DocumentSection) :
  (forall s, In s band ->
             capture 1 (str_match (content s) (re_i (RGroup 1 ftthNumber))) = None) ->
  serviceFallback band = None.
Proof.
  induction band as [|x band IH]; simpl; [reflexivity|]. intros H.
  rewrite (H x (or_introl eq_refl)). apply IH. intros s Hs. apply H. now right.
Qed.

(** [X19] The service number returned has the shape of a service number:
    when the patterns of the registry capture nothing but [FTTH] and
    digits, the value of [extractServiceNumber] is "Unknown" with
    confidence 0, or [FTTH], in either case, followed by digits only, at
    least one.  The last step of the function, which looks through the
    sections once more, never finds anything: its pattern is the last of
    the patterns the search has tried on every section. *)
Theorem extractServiceNumber_shape (svc : TrainingService)
        (sections : list DocumentSection) :
  capturesOnly serviceNumberLike (getPatterns svc (js "customerServiceNumber")) ->
  (extractServiceNumber svc sections = notFound "Unknown"
   \/ serviceNumberLike (value (extractServiceNumber svc sections)) = true)
  /\ (matched (findPatternInSections sections
                 (getPatterns svc (js "customerServiceNumber")
                  ++ defaultServicePatterns)) = None ->
      serviceFallback sections = None).
Proof.
  intros Hreg.
  assert (Hall : capturesOnly serviceNumberLike
                   (getPatterns svc (js "customerServiceNumber")
                    ++ defaultServicePatterns)).
  { apply capturesOnly_app; [exact Hreg | exact defaultServicePatterns_shape]. }
  assert (Hdead : matched (findPatternInSections sections
                             (getPatterns svc (js "customerServiceNumber")
                              ++ defaultServicePatterns)) = None ->
                  serviceFallback sections = None).
  { intros Hnone. apply serviceFallback_none. intros s Hs.
    destruct (findPatternInSections_cases sections
                (getPatterns svc (js "customerServiceNumber") ++ defaultServicePatterns))
      as [s' p m _ _ _ Hm _ _ | p m _ _ Hm _ _ _ | _ Hno _]; try congruence.
    apply Hno; [exact Hs|]. apply in_or_app. right.
    unfold defaultServicePatterns. simpl. auto 10. }
  split; [|exact Hdead].
  unfold extractServiceNumber. cbv zeta.
  destruct (truthy (matched (findPatternInSections sections _))) as [m|] eqn:Hm.
  - right. cbn [value].
    apply search_capture in Hm as (p & text & Hp & Hc).
    pose proof (Hall p text m Hp Hc) as Hs.
    now rewrite (serviceNumberLike_trim m Hs).
  - rewrite Hdead; [now left|]. now apply search_none.
Qed.

(** ** Groups made of the characters of a class *)

Section OnlyChars.

Variable ic : bool.
Variable P : N -> bool.
Variable classes : list (list ClassItem).

Hypothesis P_char : forall a c, P a = true -> charEq ic a c = true -> P c = true.
Hypothesis P_class : forall items c,
    In items classes -> inClass ic items c = true -> P c = true.

Lemma onlyChars_accepts (r : regex) (c : N) :
  onlyChars P classes r = true -> accepts ic r c = true -> P c = true.
Proof.
  induction r as [|a| |neg items|a IHa b IHb|a IHa b IHb|lo hi a IHa|n a IHa| | |];
    cbn [onlyChars accepts]; intros Ho Ha; try discriminate.
  - eauto.
  - apply andb_true_iff in Ho as [Hneg Hex]. apply negb_true_iff in Hneg. subst neg.
    cbn [xorb] in Ha. apply existsb_exists in Hex as (items' & Hin & Hs).
    unfold sameClass in Hs. destruct (List.list_eq_dec _ items items'); [|discriminate].
    subst items'. eauto.
  - apply andb_true_iff in Ho as [H1 H2]. apply orb_true_iff in Ha as [Ha | Ha]; auto.
  - apply andb_true_iff in Ho as [H1 H2]. apply orb_true_iff in Ha as [Ha | Ha]; auto.
  - auto.
  - auto.
Qed.

Lemma capture_onlyChars (n : nat) (text : jsstring) (re : RegExp) (v : jsstring) :
  re_ignoreCase re = ic ->
  groupOnlyChars P classes (S n) re = true ->
  capture (S n) (str_match text re) = Some v ->
  forallb P v = true.
Proof.
  intros Hic Hg Hc. unfold groupOnlyChars in Hg.
  apply andb_true_iff in Hg as [Hg Hwf].
  apply capture_Lang in Hc as (a & Ha & Hl); [|exact Hwf].
  rewrite forallb_forall in Hg. specialize (Hg _ Ha). cbn [fst snd] in Hg.
  rewrite Nat.eqb_refl in Hg. cbn [negb orb] in Hg.
  rewrite Hic in Hl. apply Lang_accepts in Hl.
  apply forallb_forall. rewrite List.Forall_forall in Hl.
  intros c Hin. eapply onlyChars_accepts; eauto.
Qed.

End OnlyChars.

(** *** The characters of an amount *)

Lemma amount_char (ic : bool) (a c : N) :
  isAmountChar a = true -> charEq ic a c = true -> isAmountChar c = true.
Proof.
  unfold isAmountChar, isDigit, charEq. intros Ha H.
  destruct (toggleCase_cases c) as [[H1 E] | [[H1 E] | (H1 & H2 & E)]];
    rewrite E in H; unfold isUpper, isLower in *; destruct ic; caseN.
Qed.

Lemma amount_class (ic : bool) (items : list ClassItem) (c : N) :
  In items amountClasses -> inClass ic items c = true -> isAmountChar c = true.
Proof.
  intros [<- | [<- | []]]; unfold inClass, isAmountChar, isDigit;
    cbn [existsb itemMatches]; intros H;
    destruct (toggleCase_cases c) as [[H1 E] | [[H1 E] | (H1 & H2 & E)]];
    rewrite E in H; unfold isUpper, isLower in *; destruct ic; caseN.
Qed.

Lemma amountChar_not_space (c : N) : isAmountChar c = true -> isWhiteSpace c = false.
Proof. unfold isAmountChar, isDigit, isWhiteSpace. intros H. caseN. Qed.

Lemma amountLike_of (v : jsstring) :
  v <> [] -> forallb isAmountChar v = true -> amountLike v = true.
Proof. destruct v; [congruence | auto]. Qed.

Lemma amountLike_chars (v : jsstring) : amountLike v = true -> forallb isAmountChar v = true.
Proof. destruct v; [discriminate | auto]. Qed.

Lemma amountLike_trim (v : jsstring) : amountLike v = true -> trim v = v.
Proof.
  intros H. apply amountLike_chars in H. apply trim_id.
  rewrite forallb_forall in *. intros c Hc.
  apply negb_true_iff, amountChar_not_space. auto.
Qed.

Lemma defaultAmountPatterns_shape : capturesOnly amountLike defaultAmountPatterns.
Proof.
  intros p text v Hin Hc.
  assert (Hp : re_ignoreCase p = true
               /\ groupOnlyChars isAmountChar amountClasses 1 p = true).
  { repeat (destruct Hin as [<- | Hin]; [split; reflexivity|]). destruct Hin. }
  destruct Hp as [Hic Hg].
  apply amountLike_of; [eapply capture_nonempty; eauto|].
  eapply (capture_onlyChars true isAmountChar amountClasses); eauto.
  - apply amount_char.
  - apply amount_class.
Qed.

Lemma amountFallback_shape (band : list DocumentSection) (r : FieldResult) :
  amountFallback band = Some r -> amountLike (value r) = true.
Proof.
  induction band as [|x band IH]; simpl; [discriminate|].
  destruct (capture 1 _) as [v|] eqn:Hc; [|exact IH].
  intros [= <-]. cbn [value].
  apply amountLike_of; [eapply capture_nonempty; eauto|].
  eapply (capture_onlyChars false isAmountChar amountClasses
            (amount_char false) (amount_class false) 0 _ bareNumber); eauto.
Qed.

(** [X20] The amount returned is written with digits, commas and dots
    only, and is not empty, when the patterns of the registry capture
    nothing else: the result for an amount that was not found, "0.00",
    is of this shape too. *)
Theorem extractRefundAmount_shape (svc : TrainingService)
        (sections : list DocumentSection) :
  capturesOnly amountLike (getPatterns svc (js "refundAmount")) ->
  amountLike (value (extractRefundAmount svc sections)) = true.
Proof.
  intros Hreg.
  assert (Hall : capturesOnly amountLike
                   (getPatterns svc (js "refundAmount") ++ defaultAmountPatterns)).
  { apply capturesOnly_app; [exact Hreg | exact defaultAmountPatterns_shape]. }
  unfold extractRefundAmount. cbv zeta.
  destruct (truthy (matched (findPatternInSections sections _))) as [m|] eqn:Hm.
  - cbn [value]. apply search_capture in Hm as (p & text & Hp & Hc).
    pose proof (Hall p text m Hp Hc) as Hs.
    now rewrite (amountLike_trim m Hs).
  - destruct (amountFallback sections) as [r|] eqn:Hf; [|reflexivity].
    now apply amountFallback_shape in Hf.
Qed.

(** *** The characters of a name *)

Lemma letter_not_white (c : N) :
  isUpper c || isLower c = true -> isWhiteSpace c = false.
Proof. unfold isUpper, isLower, isWhiteSpace. intros H. caseN. Qed.

Lemma nameChar_toggle (c : N) : isNameChar (toggleCase c) = true -> isNameChar c = true.
Proof.
  destruct (toggleCase_cases c) as [[H1 E] | [[H1 E] | (H1 & H2 & E)]]; rewrite E.
  - intros _. unfold isNameChar. now rewrite H1.
  - intros _. unfold isNameChar. rewrite H1. now rewrite orb_true_r.
  - auto.
Qed.

Lemma name_char (ic : bool) (a c : N) :
  isNameChar a = true -> charEq ic a c = true -> isNameChar c = true.
Proof.
  unfold charEq. intros Ha H. apply orb_true_iff in H as [H | H].
  - apply N.eqb_eq in H. now subst.
  - apply andb_true_iff in H as [_ H]. apply N.eqb_eq in H.
    apply nameChar_toggle. now rewrite <- H.
Qed.

Lemma name_item (it : ClassItem) (c : N) :
  In it [CRange 65 90; CRange 97 122; CSpace; CChar 46; CChar 39; CChar 45] ->
  itemMatches it c = true -> isNameChar c = true.
Proof.
  unfold isNameChar, isUpper, isLower.
  intros [<- | [<- | [<- | [<- | [<- | [<- | []]]]]]]; cbn [itemMatches]; intros H;
    rewrite ?H, ?orb_true_r; try reflexivity;
    try (apply N.eqb_eq in H; subst c; reflexivity).
Qed.

Lemma name_class (ic : bool) (items : list ClassItem) (c : N) :
  In items nameClasses -> inClass ic items c = true -> isNameChar c = true.
Proof.
  intros Hin H. unfold inClass in H. apply existsb_exists in H as (it & Hit & H).
  assert (Hsub : In it [CRange 65 90; CRange 97 122; CSpace; CChar 46; CChar 39;
                        CChar 45]).
  { destruct Hin as [<- | [<- | [<- | [<- | []]]]]; simpl in Hit |- *; tauto. }
  apply orb_true_iff in H as [H | H].
  - eapply name_item; eauto.
  - apply andb_true_iff in H as [_ H]. apply nameChar_toggle.
    eapply name_item; eauto.
Qed.

Lemma forallb_trimStart (P : N -> bool) (v : jsstring) :
  forallb P v = true -> forallb P (trimStart v) = true.
Proof.
  induction v as [|c v IH]; simpl; [auto|]. intros H.
  apply andb_true_iff in H as [Hc Hv].
  destruct (isWhiteSpace c); [auto|]. simpl. now rewrite Hc, Hv.
Qed.

Lemma forallb_rev (P : N -> bool) (v : jsstring) :
  forallb P v = true -> forallb P (rev v) = true.
Proof.
  rewrite !forallb_forall. intros H c Hc. apply H. now apply in_rev.
Qed.

Lemma nameLike_trim (v : jsstring) : nameLike v = true -> nameLike (trim v) = true.
Proof.
  unfold nameLike, trim. intros H.
  now apply forallb_rev, forallb_trimStart, forallb_rev, forallb_trimStart.
Qed.

Lemma name_capture (ic : bool) (n : nat) (text : jsstring) (re : RegExp) (v : jsstring) :
  re_ignoreCase re = ic ->
  groupOnlyChars isNameChar nameClasses (S n) re = true ->
  capture (S n) (str_match text re) = Some v ->
  nameLike (trim v) = true.
Proof.
  intros Hic Hg Hc. apply nameLike_trim.
  eapply (capture_onlyChars ic isNameChar nameClasses); eauto.
  - apply name_char.
  - apply name_class.
Qed.

Lemma defaultNamePatterns_shape :
  capturesOnly (fun v => nameLike (trim v)) defaultNamePatterns.
Proof.
  intros p text v Hin Hc.
  assert (Hp : re_ignoreCase p = true
               /\ groupOnlyChars isNameChar nameClasses 1 p = true).
  { repeat (destruct Hin as [<- | Hin]; [split; reflexivity|]). destruct Hin. }
  destruct Hp as [Hic Hg]. eapply name_capture; eauto.
Qed.

Lemma firstCapture_In (patterns : list RegExp) (text : jsstring) (m : jsstring) :
  firstCapture patterns text = Some m ->
  exists p, In p patterns /\ capture 1 (str_match text p) = Some m.
Proof.
  induction patterns as [|q patterns IH]; simpl; [discriminate|].
  destruct (capture 1 (str_match text q)) as [v|] eqn:Hq.
  - intros [= <-]. exists q. auto.
  - intros H. destruct (IH H) as (p & Hp & Hc). exists p. auto.
Qed.

Section NameShape.

Variable patterns : list RegExp.
Hypothesis patterns_shape : capturesOnly (fun v => nameLike (trim v)) patterns.

Lemma fromCustomerInfo_shape (s : DocumentSection) (r : FieldResult) :
  fromCustomerInfo s patterns = Some r -> nameLike (value r) = true.
Proof.
  unfold fromCustomerInfo.
  destruct (capture 1 (str_match (content s) treasuryNamePattern)) as [t|] eqn:H1.
  { intros [= <-]. cbn [value]. eapply (name_capture true 0); eauto; reflexivity. }
  destruct (capture 2 (str_match (content s) titlePattern)) as [t|] eqn:H2.
  { intros [= <-]. cbn [value]. eapply (name_capture true 1); eauto; reflexivity. }
  destruct (firstCapture patterns (content s)) as [m|] eqn:H3; [|discriminate].
  intros [= <-]. cbn [value]. apply firstCapture_In in H3 as (p & Hp & Hc).
  eapply patterns_shape; eauto.
Qed.

Lemma scanTop_shape (band : list DocumentSection) (a b : Z) (r : FieldResult) :
  scanTop band patterns a b = Some r -> nameLike (value r) = true.
Proof.
  induction band as [|x band IH]; simpl; [discriminate|].
  destruct (capture 2 (str_match (content x) titlePattern)) as [t|] eqn:H2.
  { intros [= <-]. cbn [value]. eapply (name_capture true 1); eauto; reflexivity. }
  destruct (firstCapture patterns (content x)) as [m|] eqn:H3; [|exact IH].
  intros [= <-]. cbn [value]. apply firstCapture_In in H3 as (p & Hp & Hc).
  eapply patterns_shape; eauto.
Qed.

End NameShape.

Lemma nameFallback_shape (band : list DocumentSection) (r : FieldResult) :
  nameFallback band = Some r -> nameLike (value r) = true.
Proof.
  induction band as [|x band IH]; simpl; [discriminate|].
  destruct (capture 1 (str_match (content x) nameRegex)) as [t|] eqn:H1; [|exact IH].
  intros [= <-]. cbn [value]. eapply (name_capture false 0); eauto; reflexivity.
Qed.

(** [X21] The name returned is written with Basic Latin letters, white
    space, dots, apostrophes and hyphens only, when the patterns of the
    registry capture nothing else: no digit and no other sign gets into a
    name, and the result for a name that was not found, "Unknown", is of
    this shape too. *)
Theorem extractCustomerName_shape (svc : TrainingService)
        (sections : list DocumentSection) :
  capturesOnly (fun v => nameLike (trim v)) (getPatterns svc (js "customerName")) ->
  nameLike (value (extractCustomerName svc sections)) = true.
Proof.
  intros Hreg.
  assert (Hall : capturesOnly (fun v => nameLike (trim v))
                   (getPatterns svc (js "customerName") ++ defaultNamePatterns)).
  { apply capturesOnly_app; [exact Hreg | exact defaultNamePatterns_shape]. }
  unfold extractCustomerName. cbv zeta.
  set (patterns := getPatterns svc (js "customerName") ++ defaultNamePatterns) in *.
  assert (Hrest :
    nameLike
      (value
         match scanTop (List.filter hasNameField (List.filter isTop sections))
                       patterns 95 90 with
         | Some r => r
         | None =>
             match scanTop (List.filter isTop sections) patterns 85 80 with
             | Some r => r
             | None =>
                 match truthy (matched (findPatternInSections sections patterns)) with
                 | Some m =>
                     mkField (trim m)
                       (adjustNameConfidence (findPatternInSections sections patterns)
                                             (trim m))
                       (position (findPatternInSections sections patterns))
                 | None =>
                     match nameFallback
                             (List.filter (fun s => negb (isSignatureSection s))
                                          sections) with
                     | Some r => r
                     | None => notFound "Unknown"
                     end
                 end
             end
         end) = true).
  { destruct (scanTop (List.filter hasNameField _) patterns 95 90) as [r|] eqn:H2.
    { eapply scanTop_shape; eauto. }
    destruct (scanTop (List.filter isTop sections) patterns 85 80) as [r|] eqn:H3.
    { eapply scanTop_shape; eauto. }
    destruct (truthy (matched (findPatternInSections sections patterns))) as [m|] eqn:H4.
    { cbn [value]. apply search_capture in H4 as (p & text & Hp & Hc).
      eapply Hall; eauto. }
    destruct (nameFallback _) as [r|] eqn:H5; [|reflexivity].
    eapply nameFallback_shape; eauto. }
  destruct (List.find isCustomerInfoSection sections) as [ci|]; [|exact Hrest].
  destruct (fromCustomerInfo ci patterns) as [r|] eqn:H1; [|exact Hrest].
  eapply fromCustomerInfo_shape; eauto.
Qed.

(** ** A registry of well-shaped patterns *)

Lemma capturesOnly_incl (shape : jsstring -> bool) (a b : list RegExp) :
  incl a b -> capturesOnly shape b -> capturesOnly shape a.
Proof. intros Hab Hb p text v Hp. apply Hb. now apply Hab. Qed.

Lemma capturesOnly_weaken (shape shape' : jsstring -> bool) (a : list RegExp) :
  (forall v, shape v = true -> shape' v = true) ->
  capturesOnly shape a -> capturesOnly shape' a.
Proof. intros Hs Ha p text v Hp Hc. apply Hs. eapply Ha; eauto. Qed.

Lemma amountGroups_shape (patterns : list RegExp) :
  forallb (groupOnlyChars isAmountChar amountClasses 1) patterns = true ->
  capturesOnly amountLike patterns.
Proof.
  intros H p text v Hp Hc. rewrite forallb_forall in H.
  apply amountLike_of; [eapply capture_nonempty; eauto|].
  eapply (capture_onlyChars (re_ignoreCase p) isAmountChar amountClasses
            (amount_char _) (amount_class _) 0); eauto.
Qed.

Lemma nameGroups_shape (patterns : list RegExp) :
  forallb (groupOnlyChars isNameChar nameClasses 1) patterns = true ->
  capturesOnly (fun v => nameLike (trim v)) patterns.
Proof.
  intros H p text v Hp Hc. rewrite forallb_forall in H.
  eapply (name_capture (re_ignoreCase p) 0); eauto.
Qed.

Lemma shapedRegistry_iban :
  capturesOnly (ibanLike 10) (getPatterns shapedRegistry (js "ibanNumber")).
Proof.
  apply (capturesOnly_weaken (ibanLike 22)).
  - intros v. apply ibanLike_weaken. lia.
  - apply (capturesOnly_incl _ _ defaultIbanPatterns); [|exact defaultIbanPatterns_shape].
    intros p [<- | []]. vm_compute. tauto.
Qed.

Lemma shapedRegistry_service :
  capturesOnly serviceNumberLike (getPatterns shapedRegistry (js "customerServiceNumber")).
Proof.
  apply (capturesOnly_incl _ _ defaultServicePatterns);
    [|exact defaultServicePatterns_shape].
  intros p [<- | []]. vm_compute. tauto.
Qed.

Lemma Returns_inj {A} (a b : A) : Returns a = Returns b -> a = b.
Proof. now intros [= ->]. Qed.

(** ** The further properties at the samples *)

Lemma findPatternInSections_sound_witness :
  let sections := sectionsOf treasuryDocument in
  let r := findPatternInSections sections defaultIbanPatterns in
  let m := js "SA0380000000608010167519" in
  matched r = Some m
  /\ m <> []
  /\ ((exists s p, In s sections /\ In p defaultIbanPatterns
                   /\ capture 1 (str_match (content s) p) = Some m
                   /\ position r = midpoint s)
      \/ (position r = 50%Q
          /\ (exists p, In p defaultIbanPatterns
                /\ capture 1 (str_match (joinLines (map content sections)) p) = Some m)
          /\ forall s p, In s sections -> In p defaultIbanPatterns ->
                         capture 1 (str_match (content s) p) = None)).
Proof.
  intros sections r m.
  assert (Hm : matched r = Some m) by (vm_compute; reflexivity).
  split; [exact Hm|].
  exact (findPatternInSections_sound sections defaultIbanPatterns m Hm).
Defined.

Lemma findPatternInSections_signature_last_witness :
  let sections := sectionsOf signatureOnlyDocument in
  let r := findPatternInSections sections defaultNamePatterns in
  sectionType r = Some signature
  /\ (exists s p m, In s sections /\ isSignatureSection s = true
                    /\ In p defaultNamePatterns
                    /\ capture 1 (str_match (content s) p) = Some m
                    /\ matched r = Some m /\ position r = midpoint s)
  /\ forall s p, In s sections -> isSignatureSection s = false ->
                 In p defaultNamePatterns ->
                 capture 1 (str_match (content s) p) = None.
Proof.
  intros sections r.
  assert (Ht : sectionType r = Some signature) by (vm_compute; reflexivity).
  split; [exact Ht|].
  exact (findPatternInSections_signature_last sections defaultNamePatterns Ht).
Defined.

Lemma extractors_position_witness :
  let sections := sectionsOf treasuryDocument in
  divideDocumentIntoSections treasuryDocument 10 = Returns sections
  /\ (0 < fposition (extractCustomerName unlearned sections) < 100)%Q
  /\ (0 < fposition (extractRefundAmount unlearned sections) < 100)%Q
  /\ (0 < fposition (extractIBAN unlearned sections) < 100)%Q
  /\ (0 < fposition (extractServiceNumber unlearned sections) < 100)%Q.
Proof.
  intros sections.
  assert (Hd : divideDocumentIntoSections treasuryDocument 10 = Returns sections)
    by (vm_compute; reflexivity).
  split; [exact Hd|].
  destruct (extractors_position unlearned treasuryDocument 10 sections Hd)
    as (Hn & Ha & Hi & Hs).
  split; [|split; [|split]].
  - destruct Hn as [Hn | Hn]; [exfalso; revert Hn; vm_compute; discriminate | exact Hn].
  - destruct Ha as [Ha | Ha]; [exfalso; revert Ha; vm_compute; discriminate | exact Ha].
  - destruct Hi as [Hi | Hi]; [exfalso; revert Hi; vm_compute; discriminate | exact Hi].
  - destruct Hs as [Hs | Hs]; [exfalso; revert Hs; vm_compute; discriminate | exact Hs].
Defined.

Lemma addTrainingExample_stored_witness :
  let example := mkExample customerName (js "name") (js "Sara Ali") None 80
                           (fixedClock 0) in
  let r := Training.addTrainingExample compileIgnoreCase fixedClock fixedLoadTime
             customerName (js "name") (js "Sara Ali") None 80 unlearned in
  keysFresh (trainingExamples (db unlearned))
  /\ tableGet (trainingExamples (db (snd r))) (fst r) = Some example
  /\ keysFresh (trainingExamples (db (snd r))).
Proof.
  intros example r.
  assert (Hfresh : keysFresh (trainingExamples (db unlearned))).
  { split; simpl; [constructor | intros k []]. }
  destruct (addTrainingExample_stored compileIgnoreCase fixedClock fixedLoadTime
              customerName (js "name") (js "Sara Ali") None 80 unlearned Hfresh)
    as (Hget & _ & _ & Hkeys).
  split; [exact Hfresh|]. split; [exact Hget | exact Hkeys].
Defined.

Lemma ensureTreasuryPatterns_repeats_witness :
  let once := ensureTreasuryPatterns compileIgnoreCase fixedClock fixedLoadTime
                unlearned in
  let twice := ensureTreasuryPatterns compileIgnoreCase fixedClock fixedLoadTime once in
  ~ In treasuryProbe (map regexOf (storedPatterns unlearned))
  /\ length (storedPatterns once) = 4%nat
  /\ length (storedPatterns twice) = 8%nat.
Proof.
  intros once twice.
  assert (Hprobe : ~ In treasuryProbe (map regexOf (storedPatterns unlearned)))
    by (intros []).
  destruct (ensureTreasuryPatterns_repeats compileIgnoreCase fixedClock fixedLoadTime
              unlearned Hprobe) as (Honce & _ & Htwice).
  split; [exact Hprobe|]. split.
  - fold once in Honce. rewrite Honce. reflexivity.
  - fold once twice in Htwice.
    rewrite <- (length_map snd), <- (length_map patternRegex), Htwice. reflexivity.
Defined.

Lemma ensureTreasuryPatterns_unseen_witness :
  let svc := Training.initialize compileIgnoreCase fixedLoadTime unlearned in
  let svc' := ensureTreasuryPatterns compileIgnoreCase fixedClock fixedLoadTime svc in
  initialized svc = true
  /\ length (storedPatterns svc') = (length (storedPatterns svc) + 4)%nat
  /\ forall fieldType, getPatterns svc' fieldType = getPatterns svc fieldType.
Proof.
  intros svc svc'.
  assert (Hi : initialized svc = true) by reflexivity.
  destruct (ensureTreasuryPatterns_unseen compileIgnoreCase fixedClock fixedLoadTime
              svc (sectionsOf treasuryDocument) Hi) as (Hreg & _).
  split; [exact Hi|]. split; [vm_compute; reflexivity | exact Hreg].
Defined.

Lemma processDocumentText_missing_field_witness :
  match processDocumentText compileIgnoreCase fixedClock fixedLoadTime fixedClock
                            signatureOnlyDocument (js "form.pdf") unlearned with
  | Returns (data, _) =>
      extractIBAN (Training.initialize compileIgnoreCase fixedLoadTime unlearned)
                  (sectionsOf signatureOnlyDocument) = notFound "Unknown"
      /\ ed_layoutConfidence data = 0%float
      /\ detectedLayout data = js "Standard Layout"
  | ThrowsTypeError => False
  end.
Proof.
  destruct (processDocumentText_data compileIgnoreCase fixedClock fixedLoadTime fixedClock
              signatureOnlyDocument (js "form.pdf") unlearned)
    as (sections & data & svc' & Hd & Hp & _).
  assert (E : divideDocumentIntoSections signatureOnlyDocument 10
              = Returns (sectionsOf signatureOnlyDocument))
    by (vm_compute; reflexivity).
  rewrite E in Hd. apply Returns_inj in Hd. subst sections.
  assert (Hi : extractIBAN (Training.initialize compileIgnoreCase fixedLoadTime unlearned)
                 (sectionsOf signatureOnlyDocument) = notFound "Unknown")
    by (vm_compute; reflexivity).
  rewrite Hp.
  destruct (processDocumentText_missing_field compileIgnoreCase fixedClock fixedLoadTime
              fixedClock signatureOnlyDocument (js "form.pdf") unlearned
              (sectionsOf signatureOnlyDocument) data svc' E Hp
              (or_intror (or_intror (or_introl Hi)))) as (Hc & Hl & _).
  split; [exact Hi|]. split; [exact Hc | exact Hl].
Defined.

Lemma extractIBAN_shape_witness :
  let sections := sectionsOf treasuryDocument in
  capturesOnly (ibanLike 10) (getPatterns shapedRegistry (js "ibanNumber"))
  /\ getPatterns shapedRegistry (js "ibanNumber") <> []
  /\ ibanLike 10 (value (extractIBAN shapedRegistry sections)) = true.
Proof.
  intros sections. split; [exact shapedRegistry_iban|].
  split; [vm_compute; discriminate|].
  destruct (extractIBAN_shape shapedRegistry sections shapedRegistry_iban) as [H | H].
  - exfalso. revert H. vm_compute. discriminate.
  - exact H.
Defined.

Lemma extractServiceNumber_shape_witness :
  let sections := sectionsOf treasuryDocument in
  capturesOnly serviceNumberLike
               (getPatterns shapedRegistry (js "customerServiceNumber"))
  /\ getPatterns shapedRegistry (js "customerServiceNumber") <> []
  /\ serviceNumberLike (value (extractServiceNumber shapedRegistry sections)) = true.
Proof.
  intros sections. split; [exact shapedRegistry_service|].
  split; [vm_compute; discriminate|].
  destruct (extractServiceNumber_shape shapedRegistry sections shapedRegistry_service)
    as [[H | H] _].
  - exfalso. revert H. vm_compute. discriminate.
  - exact H.
Defined.

Lemma extractRefundAmount_shape_witness :
  let sections := sectionsOf treasuryDocument in
  capturesOnly amountLike (getPatterns shapedRegistry (js "refundAmount"))
  /\ getPatterns shapedRegistry (js "refundAmount") <> []
  /\ amountLike (value (extractRefundAmount shapedRegistry sections)) = true.
Proof.
  intros sections.
  assert (H : capturesOnly amountLike (getPatterns shapedRegistry (js "refundAmount")))
    by (apply amountGroups_shape; vm_compute; reflexivity).
  split; [exact H|]. split; [vm_compute; discriminate|].
  exact (extractRefundAmount_shape shapedRegistry sections H).
Defined.

Lemma extractCustomerName_shape_witness :
  let sections := sectionsOf treasuryDocument in
  capturesOnly (fun v => nameLike (trim v))
               (getPatterns shapedRegistry (js "customerName"))
  /\ getPatterns shapedRegistry (js "customerName") <> []
  /\ nameLike (value (extractCustomerName shapedRegistry sections)) = true.
Proof.
  intros sections.
  assert (H : capturesOnly (fun v => nameLike (trim v))
                           (getPatterns shapedRegistry (js "customerName")))
    by (apply nameGroups_shape; vm_compute; reflexivity).
  split; [exact H|]. split; [vm_compute; discriminate|].
  exact (extractCustomerName_shape shapedRegistry sections H).
Defined.
